(** * STM32 ROM-bootloader driver (stm32.cpp, main part of the loader)

    A shallow embedding of the protocol engine of the STM32 loader and of
    the flash page utilities, with the properties of the specification
    stated and proved over it.

    Conventions of the embedding.
    - [uint8_t], [uint32_t] and [unsigned int] values are integers of [Z];
      every narrowing assignment of the source is written out with [u8] or
      [u32].  [int] is [Z] wrapped by [s32]; [time_t] is unbounded.
    - The transport is the [port_interface] of the source: a record of
      functions.  The device behind it is a deterministic oracle that
      answers from the history of everything that happened on the wire so
      far, and every call of [read], [write], [time] and [usleep] is logged
      in that history.
    - Loops that the source bounds only by the behaviour of the device or
      of the clock take a [fuel] argument; a computation that uses it up
      yields [None] together with the events it got to.
    - An array is the list of its elements; a read outside of it yields
      0 and a store outside of it is dropped.  [malloc] does not fail.
    - Diagnostics printed on stderr are not part of the model. *)

From Stdlib Require Import ZArith List Bool Lia.
Import ListNotations.
Local Open Scope Z_scope.

(** ** Machine integers *)

Definition u8 (x : Z) : Z := x mod 256.
Definition u32 (x : Z) : Z := x mod 4294967296.
Definition s32 (x : Z) : Z := (x + 2147483648) mod 4294967296 - 2147483648.

(** [for (i = lo; i < hi; i++) body], for a body that leaves [i] and [hi]
    alone. *)
Fixpoint for_range {St : Type} (n : nat) (i : Z) (body : Z -> St -> St) (s : St) : St :=
  match n with
  | O => s
  | S n' => for_range n' (i + 1) body (body i s)
  end.

Definition for_loop {St : Type} (lo hi : Z) (body : Z -> St -> St) (s : St) : St :=
  for_range (Z.to_nat (hi - lo)) lo body s.

(** The indices [lo, lo + 1, ...] of [n] rounds. *)
Fixpoint zseq (lo : Z) (n : nat) : list Z :=
  match n with
  | O => []
  | S n' => lo :: zseq (lo + 1) n'
  end.

(** ** Arrays *)

(** [a[i]] *)
Definition idx (a : list Z) (i : Z) : Z := nth (Z.to_nat i) a 0.

(** [a[i] = v], inside the array. *)
Fixpoint upd_nat (i : nat) (v : Z) (a : list Z) : list Z :=
  match a, i with
  | [], _ => []
  | _ :: t, O => v :: t
  | x :: t, S i' => x :: upd_nat i' v t
  end.

Definition upd (i : Z) (v : Z) (a : list Z) : list Z := upd_nat (Z.to_nat i) v a.

(** What [port->read(port, a + off, n)] leaves in [a] when it stores the
    bytes [bs]. *)
Definition blit (a : list Z) (off : Z) (bs : list Z) : list Z :=
  let o := Z.to_nat off in
  firstn o (a ++ repeat 0 (o - length a)) ++ bs ++ skipn (o + length bs) a.

(** ** port.h *)

(** Modelled from the spec: port.h is not among the sources; the results
    of a port operation are the three that the sources use and that the
    specification lists for the transport. *)
Inductive port_err_t : Type :=
| PORT_ERR_OK
| PORT_ERR_TIMEDOUT
| PORT_ERR_UNKNOWN.

Definition port_err_eqb (a b : port_err_t) : bool :=
  match a, b with
  | PORT_ERR_OK, PORT_ERR_OK
  | PORT_ERR_TIMEDOUT, PORT_ERR_TIMEDOUT
  | PORT_ERR_UNKNOWN, PORT_ERR_UNKNOWN => true
  | _, _ => false
  end.

(** The bit masks of the capability flags of a port are declared in
    port.h too; they are parameters of the development. *)
Class port_h : Type := {
  PORT_BYTE : Z;
  PORT_GVR_ETX : Z;
  PORT_CMD_INIT : Z;
  PORT_RETRY : Z;
  PORT_STRETCH_W : Z
}.

(** What happens on the wire and on the host clock, oldest event first. *)
Inductive event : Type :=
| EvWrite (buf : list Z) (res : port_err_t)
| EvRead (n : Z) (res : port_err_t) (got : list Z)
| EvTime (t : Z)
| EvSleep (usec : Z).

Definition history : Type := list event.

(** [struct port_interface]: [read] and [write] answer from the history;
    [cmd_get_reply] is the optional table of (version, length) pairs that
    ends at the first zero length. *)
Record port_interface : Type := {
  flags : Z;
  read : history -> Z -> port_err_t * list Z;
  write : history -> list Z -> port_err_t;
  cmd_get_reply : option (list (Z * Z))
}.

(** [time()] of the C library, as an oracle over the history. *)
Class libc : Type := {
  time_at : history -> Z
}.

(** ** The monad of the engine

    A computation starts from the history so far and yields its result
    together with the events it adds to the history; [None] is a
    computation cut short by lack of fuel. *)

Definition io (A : Type) : Type := history -> option A * list event.

Definition ret {A : Type} (a : A) : io A := fun _ => (Some a, []).

Definition bind {A B : Type} (m : io A) (k : A -> io B) : io B :=
  fun h =>
    match m h with
    | (Some a, e1) => let '(r, e2) := k a (h ++ e1) in (r, e1 ++ e2)
    | (None, e1) => (None, e1)
    end.

Definition out_of_fuel {A : Type} : io A := fun _ => (None, []).

Declare Scope io_scope.
Delimit Scope io_scope with io.
Notation "x <- c1 ;; c2" := (bind c1 (fun x => c2))
  (at level 100, c1 at next level, right associativity) : io_scope.
Notation "' p <- c1 ;; c2" := (bind c1 (fun x => let p := x in c2))
  (at level 100, p pattern, c1 at next level, right associativity) : io_scope.
Notation "c1 ;; c2" := (bind c1 (fun _ => c2))
  (at level 100, right associativity) : io_scope.
Local Open Scope io_scope.

(** A successful read of [n] bytes stores exactly [n] bytes. *)
Definition fit (n : Z) (bs : list Z) : list Z :=
  firstn (Z.to_nat n) (map u8 bs ++ repeat 0 (Z.to_nat n)).

Definition port_read (port : port_interface) (n : Z) : io (port_err_t * list Z) :=
  fun h =>
    let '(e, bs) := read port h n in
    let got := match e with PORT_ERR_OK => fit n bs | _ => [] end in
    (Some (e, got), [EvRead n e got]).

Definition port_write (port : port_interface) (buf : list Z) : io port_err_t :=
  fun h =>
    let e := write port h buf in
    (Some e, [EvWrite buf e]).

Definition time `{libc} : io Z :=
  fun h => let t := time_at h in (Some t, [EvTime t]).

Definition usleep (usec : Z) : io unit :=
  fun _ => (Some tt, [EvSleep usec]).

(** The buffers handed to [write], in order. *)
Fixpoint writes (evs : list event) : list (list Z) :=
  match evs with
  | [] => []
  | EvWrite buf _ :: evs' => buf :: writes evs'
  | _ :: evs' => writes evs'
  end.

(** The outcomes of the calls of [read], in order. *)
Fixpoint reads (evs : list event) : list (Z * port_err_t * list Z) :=
  match evs with
  | [] => []
  | EvRead n e got :: evs' => (n, e, got) :: reads evs'
  | _ :: evs' => reads evs'
  end.

(** ** stm32.h *)

(** Modelled from the spec: stm32.h is not among the sources; the error
    kinds are those that stm32.cpp returns. *)
Inductive stm32_err_t : Type :=
| STM32_ERR_OK
| STM32_ERR_UNKNOWN
| STM32_ERR_NACK
| STM32_ERR_NO_CMD.

Definition stm32_err_eqb (a b : stm32_err_t) : bool :=
  match a, b with
  | STM32_ERR_OK, STM32_ERR_OK
  | STM32_ERR_UNKNOWN, STM32_ERR_UNKNOWN
  | STM32_ERR_NACK, STM32_ERR_NACK
  | STM32_ERR_NO_CMD, STM32_ERR_NO_CMD => true
  | _, _ => false
  end.

(** The page limit, the mass-erase sentinel and the masks of the device
    flags are declared in stm32.h too; they are parameters of the
    development. *)
Class stm32_h : Type := {
  STM32_MAX_PAGES : Z;
  STM32_MASS_ERASE : Z;
  F_NO_ME : Z;
  F_OBLL : Z;
  F_PEMPTY : Z
}.

(** Modelled from the spec: [stm32_dev_t], an entry of the device table,
    with the fields of the device record of the specification except the
    name; [dev_flags] is its field [flags], and [fl_ps] is the array that
    the pointer of the source points to. *)
Record stm32_dev_t : Type := {
  id : Z;
  ram_start : Z;
  ram_end : Z;
  fl_start : Z;
  fl_end : Z;
  fl_pps : Z;
  fl_ps : list Z;
  opt_start : Z;
  opt_end : Z;
  mem_start : Z;
  mem_end : Z;
  dev_flags : Z
}.

Record stm32_cmd : Type := {
  get : Z;
  gvr : Z;
  gid : Z;
  rm : Z;
  go : Z;
  wm : Z;
  er : Z;
  wp : Z;
  uw : Z;
  rp : Z;
  ur : Z;
  crc : Z
}.

Record stm32_t : Type := {
  port : port_interface;
  bl_version : Z;
  version : Z;
  option1 : Z;
  option2 : Z;
  pid : Z;
  cmd : stm32_cmd;
  dev : stm32_dev_t
}.

(** ** stm32.cpp: constants *)

Definition STM32_ACK : Z := 0x79.
Definition STM32_NACK : Z := 0x1F.
Definition STM32_BUSY : Z := 0x76.

Definition STM32_CMD_INIT : Z := 0x7F.
Definition STM32_CMD_GET : Z := 0x00.
Definition STM32_CMD_GVR : Z := 0x01.
Definition STM32_CMD_GID : Z := 0x02.
Definition STM32_CMD_RM : Z := 0x11.
Definition STM32_CMD_GO : Z := 0x21.
Definition STM32_CMD_WM : Z := 0x31.
Definition STM32_CMD_WM_NS : Z := 0x32.
Definition STM32_CMD_ER : Z := 0x43.
Definition STM32_CMD_EE : Z := 0x44.
Definition STM32_CMD_EE_NS : Z := 0x45.
Definition STM32_CMD_WP : Z := 0x63.
Definition STM32_CMD_WP_NS : Z := 0x64.
Definition STM32_CMD_UW : Z := 0x73.
Definition STM32_CMD_UW_NS : Z := 0x74.
Definition STM32_CMD_RP : Z := 0x82.
Definition STM32_CMD_RP_NS : Z := 0x83.
Definition STM32_CMD_UR : Z := 0x92.
Definition STM32_CMD_UR_NS : Z := 0x93.
Definition STM32_CMD_CRC : Z := 0xA1.
Definition STM32_CMD_ERR : Z := 0xFF.

Definition STM32_RESYNC_TIMEOUT : Z := 35.
Definition STM32_MASSERASE_TIMEOUT : Z := 35.
Definition STM32_PAGEERASE_TIMEOUT : Z := 5.
Definition STM32_BLKWRITE_TIMEOUT : Z := 1.

Definition STM32_CMD_GET_LENGTH : Z := 17.

(** [port->flags & F] as a condition. *)
Definition has_flag (fl mask : Z) : bool := negb (Z.land fl mask =? 0).

(** ** stm32.cpp: framing and acknowledgement *)

Section Engine.
Context `{port_h} `{stm32_h} `{libc}.

(** The [do ... while (1)] of [stm32_get_ack_timeout]; [t0] is only
    meaningful when [timeout] is not zero. *)
Fixpoint stm32_get_ack_loop (fuel : nat) (port : port_interface) (timeout t0 : Z)
  : io stm32_err_t :=
  match fuel with
  | O => out_of_fuel
  | S fuel' =>
    '(p_err, got) <- port_read port 1 ;;
    let byte := idx got 0 in
    again <- (if port_err_eqb p_err PORT_ERR_TIMEDOUT && negb (timeout =? 0)
              then t1 <- time ;; ret (t1 <? t0 + timeout)
              else ret false) ;;
    if (again : bool) then stm32_get_ack_loop fuel' port timeout t0
    else if negb (port_err_eqb p_err PORT_ERR_OK) then ret STM32_ERR_UNKNOWN
    else if byte =? STM32_ACK then ret STM32_ERR_OK
    else if byte =? STM32_NACK then ret STM32_ERR_NACK
    else if negb (byte =? STM32_BUSY) then ret STM32_ERR_UNKNOWN
    else stm32_get_ack_loop fuel' port timeout t0
  end.

Definition stm32_get_ack_timeout (fuel : nat) (stm : stm32_t) (timeout : Z)
  : io stm32_err_t :=
  let port := port stm in
  let timeout := if negb (has_flag (flags port) PORT_RETRY) then 0 else timeout in
  t0 <- (if negb (timeout =? 0) then time else ret 0) ;;
  stm32_get_ack_loop fuel port timeout t0.

Definition stm32_get_ack (fuel : nat) (stm : stm32_t) : io stm32_err_t :=
  stm32_get_ack_timeout fuel stm 0.

Definition stm32_send_command_timeout (fuel : nat) (stm : stm32_t) (cmd timeout : Z)
  : io stm32_err_t :=
  let port := port stm in
  let buf := [cmd; Z.lxor cmd 0xFF] in
  p_err <- port_write port buf ;;
  if negb (port_err_eqb p_err PORT_ERR_OK) then ret STM32_ERR_UNKNOWN
  else
    s_err <- stm32_get_ack_timeout fuel stm timeout ;;
    if stm32_err_eqb s_err STM32_ERR_OK then ret STM32_ERR_OK
    else ret STM32_ERR_UNKNOWN.

Definition stm32_send_command (fuel : nat) (stm : stm32_t) (cmd : Z) : io stm32_err_t :=
  stm32_send_command_timeout fuel stm cmd 0.

(** The [while (t1 < t0 + STM32_RESYNC_TIMEOUT)] of [stm32_resync]. *)
Fixpoint stm32_resync_loop (fuel : nat) (port : port_interface) (t0 t1 : Z)
  : io stm32_err_t :=
  if t1 <? t0 + STM32_RESYNC_TIMEOUT then
    match fuel with
    | O => out_of_fuel
    | S fuel' =>
      let buf := [STM32_CMD_ERR; Z.lxor STM32_CMD_ERR 0xFF] in
      p_err <- port_write port buf ;;
      if negb (port_err_eqb p_err PORT_ERR_OK) then
        usleep 500000 ;;
        t1 <- time ;;
        stm32_resync_loop fuel' port t0 t1
      else
        '(p_err, got) <- port_read port 1 ;;
        let ack := idx got 0 in
        if negb (port_err_eqb p_err PORT_ERR_OK) then
          t1 <- time ;;
          stm32_resync_loop fuel' port t0 t1
        else if ack =? STM32_NACK then ret STM32_ERR_OK
        else
          t1 <- time ;;
          stm32_resync_loop fuel' port t0 t1
    end
  else ret STM32_ERR_UNKNOWN.

Definition stm32_resync (fuel : nat) (stm : stm32_t) : io stm32_err_t :=
  t0 <- time ;;
  stm32_resync_loop fuel (port stm) t0 t0.

(** The block of [stm32_guess_len_cmd] under [if (p_err != PORT_ERR_OK)]:
    restart with only one byte.  [Some e] is its early [return e]. *)
Definition stm32_guess_len_cmd_restart (fuel : nat) (stm : stm32_t) (cmd : Z) (data : list Z)
  : io (option stm32_err_t * list Z) :=
  let port := port stm in
  r <- stm32_resync fuel stm ;;
  if negb (stm32_err_eqb r STM32_ERR_OK) then ret (Some STM32_ERR_UNKNOWN, data)
  else
    s <- stm32_send_command fuel stm cmd ;;
    if negb (stm32_err_eqb s STM32_ERR_OK) then ret (Some STM32_ERR_UNKNOWN, data)
    else
      '(p_err, got) <- port_read port 1 ;;
      if negb (port_err_eqb p_err PORT_ERR_OK) then ret (Some STM32_ERR_UNKNOWN, data)
      else ret (None, blit data 0 got).

(** The rest of [stm32_guess_len_cmd], from the message "Re sync" on. *)
Definition stm32_guess_len_cmd_retry (fuel : nat) (stm : stm32_t) (cmd : Z) (data : list Z)
  : io (stm32_err_t * list Z) :=
  let port := port stm in
  r <- stm32_resync fuel stm ;;
  if negb (stm32_err_eqb r STM32_ERR_OK) then ret (STM32_ERR_UNKNOWN, data)
  else
    let len := idx data 0 in
    s <- stm32_send_command fuel stm cmd ;;
    if negb (stm32_err_eqb s STM32_ERR_OK) then ret (STM32_ERR_UNKNOWN, data)
    else
      '(p_err, got) <- port_read port (len + 2) ;;
      if negb (port_err_eqb p_err PORT_ERR_OK) then ret (STM32_ERR_UNKNOWN, data)
      else ret (STM32_ERR_OK, blit data 0 got).

(** [stm32_guess_len_cmd]; the result carries the buffer [data] as the
    call leaves it. *)
Definition stm32_guess_len_cmd (fuel : nat) (stm : stm32_t) (cmd : Z) (data : list Z) (len : Z)
  : io (stm32_err_t * list Z) :=
  let port := port stm in
  s <- stm32_send_command fuel stm cmd ;;
  if negb (stm32_err_eqb s STM32_ERR_OK) then ret (STM32_ERR_UNKNOWN, data)
  else if has_flag (flags port) PORT_BYTE then
    '(p_err, got) <- port_read port 1 ;;
    if negb (port_err_eqb p_err PORT_ERR_OK) then ret (STM32_ERR_UNKNOWN, data)
    else
      let data := blit data 0 got in
      let len := idx data 0 in
      '(p_err, got) <- port_read port (len + 1) ;;
      if negb (port_err_eqb p_err PORT_ERR_OK) then ret (STM32_ERR_UNKNOWN, data)
      else ret (STM32_ERR_OK, blit data 1 got)
  else
    '(p_err, got) <- port_read port (u32 (len + 2)) ;;
    let data := match p_err with PORT_ERR_OK => blit data 0 got | _ => data end in
    if port_err_eqb p_err PORT_ERR_OK && (len =? idx data 0) then ret (STM32_ERR_OK, data)
    else
      '(early, data) <-
        (if negb (port_err_eqb p_err PORT_ERR_OK)
         then stm32_guess_len_cmd_restart fuel stm cmd data
         else ret (None, data)) ;;
      match early with
      | Some e => ret (e, data)
      | None => stm32_guess_len_cmd_retry fuel stm cmd data
      end.

(** ** stm32.cpp: session establishment *)

Definition stm32_send_init_seq (stm : stm32_t) : io stm32_err_t :=
  let port := port stm in
  let cmd := STM32_CMD_INIT in
  p_err <- port_write port [cmd] ;;
  if negb (port_err_eqb p_err PORT_ERR_OK) then ret STM32_ERR_UNKNOWN
  else
    '(p_err, got) <- port_read port 1 ;;
    let byte := idx got 0 in
    if port_err_eqb p_err PORT_ERR_OK && (byte =? STM32_ACK) then ret STM32_ERR_OK
    else if port_err_eqb p_err PORT_ERR_OK && (byte =? STM32_NACK) then ret STM32_ERR_OK
    else if negb (port_err_eqb p_err PORT_ERR_TIMEDOUT) then ret STM32_ERR_UNKNOWN
    else
      p_err <- port_write port [cmd] ;;
      if negb (port_err_eqb p_err PORT_ERR_OK) then ret STM32_ERR_UNKNOWN
      else
        '(p_err, got) <- port_read port 1 ;;
        let byte := idx got 0 in
        if port_err_eqb p_err PORT_ERR_OK && (byte =? STM32_NACK) then ret STM32_ERR_OK
        else ret STM32_ERR_UNKNOWN.

(** [newer(prev, a)]: find newer command by higher code. *)
Definition newer (prev a : Z) : Z :=
  if prev =? STM32_CMD_ERR then a else if prev >? a then prev else a.

(** [memset(stm->cmd, STM32_CMD_ERR, sizeof(stm32_cmd_t))] *)
Definition cmd_unset : stm32_cmd :=
  {| get := STM32_CMD_ERR; gvr := STM32_CMD_ERR; gid := STM32_CMD_ERR;
     rm := STM32_CMD_ERR; go := STM32_CMD_ERR; wm := STM32_CMD_ERR;
     er := STM32_CMD_ERR; wp := STM32_CMD_ERR; uw := STM32_CMD_ERR;
     rp := STM32_CMD_ERR; ur := STM32_CMD_ERR; crc := STM32_CMD_ERR |}.

Definition set_get (v : Z) (c : stm32_cmd) : stm32_cmd :=
  {| get := v; gvr := gvr c; gid := gid c; rm := rm c; go := go c; wm := wm c;
     er := er c; wp := wp c; uw := uw c; rp := rp c; ur := ur c; crc := crc c |}.
Definition set_gvr (v : Z) (c : stm32_cmd) : stm32_cmd :=
  {| get := get c; gvr := v; gid := gid c; rm := rm c; go := go c; wm := wm c;
     er := er c; wp := wp c; uw := uw c; rp := rp c; ur := ur c; crc := crc c |}.
Definition set_gid (v : Z) (c : stm32_cmd) : stm32_cmd :=
  {| get := get c; gvr := gvr c; gid := v; rm := rm c; go := go c; wm := wm c;
     er := er c; wp := wp c; uw := uw c; rp := rp c; ur := ur c; crc := crc c |}.
Definition set_rm (v : Z) (c : stm32_cmd) : stm32_cmd :=
  {| get := get c; gvr := gvr c; gid := gid c; rm := v; go := go c; wm := wm c;
     er := er c; wp := wp c; uw := uw c; rp := rp c; ur := ur c; crc := crc c |}.
Definition set_go (v : Z) (c : stm32_cmd) : stm32_cmd :=
  {| get := get c; gvr := gvr c; gid := gid c; rm := rm c; go := v; wm := wm c;
     er := er c; wp := wp c; uw := uw c; rp := rp c; ur := ur c; crc := crc c |}.
Definition set_wm (v : Z) (c : stm32_cmd) : stm32_cmd :=
  {| get := get c; gvr := gvr c; gid := gid c; rm := rm c; go := go c; wm := v;
     er := er c; wp := wp c; uw := uw c; rp := rp c; ur := ur c; crc := crc c |}.
Definition set_er (v : Z) (c : stm32_cmd) : stm32_cmd :=
  {| get := get c; gvr := gvr c; gid := gid c; rm := rm c; go := go c; wm := wm c;
     er := v; wp := wp c; uw := uw c; rp := rp c; ur := ur c; crc := crc c |}.
Definition set_wp (v : Z) (c : stm32_cmd) : stm32_cmd :=
  {| get := get c; gvr := gvr c; gid := gid c; rm := rm c; go := go c; wm := wm c;
     er := er c; wp := v; uw := uw c; rp := rp c; ur := ur c; crc := crc c |}.
Definition set_uw (v : Z) (c : stm32_cmd) : stm32_cmd :=
  {| get := get c; gvr := gvr c; gid := gid c; rm := rm c; go := go c; wm := wm c;
     er := er c; wp := wp c; uw := v; rp := rp c; ur := ur c; crc := crc c |}.
Definition set_rp (v : Z) (c : stm32_cmd) : stm32_cmd :=
  {| get := get c; gvr := gvr c; gid := gid c; rm := rm c; go := go c; wm := wm c;
     er := er c; wp := wp c; uw := uw c; rp := v; ur := ur c; crc := crc c |}.
Definition set_ur (v : Z) (c : stm32_cmd) : stm32_cmd :=
  {| get := get c; gvr := gvr c; gid := gid c; rm := rm c; go := go c; wm := wm c;
     er := er c; wp := wp c; uw := uw c; rp := rp c; ur := v; crc := crc c |}.
Definition set_crc (v : Z) (c : stm32_cmd) : stm32_cmd :=
  {| get := get c; gvr := gvr c; gid := gid c; rm := rm c; go := go c; wm := wm c;
     er := er c; wp := wp c; uw := uw c; rp := rp c; ur := ur c; crc := v |}.

(** The [switch (val)] of the GET loop of [stm32_init]: the command map
    and the count [new_cmds] of unknown opcodes. *)
Definition stm32_init_switch (val : Z) (st : stm32_cmd * Z) : stm32_cmd * Z :=
  let '(c, new_cmds) := st in
  if val =? STM32_CMD_GET then (set_get val c, new_cmds)
  else if val =? STM32_CMD_GVR then (set_gvr val c, new_cmds)
  else if val =? STM32_CMD_GID then (set_gid val c, new_cmds)
  else if val =? STM32_CMD_RM then (set_rm val c, new_cmds)
  else if val =? STM32_CMD_GO then (set_go val c, new_cmds)
  else if (val =? STM32_CMD_WM) || (val =? STM32_CMD_WM_NS)
    then (set_wm (newer (wm c) val) c, new_cmds)
  else if (val =? STM32_CMD_ER) || (val =? STM32_CMD_EE) || (val =? STM32_CMD_EE_NS)
    then (set_er (newer (er c) val) c, new_cmds)
  else if (val =? STM32_CMD_WP) || (val =? STM32_CMD_WP_NS)
    then (set_wp (newer (wp c) val) c, new_cmds)
  else if (val =? STM32_CMD_UW) || (val =? STM32_CMD_UW_NS)
    then (set_uw (newer (uw c) val) c, new_cmds)
  else if (val =? STM32_CMD_RP) || (val =? STM32_CMD_RP_NS)
    then (set_rp (newer (rp c) val) c, new_cmds)
  else if (val =? STM32_CMD_UR) || (val =? STM32_CMD_UR_NS)
    then (set_ur (newer (ur c) val) c, new_cmds)
  else if val =? STM32_CMD_CRC then (set_crc (newer (crc c) val) c, new_cmds)
  else (c, s32 (new_cmds + 1)).

(** [for (i = 1; i < len; i++) { val = buf[i + 1]; switch (val) ... }]
    with the [uint8_t len = buf[0] + 1] of the source. *)
Definition stm32_init_get_loop (buf : list Z) (c : stm32_cmd) : stm32_cmd * Z :=
  let len := u8 (idx buf 0 + 1) in
  for_loop 1 len (fun i st => stm32_init_switch (idx buf (i + 1)) st) (c, 0).

(** The length of the GET reply the port expects for this version. *)
Fixpoint cmd_get_reply_length (tbl : list (Z * Z)) (version : Z) (len : Z) : Z :=
  match tbl with
  | [] => len
  | (v, l) :: tbl' =>
    if l =? 0 then len
    else if version =? v then l
    else cmd_get_reply_length tbl' version len
  end.

(** [while (dev->id != 0x00 && dev->id != pid) ++dev;] over the table
    [devices]; [None] when the walk leaves a table without end marker. *)
Fixpoint find_device (devices : list stm32_dev_t) (pid : Z) : option stm32_dev_t :=
  match devices with
  | [] => None
  | d :: rest =>
    if negb (id d =? 0) && negb (id d =? pid) then find_device rest pid else Some d
  end.

Definition null_dev : stm32_dev_t :=
  {| id := 0; ram_start := 0; ram_end := 0; fl_start := 0; fl_end := 0;
     fl_pps := 0; fl_ps := [0]; opt_start := 0; opt_end := 0;
     mem_start := 0; mem_end := 0; dev_flags := 0 |}.

(** [stm32_init]; [None] inside the monad is the NULL of the source. *)
Definition stm32_init (fuel : nat) (devices : list stm32_dev_t) (port : port_interface)
  (init : Z) : io (option stm32_t) :=
  let stm := {| port := port; bl_version := 0; version := 0; option1 := 0;
                option2 := 0; pid := 0; cmd := cmd_unset; dev := null_dev |} in
  s <- (if has_flag (flags port) PORT_CMD_INIT && negb (init =? 0)
        then stm32_send_init_seq stm else ret STM32_ERR_OK) ;;
  if negb (stm32_err_eqb s STM32_ERR_OK) then ret None
  else
  s <- stm32_send_command fuel stm STM32_CMD_GVR ;;
  if negb (stm32_err_eqb s STM32_ERR_OK) then ret None
  else
  let len := if has_flag (flags port) PORT_GVR_ETX then 3 else 1 in
  '(p_err, got) <- port_read port len ;;
  if negb (port_err_eqb p_err PORT_ERR_OK) then ret None
  else
  let buf := blit (repeat 0 257%nat) 0 got in
  let version := idx buf 0 in
  let option1 := if has_flag (flags port) PORT_GVR_ETX then idx buf 1 else 0 in
  let option2 := if has_flag (flags port) PORT_GVR_ETX then idx buf 2 else 0 in
  s <- stm32_get_ack fuel stm ;;
  if negb (stm32_err_eqb s STM32_ERR_OK) then ret None
  else
  let len := match cmd_get_reply port with
             | Some tbl => u8 (cmd_get_reply_length tbl version STM32_CMD_GET_LENGTH)
             | None => STM32_CMD_GET_LENGTH
             end in
  '(s, buf) <- stm32_guess_len_cmd fuel stm STM32_CMD_GET buf len ;;
  if negb (stm32_err_eqb s STM32_ERR_OK) then ret None
  else
  let bl_version := idx buf 1 in
  let '(c, _) := stm32_init_get_loop buf cmd_unset in
  s <- stm32_get_ack fuel stm ;;
  if negb (stm32_err_eqb s STM32_ERR_OK) then ret None
  else
  if (get c =? STM32_CMD_ERR) || (gvr c =? STM32_CMD_ERR) || (gid c =? STM32_CMD_ERR)
  then ret None
  else
  let stm := {| port := port; bl_version := bl_version; version := version;
                option1 := option1; option2 := option2; pid := 0; cmd := c;
                dev := null_dev |} in
  '(s, buf) <- stm32_guess_len_cmd fuel stm (gid c) buf 1 ;;
  if negb (stm32_err_eqb s STM32_ERR_OK) then ret None
  else
  let len := u8 (idx buf 0 + 1) in
  if len <? 2 then ret None
  else
  let pid := Z.lor (Z.shiftl (idx buf 1) 8) (idx buf 2) in
  s <- stm32_get_ack fuel stm ;;
  if negb (stm32_err_eqb s STM32_ERR_OK) then ret None
  else
  match find_device devices pid with
  | None => out_of_fuel
  | Some d =>
    if id d =? 0 then ret None
    else ret (Some {| port := port; bl_version := bl_version; version := version;
                      option1 := option1; option2 := option2; pid := pid; cmd := c;
                      dev := d |})
  end.

(** ** stm32.cpp: memory operations *)

(** The five bytes [address, checksum] that follow a command. *)
Definition store_address (address : Z) (buf : list Z) : list Z :=
  let buf := upd 0 (u8 (Z.shiftr address 24)) buf in
  let buf := upd 1 (Z.land (Z.shiftr address 16) 0xFF) buf in
  let buf := upd 2 (Z.land (Z.shiftr address 8) 0xFF) buf in
  let buf := upd 3 (Z.land address 0xFF) buf in
  upd 4 (Z.lxor (Z.lxor (Z.lxor (idx buf 0) (idx buf 1)) (idx buf 2)) (idx buf 3)) buf.

Definition stm32_read_memory (fuel : nat) (stm : stm32_t) (address : Z) (data : list Z)
  (len : Z) : io (stm32_err_t * list Z) :=
  let port := port stm in
  if len =? 0 then ret (STM32_ERR_OK, data)
  else if len >? 256 then ret (STM32_ERR_UNKNOWN, data)
  else if rm (cmd stm) =? STM32_CMD_ERR then ret (STM32_ERR_NO_CMD, data)
  else
    s <- stm32_send_command fuel stm (rm (cmd stm)) ;;
    if negb (stm32_err_eqb s STM32_ERR_OK) then ret (STM32_ERR_UNKNOWN, data)
    else
      let buf := store_address address (repeat 0 5%nat) in
      p_err <- port_write port (firstn 5 buf) ;;
      if negb (port_err_eqb p_err PORT_ERR_OK) then ret (STM32_ERR_UNKNOWN, data)
      else
        s <- stm32_get_ack fuel stm ;;
        if negb (stm32_err_eqb s STM32_ERR_OK) then ret (STM32_ERR_UNKNOWN, data)
        else
          s <- stm32_send_command fuel stm (u8 (len - 1)) ;;
          if negb (stm32_err_eqb s STM32_ERR_OK) then ret (STM32_ERR_UNKNOWN, data)
          else
            '(p_err, got) <- port_read port len ;;
            if negb (port_err_eqb p_err PORT_ERR_OK) then ret (STM32_ERR_UNKNOWN, data)
            else ret (STM32_ERR_OK, blit data 0 got).

(** [aligned_len = (len + 3) & ~3] on [unsigned int]. *)
Definition aligned (len : Z) : Z := Z.land (u32 (len + 3)) (u32 (Z.lnot 3)).

(** The block of [stm32_write_memory] that builds the data frame in [buf]:
    the result is [buf] and [aligned_len]. *)
Definition write_memory_frame (data : list Z) (len : Z) (buf : list Z) : list Z * Z :=
  let aligned_len := aligned len in
  let cs := u8 (aligned_len - 1) in
  let buf := upd 0 (u8 (aligned_len - 1)) buf in
  let '(cs, buf) :=
    for_loop 0 len
      (fun i '(cs, buf) => (Z.lxor cs (idx data i), upd (i + 1) (idx data i) buf))
      (cs, buf) in
  let '(cs, buf) :=
    for_loop len aligned_len
      (fun i '(cs, buf) => (Z.lxor cs 0xFF, upd (i + 1) 0xFF buf))
      (cs, buf) in
  let buf := upd (aligned_len + 1) cs buf in
  (buf, aligned_len).

Definition stm32_write_memory (fuel : nat) (stm : stm32_t) (address : Z) (data : list Z)
  (len : Z) : io stm32_err_t :=
  let port := port stm in
  if len =? 0 then ret STM32_ERR_OK
  else if len >? 256 then ret STM32_ERR_UNKNOWN
  else if negb (Z.land address 0x3 =? 0) then ret STM32_ERR_UNKNOWN
  else if wm (cmd stm) =? STM32_CMD_ERR then ret STM32_ERR_NO_CMD
  else
    s <- stm32_send_command fuel stm (wm (cmd stm)) ;;
    if negb (stm32_err_eqb s STM32_ERR_OK) then ret STM32_ERR_UNKNOWN
    else
      let buf := store_address address (repeat 0 258%nat) in
      p_err <- port_write port (firstn 5 buf) ;;
      if negb (port_err_eqb p_err PORT_ERR_OK) then ret STM32_ERR_UNKNOWN
      else
        s <- stm32_get_ack fuel stm ;;
        if negb (stm32_err_eqb s STM32_ERR_OK) then ret STM32_ERR_UNKNOWN
        else
          let '(buf, aligned_len) := write_memory_frame data len buf in
          p_err <- port_write port (firstn (Z.to_nat (aligned_len + 2)) buf) ;;
          if negb (port_err_eqb p_err PORT_ERR_OK) then ret STM32_ERR_UNKNOWN
          else
            s_err <- stm32_get_ack_timeout fuel stm STM32_BLKWRITE_TIMEOUT ;;
            if negb (stm32_err_eqb s_err STM32_ERR_OK) then ret STM32_ERR_UNKNOWN
            else ret STM32_ERR_OK.

Definition stm32_mass_erase (fuel : nat) (stm : stm32_t) : io stm32_err_t :=
  let port := port stm in
  s <- stm32_send_command fuel stm (er (cmd stm)) ;;
  if negb (stm32_err_eqb s STM32_ERR_OK) then ret STM32_ERR_UNKNOWN
  else if er (cmd stm) =? STM32_CMD_ER then
    s_err <- stm32_send_command_timeout fuel stm 0xFF STM32_MASSERASE_TIMEOUT ;;
    if negb (stm32_err_eqb s_err STM32_ERR_OK) then ret STM32_ERR_UNKNOWN
    else ret STM32_ERR_OK
  else
    let buf := [0xFF; 0xFF; 0x00] in
    p_err <- port_write port buf ;;
    if negb (port_err_eqb p_err PORT_ERR_OK) then ret STM32_ERR_UNKNOWN
    else
      s_err <- stm32_get_ack_timeout fuel stm STM32_MASSERASE_TIMEOUT ;;
      if negb (stm32_err_eqb s_err STM32_ERR_OK) then ret STM32_ERR_UNKNOWN
      else ret STM32_ERR_OK.

(** The frame that [stm32_pages_erase] builds for the one-byte erase
    command: state of the loop is [(buf, i, cs)]; [malloc] does not fail. *)
Definition pages_erase_frame (spage pages : Z) : list Z :=
  let buf := repeat 0 (Z.to_nat (u32 (1 + pages + 1))) in
  let '(buf, i, cs) := (upd 0 (u8 (pages - 1)) buf, 1, u8 (Z.lxor 0 (u32 (pages - 1)))) in
  let '(buf, i, cs) :=
    for_loop spage (u32 (pages + spage))
      (fun pg_num '(buf, i, cs) =>
         (upd i (u8 pg_num) buf, i + 1, u8 (Z.lxor cs pg_num)))
      (buf, i, cs) in
  let '(buf, i) := (upd i cs buf, i + 1) in
  firstn (Z.to_nat i) buf.

(** The same for the two-byte (extended) erase commands. *)
Definition pages_erase_frame_ext (spage pages : Z) : list Z :=
  let buf := repeat 0 (Z.to_nat (u32 (2 + 2 * pages + 1))) in
  let pg_byte := u8 (Z.shiftr (u32 (pages - 1)) 8) in
  let '(buf, i, cs) := (upd 0 pg_byte buf, 1, Z.lxor 0 pg_byte) in
  let pg_byte := u8 (Z.land (u32 (pages - 1)) 0xFF) in
  let '(buf, i, cs) := (upd i pg_byte buf, i + 1, Z.lxor cs pg_byte) in
  let '(buf, i, cs) :=
    for_loop spage (u32 (spage + pages))
      (fun pg_num '(buf, i, cs) =>
         let pg_byte := u8 (Z.shiftr pg_num 8) in
         let cs := Z.lxor cs pg_byte in
         let buf := upd i pg_byte buf in
         let i := i + 1 in
         let pg_byte := u8 (Z.land pg_num 0xFF) in
         let cs := Z.lxor cs pg_byte in
         (upd i pg_byte buf, i + 1, cs))
      (buf, i, cs) in
  let '(buf, i) := (upd i cs buf, i + 1) in
  firstn (Z.to_nat i) buf.

Definition stm32_pages_erase (fuel : nat) (stm : stm32_t) (spage pages : Z)
  : io stm32_err_t :=
  let port := port stm in
  s <- stm32_send_command fuel stm (er (cmd stm)) ;;
  if negb (stm32_err_eqb s STM32_ERR_OK) then ret STM32_ERR_UNKNOWN
  else if er (cmd stm) =? STM32_CMD_ER then
    p_err <- port_write port (pages_erase_frame spage pages) ;;
    if negb (port_err_eqb p_err PORT_ERR_OK) then ret STM32_ERR_UNKNOWN
    else
      s_err <- stm32_get_ack_timeout fuel stm (u32 (pages * STM32_PAGEERASE_TIMEOUT)) ;;
      if negb (stm32_err_eqb s_err STM32_ERR_OK) then ret STM32_ERR_UNKNOWN
      else ret STM32_ERR_OK
  else
    p_err <- port_write port (pages_erase_frame_ext spage pages) ;;
    if negb (port_err_eqb p_err PORT_ERR_OK) then ret STM32_ERR_UNKNOWN
    else
      s_err <- stm32_get_ack_timeout fuel stm (u32 (pages * STM32_PAGEERASE_TIMEOUT)) ;;
      if negb (stm32_err_eqb s_err STM32_ERR_OK) then ret STM32_ERR_UNKNOWN
      else ret STM32_ERR_OK.

(** ** Main part: address and page utilities

    The functions of the source consult the global session [stm]; here the
    device record is an argument. *)

Definition is_addr_in_flash (d : stm32_dev_t) (addr : Z) : bool :=
  (addr >=? fl_start d) && (addr <? fl_end d).

(** [while (addr >= psize[0]) { addr -= psize[0]; page++; if (psize[1]) psize++; }]
    The pointer [psize] is the rest of the array it points into; the
    result is the final [(page, addr)]. *)
Fixpoint page_walk (fuel : nat) (addr page : Z) (psize : list Z) : option (Z * Z) :=
  if addr >=? idx psize 0 then
    match fuel with
    | O => None
    | S fuel' =>
      let addr := u32 (addr - idx psize 0) in
      let page := s32 (page + 1) in
      let psize := if negb (idx psize 1 =? 0) then tl psize else psize in
      page_walk fuel' addr page psize
    end
  else Some (page, addr).

Definition flash_addr_to_page_floor (fuel : nat) (d : stm32_dev_t) (addr : Z) : option Z :=
  if negb (is_addr_in_flash d addr) then Some 0
  else
    match page_walk fuel (u32 (addr - fl_start d)) 0 (fl_ps d) with
    | Some (page, _) => Some page
    | None => None
    end.

Definition flash_addr_to_page_ceil (fuel : nat) (d : stm32_dev_t) (addr : Z) : option Z :=
  if negb ((addr >=? fl_start d) && (addr <=? fl_end d)) then Some 0
  else
    match page_walk fuel (u32 (addr - fl_start d)) 0 (fl_ps d) with
    | Some (page, addr) => Some (if negb (addr =? 0) then s32 (page + 1) else page)
    | None => None
    end.

Definition flash_page_to_addr (d : stm32_dev_t) (page : Z) : Z :=
  let '(addr, _) :=
    for_loop 0 page
      (fun _ '(addr, psize) =>
         (u32 (addr + idx psize 0), if negb (idx psize 1 =? 0) then tl psize else psize))
      (fl_start d, fl_ps d) in
  addr.

(** ** stm32.cpp: erase *)

(** The [while (pages)] of [stm32_erase_memory]; [n] bounds its rounds. *)
Fixpoint stm32_erase_loop (rounds fuel : nat) (stm : stm32_t) (spage pages : Z)
  : io stm32_err_t :=
  if negb (pages =? 0) then
    match rounds with
    | O => out_of_fuel
    | S rounds' =>
      let n := if pages <=? 512 then pages else 512 in
      s_err <- stm32_pages_erase fuel stm spage n ;;
      if negb (stm32_err_eqb s_err STM32_ERR_OK) then ret s_err
      else stm32_erase_loop rounds' fuel stm (u32 (spage + n)) (u32 (pages - n))
    end
  else ret STM32_ERR_OK.

Definition stm32_erase_memory (fuel : nat) (stm : stm32_t) (spage pages : Z)
  : io stm32_err_t :=
  if (pages =? 0) || (spage >? STM32_MAX_PAGES)
     || (negb (pages =? STM32_MASS_ERASE) && (u32 (spage + pages) >? STM32_MAX_PAGES))
  then ret STM32_ERR_OK
  else if er (cmd stm) =? STM32_CMD_ERR then ret STM32_ERR_NO_CMD
  else if pages =? STM32_MASS_ERASE then
    if negb (has_flag (dev_flags (dev stm)) F_NO_ME) then stm32_mass_erase fuel stm
    else
      match flash_addr_to_page_ceil fuel (dev stm) (fl_end (dev stm)) with
      | None => out_of_fuel
      | Some pages => stm32_erase_loop fuel fuel stm spage (u32 pages)
      end
  else stm32_erase_loop fuel fuel stm spage pages.

(** ** stm32.cpp: host-side CRC *)

Definition CRCPOLY_BE : Z := 0x04c11db7.
Definition CRC_MSBMASK : Z := 0x80000000.
Definition CRC_INIT_VALUE : Z := 0xFFFFFFFF.

(** One round of the inner [for (i = 0; i < 32; i++)]. *)
Definition crc_bit (crc : Z) : Z :=
  if negb (Z.land crc CRC_MSBMASK =? 0)
  then Z.lxor (u32 (Z.shiftl crc 1)) CRCPOLY_BE
  else u32 (Z.shiftl crc 1).

(** The [while (len)] of [stm32_sw_crc], one round for each word; [buf]
    is the rest of the buffer at the pointer. *)
Fixpoint stm32_sw_crc_loop (words : nat) (crc : Z) (buf : list Z) : Z :=
  match words with
  | O => crc
  | S words' =>
    let data := idx buf 0 in
    let data := Z.lor data (Z.shiftl (idx buf 1) 8) in
    let data := Z.lor data (Z.shiftl (idx buf 2) 16) in
    let data := Z.lor data (u32 (Z.shiftl (idx buf 3) 24)) in
    let crc := Z.lxor crc data in
    let crc := for_loop 0 32 (fun _ crc => crc_bit crc) crc in
    stm32_sw_crc_loop words' crc (skipn 4 buf)
  end.

Definition stm32_sw_crc (crc : Z) (buf : list Z) (len : Z) : Z :=
  if negb (Z.land len 0x3 =? 0) then 0
  else stm32_sw_crc_loop (Z.to_nat (len / 4)) crc buf.

End Engine.

(** ** Sample environments

    Values for the constants of the missing headers, and ports and clocks
    that answer from a script; they serve to run the engine on concrete
    inputs. *)

Definition sample_port_h : port_h :=
  {| PORT_BYTE := 1; PORT_GVR_ETX := 2; PORT_CMD_INIT := 4; PORT_RETRY := 8;
     PORT_STRETCH_W := 16 |}.

Definition sample_stm32_h : stm32_h :=
  {| STM32_MAX_PAGES := 0xFFFF; STM32_MASS_ERASE := 0x100000;
     F_NO_ME := 1; F_OBLL := 2; F_PEMPTY := 4 |}.

Definition count_reads (h : history) : nat := length (reads h).
Definition count_writes (h : history) : nat := length (writes h).

Fixpoint count_times (h : history) : nat :=
  match h with
  | [] => O
  | EvTime _ :: h' => S (count_times h')
  | _ :: h' => count_times h'
  end.

(** The k-th call of [read] gets the k-th entry of [rx] (a timeout once
    the script is over), the k-th call of [write] the k-th entry of [tx]
    (success once the script is over). *)
Definition scripted_port (fl : Z) (rx : list (port_err_t * list Z)) (tx : list port_err_t)
  : port_interface :=
  {| flags := fl;
     read := fun h _ => nth (count_reads h) rx (PORT_ERR_TIMEDOUT, []);
     write := fun h _ => nth (count_writes h) tx PORT_ERR_OK;
     cmd_get_reply := None |}.

(** The k-th call of [time] returns the k-th entry of [ts], and the last
    one for ever after. *)
Definition scripted_clock (ts : list Z) : libc :=
  {| time_at := fun h => nth (count_times h) ts (last ts 0) |}.

(** A device that acknowledges every byte asked of it. *)
Definition acking_port (fl : Z) : port_interface :=
  {| flags := fl;
     read := fun _ n => (PORT_ERR_OK, repeat STM32_ACK (Z.to_nat n));
     write := fun _ _ => PORT_ERR_OK;
     cmd_get_reply := None |}.

(** A low-density device: 32 pages of 1 KiB. *)
Definition sample_dev : stm32_dev_t :=
  {| id := 0x412; ram_start := 0x20000200; ram_end := 0x20002800;
     fl_start := 0x08000000; fl_end := 0x08008000; fl_pps := 4; fl_ps := [1024; 0];
     opt_start := 0x1FFFF800; opt_end := 0x1FFFF80F;
     mem_start := 0x1FFFF000; mem_end := 0x1FFFF800; dev_flags := 0 |}.

(** A device with four pages of 16 KiB, one of 64 KiB and pages of
    128 KiB up to 1 MiB. *)
Definition sample_dev_f4 : stm32_dev_t :=
  {| id := 0x413; ram_start := 0x20003000; ram_end := 0x20020000;
     fl_start := 0x08000000; fl_end := 0x08100000; fl_pps := 1;
     fl_ps := [0x4000; 0x4000; 0x4000; 0x4000; 0x10000; 0x20000; 0];
     opt_start := 0x1FFFC000; opt_end := 0x1FFFC00F;
     mem_start := 0x1FFF0000; mem_end := 0x1FFF7800; dev_flags := 0 |}.

Definition sample_cmd : stm32_cmd :=
  {| get := 0x00; gvr := 0x01; gid := 0x02; rm := 0x11; go := 0x21; wm := 0x31;
     er := 0x44; wp := 0x63; uw := 0x73; rp := 0x82; ur := 0x92;
     crc := STM32_CMD_ERR |}.

Definition sample_stm (p : port_interface) (c : stm32_cmd) (d : stm32_dev_t) : stm32_t :=
  {| port := p; bl_version := 0x22; version := 0x22; option1 := 0; option2 := 0;
     pid := id d; cmd := c; dev := d |}.


(** ** Waiting for an acknowledgement, as the specification words it

    [ack_run retrying deadline fuel evs r]: the events [evs] and the
    result [r] of a wait that may make [fuel] reads.  [retrying] says
    that timeouts are retried, up to the time [deadline]. *)
Inductive ack_run (retrying : bool) (deadline : Z)
  : nat -> list event -> option stm32_err_t -> Prop :=
| ack_out_of_fuel :
    ack_run retrying deadline O [] None
| ack_ack fuel :
    ack_run retrying deadline (S fuel)
      [EvRead 1 PORT_ERR_OK [STM32_ACK]] (Some STM32_ERR_OK)
| ack_nack fuel :
    ack_run retrying deadline (S fuel)
      [EvRead 1 PORT_ERR_OK [STM32_NACK]] (Some STM32_ERR_NACK)
| ack_other fuel b :
    b <> STM32_ACK -> b <> STM32_NACK -> b <> STM32_BUSY ->
    ack_run retrying deadline (S fuel)
      [EvRead 1 PORT_ERR_OK [b]] (Some STM32_ERR_UNKNOWN)
| ack_busy fuel evs r :
    ack_run retrying deadline fuel evs r ->
    ack_run retrying deadline (S fuel)
      (EvRead 1 PORT_ERR_OK [STM32_BUSY] :: evs) r
| ack_error fuel e :
    e <> PORT_ERR_OK -> (e = PORT_ERR_TIMEDOUT -> retrying = false) ->
    ack_run retrying deadline (S fuel)
      [EvRead 1 e []] (Some STM32_ERR_UNKNOWN)
| ack_retry fuel t1 evs r :
    retrying = true -> t1 < deadline ->
    ack_run retrying deadline fuel evs r ->
    ack_run retrying deadline (S fuel)
      (EvRead 1 PORT_ERR_TIMEDOUT [] :: EvTime t1 :: evs) r
| ack_expired fuel t1 :
    retrying = true -> ~ t1 < deadline ->
    ack_run retrying deadline (S fuel)
      [EvRead 1 PORT_ERR_TIMEDOUT []; EvTime t1] (Some STM32_ERR_UNKNOWN).

(** The first byte other than BUSY among the bytes read. *)
Fixpoint first_non_busy (evs : list event) : option Z :=
  match evs with
  | [] => None
  | EvRead _ PORT_ERR_OK got :: evs' =>
    if idx got 0 =? STM32_BUSY then first_non_busy evs' else Some (idx got 0)
  | _ :: evs' => first_non_busy evs'
  end.

(** A read that makes the wait go on: a BUSY byte, or a timeout that is
    retried. *)
Definition keeps_waiting (retrying : bool) (rd : Z * port_err_t * list Z) : Prop :=
  let '(_, e, got) := rd in
  (e = PORT_ERR_OK /\ got = [STM32_BUSY]) \/ (e = PORT_ERR_TIMEDOUT /\ retrying = true).

(** The data frame that [stm32_write_memory] hands to the port. *)
Definition write_memory_data_frame (address : Z) (data : list Z) (len : Z) : list Z :=
  let '(buf, aligned_len) :=
    write_memory_frame data len (store_address address (repeat 0 258%nat)) in
  firstn (Z.to_nat (aligned_len + 2)) buf.

(** XOR of the bytes of a list. *)
Definition xor_all (l : list Z) : Z := fold_left Z.lxor l 0.

(** A port without capability flags whose device acknowledges at once,
    and the session used in the examples. *)
Definition sample_clock : libc := scripted_clock [100; 100; 101; 102; 140].

Definition sample_session : stm32_t :=
  sample_stm (acking_port 0) sample_cmd sample_dev.

(** A retrying port whose device is busy once, then silent once, then
    acknowledges. *)
Definition slow_session : stm32_t :=
  sample_stm
    (scripted_port 8
       [(PORT_ERR_OK, [STM32_BUSY]); (PORT_ERR_TIMEDOUT, []); (PORT_ERR_OK, [STM32_ACK])] [])
    sample_cmd sample_dev.

(** ** The command kinds with more than one opcode, as the specification
    sees them *)

Inductive dual_kind : Type :=
| K_WM | K_ER | K_WP | K_UW | K_RP | K_UR | K_CRC.

(** The entry of the command map that holds the opcode of a kind. *)
Definition slot (k : dual_kind) (c : stm32_cmd) : Z :=
  match k with
  | K_WM => wm c
  | K_ER => er c
  | K_WP => wp c
  | K_UW => uw c
  | K_RP => rp c
  | K_UR => ur c
  | K_CRC => crc c
  end.

(** The opcodes of a kind: the case labels of the switch. *)
Definition opcodes (k : dual_kind) : list Z :=
  match k with
  | K_WM => [STM32_CMD_WM; STM32_CMD_WM_NS]
  | K_ER => [STM32_CMD_ER; STM32_CMD_EE; STM32_CMD_EE_NS]
  | K_WP => [STM32_CMD_WP; STM32_CMD_WP_NS]
  | K_UW => [STM32_CMD_UW; STM32_CMD_UW_NS]
  | K_RP => [STM32_CMD_RP; STM32_CMD_RP_NS]
  | K_UR => [STM32_CMD_UR; STM32_CMD_UR_NS]
  | K_CRC => [STM32_CMD_CRC]
  end.

Definition is_opcode_of (k : dual_kind) (v : Z) : bool := existsb (Z.eqb v) (opcodes k).

(** The legacy and the no-stretch opcode of a kind. *)
Definition opcode_pair (k : dual_kind) : Z * Z :=
  match k with
  | K_WM => (STM32_CMD_WM, STM32_CMD_WM_NS)
  | K_ER => (STM32_CMD_EE, STM32_CMD_EE_NS)
  | K_WP => (STM32_CMD_WP, STM32_CMD_WP_NS)
  | K_UW => (STM32_CMD_UW, STM32_CMD_UW_NS)
  | K_RP => (STM32_CMD_RP, STM32_CMD_RP_NS)
  | K_UR => (STM32_CMD_UR, STM32_CMD_UR_NS)
  | K_CRC => (STM32_CMD_CRC, STM32_CMD_CRC)
  end.

(** The opcodes that the GET loop of [stm32_init] visits in the reply
    [buf]: [buf[2]] up to [buf[len]]. *)
Definition get_reply_opcodes (buf : list Z) : list Z :=
  map (fun i => idx buf (i + 1)) (zseq 1 (Z.to_nat (u8 (idx buf 0 + 1) - 1))).

(** ** Flash geometry, as the specification sees it *)

(** A page-size array: sizes other than zero, each a [uint32_t], ended
    by one zero. *)
Fixpoint wf_sizes (l : list Z) : bool :=
  match l with
  | [] => false
  | s :: rest =>
    (0 <? s) && (s <? 4294967296) &&
    match rest with
    | [z] => z =? 0
    | _ => wf_sizes rest
    end
  end.

(** The flash of a device record: a range of 32-bit addresses of less
    than 2 GiB (so that page numbers are within [int]) with a well-formed
    page-size array. *)
Definition wf_flash (d : stm32_dev_t) : bool :=
  (0 <=? fl_start d) && (fl_start d <=? fl_end d) && (fl_end d <? 4294967296)
  && (fl_end d - fl_start d <? 2147483648) && wf_sizes (fl_ps d).

(** [if (psize[1]) psize++;] *)
Definition next_size (psize : list Z) : list Z :=
  if negb (idx psize 1 =? 0) then tl psize else psize.

(** The pointer after [n] pages, and the bytes those [n] pages take. *)
Fixpoint advance (n : nat) (psize : list Z) : list Z :=
  match n with
  | O => psize
  | S n' => advance n' (next_size psize)
  end.

Fixpoint span (n : nat) (psize : list Z) : Z :=
  match n with
  | O => 0
  | S n' => idx psize 0 + span n' (next_size psize)
  end.

(** ** Exchanges on the wire, as the specification words them *)

(** A wait that ends with ACK, without retries: BUSY bytes, then ACK. *)
Definition acked (evs : list event) : Prop :=
  exists k : nat,
    evs = repeat (EvRead 1 PORT_ERR_OK [STM32_BUSY]) k ++ [EvRead 1 PORT_ERR_OK [STM32_ACK]].

(** The command [c] is sent and acknowledged. *)
Definition sent_command (c : Z) (evs : list event) : Prop :=
  exists ack, evs = EvWrite [c; Z.lxor c 0xFF] PORT_ERR_OK :: ack /\ acked ack.

(** Resync: the invalid command [FF 00] is written until a NACK comes
    back; after a failed write the host sleeps half a second, and after
    every failed try it looks at the clock and goes on only before the
    deadline. *)
Inductive resync_tries (deadline : Z) : list event -> Prop :=
| resync_nack :
    resync_tries deadline
      [EvWrite [0xFF; 0x00] PORT_ERR_OK; EvRead 1 PORT_ERR_OK [STM32_NACK]]
| resync_write_failed e t1 evs :
    e <> PORT_ERR_OK -> t1 < deadline ->
    resync_tries deadline evs ->
    resync_tries deadline (EvWrite [0xFF; 0x00] e :: EvSleep 500000 :: EvTime t1 :: evs)
| resync_read_failed e t1 evs :
    e <> PORT_ERR_OK -> t1 < deadline ->
    resync_tries deadline evs ->
    resync_tries deadline
      (EvWrite [0xFF; 0x00] PORT_ERR_OK :: EvRead 1 e [] :: EvTime t1 :: evs)
| resync_other_byte b t1 evs :
    b <> STM32_NACK -> t1 < deadline ->
    resync_tries deadline evs ->
    resync_tries deadline
      (EvWrite [0xFF; 0x00] PORT_ERR_OK :: EvRead 1 PORT_ERR_OK [b] :: EvTime t1 :: evs).

Definition resynced (evs : list event) : Prop :=
  exists t0 tries,
    evs = EvTime t0 :: tries /\ resync_tries (t0 + STM32_RESYNC_TIMEOUT) tries.

(** ** Erasing in batches *)




(** ** The frames of a page erase, as the protocol table has them

    EraseLegacyPages is [(P-1), page0, ..., XOR] and EraseExtPages is
    [(P-1)_hi, (P-1)_lo, pg0_hi, pg0_lo, ..., XOR], for [P] pages. *)

(** The pages [spage], [spage + 1], ... of a range of [pages] pages. *)
Definition pages_from (spage pages : Z) : list Z := zseq spage (Z.to_nat pages).

Definition erase_legacy_pages (spage pages : Z) : list Z :=
  let body := (pages - 1) :: pages_from spage pages in
  body ++ [xor_all body].

(** A number in two bytes, high byte first. *)
Definition two_bytes (v : Z) : list Z := [v / 256; v mod 256].

Definition erase_ext_pages (spage pages : Z) : list Z :=
  let body := two_bytes (pages - 1) ++ flat_map two_bytes (pages_from spage pages) in
  body ++ [xor_all body].




(** The sample device with four pages of 1 KiB and no mass erase. *)
Definition sample_dev_no_me : stm32_dev_t :=
  {| id := 0x412; ram_start := 0x20000200; ram_end := 0x20002800;
     fl_start := 0x08000000; fl_end := 0x08001000; fl_pps := 4; fl_ps := [1024; 0];
     opt_start := 0x1FFFF800; opt_end := 0x1FFFF80F;
     mem_start := 0x1FFFF000; mem_end := 0x1FFFF800; dev_flags := 1 |}.

Definition no_me_session : stm32_t :=
  sample_stm (acking_port 0) sample_cmd sample_dev_no_me.









(** Frame ports (no capability flag) with scripted devices: one whose
    reply to the first read is late, and one whose reply has another
    length than the host guessed. *)
Definition late_reply_session : stm32_t :=
  sample_stm
    (scripted_port 0
       [(PORT_ERR_OK, [STM32_ACK]); (PORT_ERR_TIMEDOUT, []);
        (PORT_ERR_OK, [STM32_NACK]); (PORT_ERR_OK, [STM32_ACK]); (PORT_ERR_OK, [0x01]);
        (PORT_ERR_OK, [STM32_NACK]); (PORT_ERR_OK, [STM32_ACK]);
        (PORT_ERR_OK, [0x01; 0x04; 0x10])] [])
    sample_cmd sample_dev.

Definition wrong_guess_session : stm32_t :=
  sample_stm
    (scripted_port 0
       [(PORT_ERR_OK, [STM32_ACK]); (PORT_ERR_OK, [0x02; 0x01; 0x02; 0x03; 0x04; 0x05]);
        (PORT_ERR_OK, [STM32_NACK]); (PORT_ERR_OK, [STM32_ACK]);
        (PORT_ERR_OK, [0x02; 0x04; 0x10; 0x79])] [])
    sample_cmd sample_dev.

(** A device that acknowledges the command and then falls silent. *)
Definition silent_session : stm32_t :=
  sample_stm (scripted_port 0 [(PORT_ERR_OK, [STM32_ACK])] []) sample_cmd sample_dev.

(** ** CRC-32 with polynomial 0x04C11DB7, as the specification words it *)

(** The 32-bit little-endian word of four bytes of the stream: byte 0 is
    bits 0..7, byte 1 bits 8..15, byte 2 bits 16..23, byte 3 bits 24..31. *)
Definition le_word (b0 b1 b2 b3 : Z) : Z :=
  b0 + 256 * b1 + 65536 * b2 + 16777216 * b3.

Fixpoint le_words (n : nat) (buf : list Z) : list Z :=
  match n with
  | O => []
  | S n' =>
    le_word (idx buf 0) (idx buf 1) (idx buf 2) (idx buf 3) :: le_words n' (skipn 4 buf)
  end.

(** One message bit enters the 32-bit register: the register moves up
    by one bit, modulo 2^32, and the polynomial is added when the bit
    that left differs from the message bit. *)
Definition crc32_feed_bit (reg : Z) (bit : bool) : Z :=
  let shifted := (2 * reg) mod 4294967296 in
  if xorb (Z.testbit reg 31) bit then Z.lxor shifted 0x04C11DB7 else shifted.

(** The 32 bits of a word enter most significant bit first, as they
    are: no reflection of the input. *)
Definition crc32_feed_word (reg w : Z) : Z :=
  fold_left (fun c j => crc32_feed_bit c (Z.testbit w (31 - j))) (zseq 0 32) reg.

(** The register after all words is the CRC: no reflection and no final
    XOR of the output. *)
Definition crc32_msb_first (init : Z) (words : list Z) : Z :=
  fold_left crc32_feed_word words init.

(** A medium-density device, 128 pages of 1 KiB, and a device table. *)
Definition sample_dev_md : stm32_dev_t :=
  {| id := 0x410; ram_start := 0x20000200; ram_end := 0x20005000;
     fl_start := 0x08000000; fl_end := 0x08020000; fl_pps := 4; fl_ps := [1024; 0];
     opt_start := 0x1FFFF800; opt_end := 0x1FFFF80F;
     mem_start := 0x1FFFF000; mem_end := 0x1FFFF800; dev_flags := 0 |}.

Definition sample_devices : list stm32_dev_t :=
  [sample_dev; sample_dev_md; sample_dev_f4; null_dev].

(** The device of scenario S1 behind a byte port with the flags
    [PORT_BYTE], [PORT_GVR_ETX] and [PORT_CMD_INIT]. *)
Definition s1_port : port_interface :=
  scripted_port 7
    [(PORT_ERR_OK, [0x79]);
     (PORT_ERR_OK, [0x79]); (PORT_ERR_OK, [0x22; 0x00; 0x00]); (PORT_ERR_OK, [0x79]);
     (PORT_ERR_OK, [0x79]); (PORT_ERR_OK, [0x0B]);
     (PORT_ERR_OK, [0x22; 0x00; 0x01; 0x02; 0x11; 0x21; 0x31; 0x43; 0x63; 0x73; 0x82; 0x92]);
     (PORT_ERR_OK, [0x79]);
     (PORT_ERR_OK, [0x79]); (PORT_ERR_OK, [0x01]); (PORT_ERR_OK, [0x04; 0x10]);
     (PORT_ERR_OK, [0x79])] [].

(** ** A procedure on the wire, as the specification words it: steps
    taken in order, each only if the one before succeeded *)

Inductive step : Type :=
| StepResync
| StepSend (c : Z)
| StepRead (n : Z).

(** All steps succeeded, a step failed, or the fuel ran out. *)
Inductive outcome : Type :=
| Done
| Failed
| Cut.

(** One step: the events it adds to the history, and whether it
    succeeded. *)
Definition step_run `{port_h} `{libc} (fuel : nat) (stm : stm32_t) (s : step) (h : history)
  : option bool * list event :=
  match s with
  | StepResync =>
    let '(r, evs) := stm32_resync fuel stm h in
    (option_map (fun e => stm32_err_eqb e STM32_ERR_OK) r, evs)
  | StepSend c =>
    let '(r, evs) := stm32_send_command fuel stm c h in
    (option_map (fun e => stm32_err_eqb e STM32_ERR_OK) r, evs)
  | StepRead n =>
    let '(r, evs) := port_read (port stm) n h in
    (option_map (fun x => port_err_eqb (fst x) PORT_ERR_OK) r, evs)
  end.

Fixpoint perform `{port_h} `{libc} (fuel : nat) (stm : stm32_t) (steps : list step)
  (h : history) : outcome * list event :=
  match steps with
  | [] => (Done, [])
  | s :: steps' =>
    match step_run fuel stm s h with
    | (Some true, e1) =>
      let '(o, e2) := perform fuel stm steps' (h ++ e1) in (o, e1 ++ e2)
    | (Some false, e1) => (Failed, e1)
    | (None, e1) => (Cut, e1)
    end
  end.

(** What a procedure returns for an outcome of its steps: OK when all
    succeeded, UNKNOWN when one failed. *)
Definition result_is {A : Type} (r : option (stm32_err_t * A)) (o : outcome) : Prop :=
  match o with
  | Done => exists a, r = Some (STM32_ERR_OK, a)
  | Failed => exists a, r = Some (STM32_ERR_UNKNOWN, a)
  | Cut => r = None
  end.

(** * The rest of the engine

    The protection commands, GO, the reset stubs, the CRC command with its
    host-side fallback, and the part of the main program that turns the
    options into an address range and a page range. *)

Definition STM32_WUNPROT_TIMEOUT : Z := 1.
Definition STM32_WPROT_TIMEOUT : Z := 1.
Definition STM32_RPROT_TIMEOUT : Z := 1.

Definition stm_reset_code : list Z :=
  [0x01; 0x49; 0x02; 0x4A; 0x0A; 0x60; 0xfe; 0xe7;
   0x0c; 0xed; 0x00; 0xe0; 0x04; 0x00; 0xfa; 0x05].

Definition stm_reset_code_length : Z := Z.of_nat (length stm_reset_code).

Definition stm_obl_launch_code : list Z :=
  [0x01; 0x49; 0x02; 0x4A; 0x0A; 0x60; 0xfe; 0xe7;
   0x10; 0x20; 0x02; 0x40; 0x00; 0x20; 0x00; 0x00].

Definition stm_obl_launch_code_length : Z := Z.of_nat (length stm_obl_launch_code).

Definition stm_pempty_launch_code : list Z :=
  [0x08; 0x48; 0x00; 0x68; 0x01; 0x30; 0x41; 0x1e; 0x88; 0x41;
   0x07; 0x49; 0x07; 0x4a; 0x0b; 0x68; 0x13; 0x40; 0x5c; 0x1e; 0xa3; 0x41;
   0x98; 0x42; 0x00; 0xd1;
   0x0a; 0x60;
   0x04; 0x48; 0x05; 0x49; 0x01; 0x60;
   0xfe; 0xe7;
   0x00; 0x00; 0x00; 0x08;
   0x10; 0x20; 0x02; 0x40;
   0x00; 0x00; 0x02; 0x00;
   0x0c; 0xed; 0x00; 0xe0;
   0x04; 0x00; 0xfa; 0x05].

Definition stm_pempty_launch_code_length : Z := Z.of_nat (length stm_pempty_launch_code).

(** Modelled from the spec: [le_u32] is declared in utils.h, which is not
    among the sources.  [memcpy] from the value it returns stores the four
    bytes of its argument, least significant byte first. *)
Definition le_u32 (x : Z) : list Z :=
  [Z.land x 0xFF; Z.land (Z.shiftr x 8) 0xFF; Z.land (Z.shiftr x 16) 0xFF;
   Z.land (Z.shiftr x 24) 0xFF].

Section Commands.
Context `{port_h} `{stm32_h} `{libc}.

(** ** stm32.cpp: protection *)

Definition stm32_wunprot_memory (fuel : nat) (stm : stm32_t) : io stm32_err_t :=
  if uw (cmd stm) =? STM32_CMD_ERR then ret STM32_ERR_NO_CMD
  else
    s <- stm32_send_command fuel stm (uw (cmd stm)) ;;
    if negb (stm32_err_eqb s STM32_ERR_OK) then ret STM32_ERR_UNKNOWN
    else
      s_err <- stm32_get_ack_timeout fuel stm STM32_WUNPROT_TIMEOUT ;;
      if stm32_err_eqb s_err STM32_ERR_NACK then ret STM32_ERR_UNKNOWN
      else if negb (stm32_err_eqb s_err STM32_ERR_OK) then ret STM32_ERR_UNKNOWN
      else ret STM32_ERR_OK.

Definition stm32_wprot_memory (fuel : nat) (stm : stm32_t) : io stm32_err_t :=
  if wp (cmd stm) =? STM32_CMD_ERR then ret STM32_ERR_NO_CMD
  else
    s <- stm32_send_command fuel stm (wp (cmd stm)) ;;
    if negb (stm32_err_eqb s STM32_ERR_OK) then ret STM32_ERR_UNKNOWN
    else
      s_err <- stm32_get_ack_timeout fuel stm STM32_WPROT_TIMEOUT ;;
      if stm32_err_eqb s_err STM32_ERR_NACK then ret STM32_ERR_UNKNOWN
      else if negb (stm32_err_eqb s_err STM32_ERR_OK) then ret STM32_ERR_UNKNOWN
      else ret STM32_ERR_OK.

Definition stm32_runprot_memory (fuel : nat) (stm : stm32_t) : io stm32_err_t :=
  if ur (cmd stm) =? STM32_CMD_ERR then ret STM32_ERR_NO_CMD
  else
    s <- stm32_send_command fuel stm (ur (cmd stm)) ;;
    if negb (stm32_err_eqb s STM32_ERR_OK) then ret STM32_ERR_UNKNOWN
    else
      s_err <- stm32_get_ack_timeout fuel stm STM32_MASSERASE_TIMEOUT ;;
      if stm32_err_eqb s_err STM32_ERR_NACK then ret STM32_ERR_UNKNOWN
      else if negb (stm32_err_eqb s_err STM32_ERR_OK) then ret STM32_ERR_UNKNOWN
      else ret STM32_ERR_OK.

Definition stm32_readprot_memory (fuel : nat) (stm : stm32_t) : io stm32_err_t :=
  if rp (cmd stm) =? STM32_CMD_ERR then ret STM32_ERR_NO_CMD
  else
    s <- stm32_send_command fuel stm (rp (cmd stm)) ;;
    if negb (stm32_err_eqb s STM32_ERR_OK) then ret STM32_ERR_UNKNOWN
    else
      s_err <- stm32_get_ack_timeout fuel stm STM32_RPROT_TIMEOUT ;;
      if stm32_err_eqb s_err STM32_ERR_NACK then ret STM32_ERR_UNKNOWN
      else if negb (stm32_err_eqb s_err STM32_ERR_OK) then ret STM32_ERR_UNKNOWN
      else ret STM32_ERR_OK.

(** ** stm32.cpp: GO and the reset stubs *)

Definition stm32_go (fuel : nat) (stm : stm32_t) (address : Z) : io stm32_err_t :=
  let port := port stm in
  if go (cmd stm) =? STM32_CMD_ERR then ret STM32_ERR_NO_CMD
  else
    s <- stm32_send_command fuel stm (go (cmd stm)) ;;
    if negb (stm32_err_eqb s STM32_ERR_OK) then ret STM32_ERR_UNKNOWN
    else
      let buf := store_address address (repeat 0 5%nat) in
      p_err <- port_write port (firstn 5 buf) ;;
      if negb (port_err_eqb p_err PORT_ERR_OK) then ret STM32_ERR_UNKNOWN
      else
        s <- stm32_get_ack fuel stm ;;
        if negb (stm32_err_eqb s STM32_ERR_OK) then ret STM32_ERR_UNKNOWN
        else ret STM32_ERR_OK.

(** The [while (length > 0)] of [stm32_run_raw_code]; [pos] is the rest
    of [mem] at the pointer, [rounds] bounds the rounds, and the result
    says whether every block was written. *)
Fixpoint stm32_run_raw_code_loop (rounds fuel : nat) (stm : stm32_t)
  (address : Z) (pos : list Z) (length : Z) : io bool :=
  if length >? 0 then
    match rounds with
    | O => out_of_fuel
    | S rounds' =>
      let w := if length >? 256 then 256 else length in
      s <- stm32_write_memory fuel stm address pos w ;;
      if negb (stm32_err_eqb s STM32_ERR_OK) then ret false
      else
        stm32_run_raw_code_loop rounds' fuel stm
          (u32 (address + w)) (skipn (Z.to_nat w) pos) (u32 (length - w))
    end
  else ret true.

Definition stm32_run_raw_code (fuel : nat) (stm : stm32_t) (target_address : Z)
  (code : list Z) (code_size : Z) : io stm32_err_t :=
  let stack_le := le_u32 0x20002000 in
  let code_address_le := le_u32 (u32 (target_address + 8 + 1)) in
  let length := u32 (code_size + 8) in
  if negb (Z.land target_address 0x3 =? 0) then ret STM32_ERR_UNKNOWN
  else
    let mem := stack_le ++ code_address_le
               ++ map (idx code) (zseq 0 (Z.to_nat code_size)) in
    written <- stm32_run_raw_code_loop fuel fuel stm target_address mem length ;;
    if negb written then ret STM32_ERR_UNKNOWN
    else stm32_go fuel stm target_address.

Definition stm32_reset_device (fuel : nat) (stm : stm32_t) : io stm32_err_t :=
  let target_address := ram_start (dev stm) in
  if has_flag (dev_flags (dev stm)) F_OBLL then
    stm32_run_raw_code fuel stm target_address stm_obl_launch_code
      stm_obl_launch_code_length
  else if has_flag (dev_flags (dev stm)) F_PEMPTY then
    stm32_run_raw_code fuel stm target_address stm_pempty_launch_code
      stm_pempty_launch_code_length
  else
    stm32_run_raw_code fuel stm target_address stm_reset_code stm_reset_code_length.

(** ** stm32.cpp: CRC *)

(** [stm32_crc_memory]; the second component is [*crc] as the call
    leaves it, [crc0] being its value before the call. *)
Definition stm32_crc_memory (fuel : nat) (stm : stm32_t) (address length : Z) (crc0 : Z)
  : io (stm32_err_t * Z) :=
  let port := port stm in
  if negb (Z.land address 0x3 =? 0) || negb (Z.land length 0x3 =? 0)
  then ret (STM32_ERR_UNKNOWN, crc0)
  else if crc (cmd stm) =? STM32_CMD_ERR then ret (STM32_ERR_NO_CMD, crc0)
  else
    s <- stm32_send_command fuel stm (crc (cmd stm)) ;;
    if negb (stm32_err_eqb s STM32_ERR_OK) then ret (STM32_ERR_UNKNOWN, crc0)
    else
      let buf := store_address address (repeat 0 5%nat) in
      p_err <- port_write port (firstn 5 buf) ;;
      if negb (port_err_eqb p_err PORT_ERR_OK) then ret (STM32_ERR_UNKNOWN, crc0)
      else
        s <- stm32_get_ack fuel stm ;;
        if negb (stm32_err_eqb s STM32_ERR_OK) then ret (STM32_ERR_UNKNOWN, crc0)
        else
          let buf := store_address length buf in
          p_err <- port_write port (firstn 5 buf) ;;
          if negb (port_err_eqb p_err PORT_ERR_OK) then ret (STM32_ERR_UNKNOWN, crc0)
          else
            s <- stm32_get_ack fuel stm ;;
            if negb (stm32_err_eqb s STM32_ERR_OK) then ret (STM32_ERR_UNKNOWN, crc0)
            else
              s <- stm32_get_ack fuel stm ;;
              if negb (stm32_err_eqb s STM32_ERR_OK) then ret (STM32_ERR_UNKNOWN, crc0)
              else
                '(p_err, got) <- port_read port 5 ;;
                if negb (port_err_eqb p_err PORT_ERR_OK) then ret (STM32_ERR_UNKNOWN, crc0)
                else
                  let buf := blit buf 0 got in
                  if negb (idx buf 4 =?
                           Z.lxor (Z.lxor (Z.lxor (idx buf 0) (idx buf 1)) (idx buf 2))
                                  (idx buf 3))
                  then ret (STM32_ERR_UNKNOWN, crc0)
                  else
                    ret (STM32_ERR_OK,
                         u32 (Z.lor (Z.lor (Z.lor (Z.shiftl (idx buf 0) 24)
                                                  (Z.shiftl (idx buf 1) 16))
                                           (Z.shiftl (idx buf 2) 8))
                                    (idx buf 3))).

(** The [while (length)] of [stm32_crc_wrapper]: the state is
    [(address, length, current_crc, buf)]; the result says whether every
    block was read, and carries [current_crc]. *)
Fixpoint stm32_crc_wrapper_loop (rounds fuel : nat) (stm : stm32_t)
  (address length current_crc : Z) (buf : list Z) : io (bool * Z) :=
  if negb (length =? 0) then
    match rounds with
    | O => out_of_fuel
    | S rounds' =>
      let len := if length >? 256 then 256 else length in
      '(s, buf) <- stm32_read_memory fuel stm address buf len ;;
      if negb (stm32_err_eqb s STM32_ERR_OK) then ret (false, current_crc)
      else
        let current_crc := stm32_sw_crc current_crc buf len in
        stm32_crc_wrapper_loop rounds' fuel stm
          (u32 (address + len)) (u32 (length - len)) current_crc buf
    end
  else ret (true, current_crc).

(** [stm32_crc_wrapper]; the local [buf] starts as [buf0]. *)
Definition stm32_crc_wrapper (fuel : nat) (stm : stm32_t) (address length : Z) (crc0 : Z)
  (buf0 : list Z) : io (stm32_err_t * Z) :=
  if negb (Z.land address 0x3 =? 0) || negb (Z.land length 0x3 =? 0)
  then ret (STM32_ERR_UNKNOWN, crc0)
  else if negb (crc (cmd stm) =? STM32_CMD_ERR)
  then stm32_crc_memory fuel stm address length crc0
  else
    '(done, current_crc) <-
      stm32_crc_wrapper_loop fuel fuel stm address length CRC_INIT_VALUE buf0 ;;
    if negb done then ret (STM32_ERR_UNKNOWN, crc0)
    else ret (STM32_ERR_OK, current_crc).

(** ** Main part: from the options to the ranges *)

Definition is_addr_in_ram (d : stm32_dev_t) (addr : Z) : bool :=
  (addr >=? ram_start d) && (addr <? ram_end d).

Definition is_addr_in_opt_bytes (d : stm32_dev_t) (addr : Z) : bool :=
  (addr >=? opt_start d) && (addr <=? opt_end d).

Definition is_addr_in_sysmem (d : stm32_dev_t) (addr : Z) : bool :=
  (addr >=? mem_start d) && (addr <? mem_end d).

(** The locals [start], [end], [first_page] and [num_pages] of
    [stm32main], and the global [no_erase]. *)
Record ranges : Type := {
  start : Z;
  end_ : Z;
  first_page : Z;
  num_pages : Z;
  no_erase : Z
}.

(** The block of [stm32main] that cleans up the addresses.  The outer
    [None] is a page walk cut short by lack of fuel, the inner one the
    [goto close] of an address range that exceeds the flash. *)
Definition cleanup_addresses (fuel : nat) (d : stm32_dev_t)
  (start_addr readwrite_len spage npages no_erase : Z) : option (option ranges) :=
  if negb (start_addr =? 0) || negb (readwrite_len =? 0) then
    let start := start_addr in
    let '(end_, no_erase) :=
      if is_addr_in_flash d start then (fl_end d, no_erase)
      else
        (if is_addr_in_ram d start then ram_end d
         else if is_addr_in_opt_bytes d start then u32 (opt_end d + 1)
         else if is_addr_in_sysmem d start then mem_end d
         else if negb (readwrite_len =? 0) then u32 (start + readwrite_len)
         else u32 (start + 4),
         1) in
    let end_ :=
      if negb (readwrite_len =? 0) && (end_ >? u32 (start + readwrite_len))
      then u32 (start + readwrite_len) else end_ in
    match flash_addr_to_page_floor fuel d start with
    | None => None
    | Some first_page =>
      if (first_page =? 0) && (end_ =? fl_end d) then
        Some (Some {| start := start; end_ := end_; first_page := first_page;
                      num_pages := STM32_MASS_ERASE; no_erase := no_erase |})
      else
        match flash_addr_to_page_ceil fuel d end_ with
        | None => None
        | Some last =>
          Some (Some {| start := start; end_ := end_; first_page := first_page;
                        num_pages := s32 (last - first_page); no_erase := no_erase |})
        end
    end
  else if (spage =? 0) && (npages =? 0) then
    Some (Some {| start := fl_start d; end_ := fl_end d; first_page := 0;
                  num_pages := STM32_MASS_ERASE; no_erase := no_erase |})
  else
    let first_page := spage in
    let start := flash_page_to_addr d first_page in
    if start >? fl_end d then Some None
    else
      match
        (if negb (npages =? 0) then
           let num_pages := npages in
           let end_ := flash_page_to_addr d (s32 (first_page + num_pages)) in
           let end_ := if end_ >? fl_end d then fl_end d else end_ in
           Some (num_pages, end_)
         else
           let end_ := fl_end d in
           match flash_addr_to_page_ceil fuel d end_ with
           | None => None
           | Some last => Some (s32 (last - first_page), end_)
           end)
      with
      | None => None
      | Some (num_pages, end_) =>
        let num_pages :=
          if (first_page =? 0) && (end_ =? fl_end d) then STM32_MASS_ERASE
          else num_pages in
        Some (Some {| start := start; end_ := end_; first_page := first_page;
                      num_pages := num_pages; no_erase := no_erase |})
      end.

End Commands.

(** ** The four protection commands as one family *)

Inductive protection : Type :=
| WRITE_UNPROTECT
| WRITE_PROTECT
| READ_UNPROTECT
| READ_PROTECT.

(** The entry of the command map that a protection command consults. *)
Definition protection_slot (p : protection) (c : stm32_cmd) : Z :=
  match p with
  | WRITE_UNPROTECT => uw c
  | WRITE_PROTECT => wp c
  | READ_UNPROTECT => ur c
  | READ_PROTECT => rp c
  end.

Definition protection_timeout (p : protection) : Z :=
  match p with
  | WRITE_UNPROTECT => STM32_WUNPROT_TIMEOUT
  | WRITE_PROTECT => STM32_WPROT_TIMEOUT
  | READ_UNPROTECT => STM32_MASSERASE_TIMEOUT
  | READ_PROTECT => STM32_RPROT_TIMEOUT
  end.

Definition protection_run `{port_h} `{libc} (p : protection) (fuel : nat) (stm : stm32_t)
  : io stm32_err_t :=
  match p with
  | WRITE_UNPROTECT => stm32_wunprot_memory fuel stm
  | WRITE_PROTECT => stm32_wprot_memory fuel stm
  | READ_UNPROTECT => stm32_runprot_memory fuel stm
  | READ_PROTECT => stm32_readprot_memory fuel stm
  end.

(** What the four functions have in common once the opcode [c] is known
    to be supported. *)
Definition protection_exchange `{port_h} `{libc} (fuel : nat) (stm : stm32_t) (c timeout : Z)
  : io stm32_err_t :=
  s <- stm32_send_command fuel stm c ;;
  if negb (stm32_err_eqb s STM32_ERR_OK) then ret STM32_ERR_UNKNOWN
  else
    s_err <- stm32_get_ack_timeout fuel stm timeout ;;
    if stm32_err_eqb s_err STM32_ERR_NACK then ret STM32_ERR_UNKNOWN
    else if negb (stm32_err_eqb s_err STM32_ERR_OK) then ret STM32_ERR_UNKNOWN
    else ret STM32_ERR_OK.

(** ** The bytes of the blocks read, for the host-side CRC *)

(** The bytes that the successful reads of more than one byte brought
    in, in order: the reads of one byte are acknowledgements. *)
Fixpoint block_reads (evs : list event) : list Z :=
  match evs with
  | [] => []
  | EvRead n PORT_ERR_OK got :: evs' =>
    (if n =? 1 then [] else got) ++ block_reads evs'
  | _ :: evs' => block_reads evs'
  end.

(** ** The command map of a session *)

(** Every entry of the command map is the sentinel or an opcode of its
    kind. *)
Definition cmd_known (c : stm32_cmd) : Prop :=
  (get c = STM32_CMD_ERR \/ get c = STM32_CMD_GET) /\
  (gvr c = STM32_CMD_ERR \/ gvr c = STM32_CMD_GVR) /\
  (gid c = STM32_CMD_ERR \/ gid c = STM32_CMD_GID) /\
  (rm c = STM32_CMD_ERR \/ rm c = STM32_CMD_RM) /\
  (go c = STM32_CMD_ERR \/ go c = STM32_CMD_GO) /\
  (forall k : dual_kind, slot k c = STM32_CMD_ERR \/ In (slot k c) (opcodes k)).

(** ** What a run of Resync looks like, whatever its end *)

Definition resync_outcome (deadline t1 : Z) (fuel : nat) (r : option stm32_err_t)
  (evs : list event) : Prop :=
  Forall (fun b => b = [0xFF; 0x00]) (writes evs) /\
  (r = None \/ r = Some STM32_ERR_OK \/ r = Some STM32_ERR_UNKNOWN) /\
  (r = Some STM32_ERR_OK ->
     exists pre, evs = pre ++ [EvWrite [0xFF; 0x00] PORT_ERR_OK;
                               EvRead 1 PORT_ERR_OK [STM32_NACK]]) /\
  (r = Some STM32_ERR_UNKNOWN ->
     (evs = [] /\ deadline <= t1) \/
     (exists pre t, evs = pre ++ [EvTime t] /\ deadline <= t)) /\
  (r = None -> length (writes evs) = fuel).

(** ** More sample sessions *)

(** A device with the CRC command that answers a CRC request with the
    value 0x12345678. *)
Definition crc_session : stm32_t :=
  sample_stm
    (scripted_port 0
       [(PORT_ERR_OK, [STM32_ACK]); (PORT_ERR_OK, [STM32_ACK]); (PORT_ERR_OK, [STM32_ACK]);
        (PORT_ERR_OK, [STM32_ACK]); (PORT_ERR_OK, [0x12; 0x34; 0x56; 0x78; 0x08])] [])
    {| get := 0x00; gvr := 0x01; gid := 0x02; rm := 0x11; go := 0x21; wm := 0x31;
       er := 0x44; wp := 0x63; uw := 0x73; rp := 0x82; ur := 0x92; crc := 0xA1 |}
    sample_dev.

(** A byte port whose device answers GET ID with the identifier 0x410. *)
Definition byte_session : stm32_t :=
  sample_stm
    (scripted_port 1
       [(PORT_ERR_OK, [STM32_ACK]); (PORT_ERR_OK, [0x01]); (PORT_ERR_OK, [0x04; 0x10])] [])
    sample_cmd sample_dev.

(** The session of scenario S1. *)
Definition s1_session : stm32_t :=
  {| port := s1_port; bl_version := 0x22; version := 0x22; option1 := 0; option2 := 0;
     pid := 0x410;
     cmd := {| get := 0x00; gvr := 0x01; gid := 0x02; rm := 0x11; go := 0x21; wm := 0x31;
               er := 0x43; wp := 0x63; uw := 0x73; rp := 0x82; ur := 0x92;
               crc := STM32_CMD_ERR |};
     dev := sample_dev_md |}.
(** * Properties *)

(** ** Integers, arrays and counted loops *)

Lemma u8_small (x : Z) : 0 <= x < 256 -> u8 x = x.
Proof. intros Hx. unfold u8. apply Z.mod_small. exact Hx. Qed.

Lemma u32_small (x : Z) : 0 <= x < 4294967296 -> u32 x = x.
Proof. intros Hx. unfold u32. apply Z.mod_small. exact Hx. Qed.

Lemma s32_small (x : Z) : -2147483648 <= x < 2147483648 -> s32 x = x.
Proof. intros Hx. unfold s32. rewrite Z.mod_small; lia. Qed.

Lemma length_upd_nat (i : nat) (v : Z) (a : list Z) : length (upd_nat i v a) = length a.
Proof.
  revert i. induction a as [|x a IH]; intros [|i]; simpl; auto.
Qed.

Lemma length_upd (i v : Z) (a : list Z) : length (upd i v a) = length a.
Proof. apply length_upd_nat. Qed.

Lemma nth_upd_nat_eq (i : nat) (v : Z) (a : list Z) :
  (i < length a)%nat -> nth i (upd_nat i v a) 0 = v.
Proof.
  revert i. induction a as [|x a IH]; intros [|i] Hi; simpl in *; try lia; auto.
  apply IH. lia.
Qed.

Lemma nth_upd_nat_neq (i j : nat) (v : Z) (a : list Z) :
  i <> j -> nth j (upd_nat i v a) 0 = nth j a 0.
Proof.
  revert i j. induction a as [|x a IH]; intros [|i] [|j] Hij; simpl; auto; try lia.
Qed.

Lemma idx_upd_eq (i v : Z) (a : list Z) :
  0 <= i < Z.of_nat (length a) -> idx (upd i v a) i = v.
Proof. intros Hi. unfold idx, upd. apply nth_upd_nat_eq. lia. Qed.

Lemma idx_upd_neq (i j v : Z) (a : list Z) :
  0 <= i -> 0 <= j -> i <> j -> idx (upd i v a) j = idx a j.
Proof. intros Hi Hj Hij. unfold idx, upd. apply nth_upd_nat_neq. lia. Qed.

Lemma firstn_upd_nat_ge (n i : nat) (v : Z) (a : list Z) :
  (n <= i)%nat -> firstn n (upd_nat i v a) = firstn n a.
Proof.
  revert n i. induction a as [|x a IH]; intros [|n] [|i] Hn; simpl; auto; try lia.
  f_equal. apply IH. lia.
Qed.

Lemma firstn_upd_nat_snoc (i : nat) (v : Z) (a : list Z) :
  (i < length a)%nat -> firstn (S i) (upd_nat i v a) = firstn i a ++ [v].
Proof.
  revert i. induction a as [|x a IH]; intros [|i] Hi; simpl in *; try lia; auto.
  f_equal. apply IH. lia.
Qed.

Lemma idx_firstn (n : nat) (a : list Z) (j : Z) :
  0 <= j < Z.of_nat n -> idx (firstn n a) j = idx a j.
Proof.
  intros Hj. unfold idx.
  assert (Hlt : (Z.to_nat j < n)%nat) by lia.
  revert Hlt. generalize (Z.to_nat j) as k. clear Hj. revert a.
  induction n as [|n IH]; intros a k Hk; [lia|].
  destruct a as [|x a]; destruct k as [|k]; simpl; auto.
  apply IH. lia.
Qed.

Lemma for_range_plus {St : Type} (n m : nat) (i : Z) (body : Z -> St -> St) (s : St) :
  for_range (n + m) i body s = for_range m (i + Z.of_nat n) body (for_range n i body s).
Proof.
  revert i s. induction n as [|n IH]; intros i s.
  - simpl. f_equal. lia.
  - cbn [Nat.add for_range]. rewrite IH. f_equal. lia.
Qed.

(** A counted loop whose body reads only its index is a left fold over
    the indices. *)
Lemma for_range_fold {St : Type} (n : nat) (i : Z) (body : Z -> St -> St) (s : St) :
  for_range n i body s = fold_left (fun s i => body i s) (zseq i n) s.
Proof.
  revert i s. induction n as [|n IH]; intros i s; simpl; auto.
Qed.

Lemma in_zseq (lo : Z) (n : nat) (x : Z) :
  In x (zseq lo n) <-> lo <= x < lo + Z.of_nat n.
Proof.
  revert lo. induction n as [|n IH]; intros lo; simpl.
  - lia.
  - rewrite IH. lia.
Qed.

(** ** The monad *)

Lemma bind_some {A B : Type} (m : io A) (k : A -> io B) h a e1 :
  m h = (Some a, e1) ->
  bind m k h = (fst (k a (h ++ e1)), e1 ++ snd (k a (h ++ e1))).
Proof. intros Hm. unfold bind. rewrite Hm. destruct (k a (h ++ e1)); reflexivity. Qed.

Lemma bind_none {A B : Type} (m : io A) (k : A -> io B) h e1 :
  m h = (None, e1) -> bind m k h = (None, e1).
Proof. intros Hm. unfold bind. rewrite Hm. reflexivity. Qed.

Lemma bind_inv {A B : Type} (m : io A) (k : A -> io B) h r evs :
  bind m k h = (r, evs) ->
  (exists a e1 e2, m h = (Some a, e1) /\ k a (h ++ e1) = (r, e2) /\ evs = e1 ++ e2)
  \/ (m h = (None, evs) /\ r = None).
Proof.
  unfold bind. destruct (m h) as [[a|] e1].
  - destruct (k a (h ++ e1)) as [r2 e2] eqn:Hk. intros Heq. inversion Heq. subst.
    left. exists a, e1, e2. auto.
  - intros Heq. inversion Heq. subst. right. auto.
Qed.

Lemma ret_inv {A : Type} (a : A) (h : history) r evs :
  ret a h = (r, evs) -> r = Some a /\ evs = [].
Proof. unfold ret. intros Heq. inversion Heq. auto. Qed.

Lemma port_read_inv (port : port_interface) (n : Z) (h : history) r evs :
  port_read port n h = (r, evs) ->
  exists e got, r = Some (e, got) /\ evs = [EvRead n e got] /\
                (e = PORT_ERR_OK -> length got = Z.to_nat n) /\
                (e <> PORT_ERR_OK -> got = []).
Proof.
  unfold port_read. destruct (read port h n) as [e bs]. intros Heq. inversion Heq.
  eexists _, _. split; [reflexivity|]. split; [reflexivity|]. split.
  - intros ->. unfold fit. rewrite length_firstn, length_app, length_map, repeat_length. lia.
  - intros Hne. destruct e; [contradiction | reflexivity ..].
Qed.

Lemma port_write_inv (port : port_interface) (buf : list Z) (h : history) r evs :
  port_write port buf h = (r, evs) ->
  exists e, r = Some e /\ evs = [EvWrite buf e].
Proof. unfold port_write. intros Heq. inversion Heq. eauto. Qed.

Lemma writes_app (e1 e2 : list event) : writes (e1 ++ e2) = writes e1 ++ writes e2.
Proof.
  induction e1 as [|[b r|n r g|t|u] e1 IH]; simpl; auto. rewrite IH. reflexivity.
Qed.

Lemma reads_app (e1 e2 : list event) : reads (e1 ++ e2) = reads e1 ++ reads e2.
Proof.
  induction e1 as [|[b r|n r g|t|u] e1 IH]; simpl; auto. rewrite IH. reflexivity.
Qed.

Lemma fit_one (bs : list Z) : fit 1 bs = [idx (fit 1 bs) 0].
Proof. unfold fit. destruct bs as [|b bs]; reflexivity. Qed.

Lemma port_err_eqb_eq (a b : port_err_t) : port_err_eqb a b = true <-> a = b.
Proof. destruct a, b; simpl; split; intros Hab; try reflexivity; discriminate. Qed.

Lemma stm32_err_eqb_eq (a b : stm32_err_t) : stm32_err_eqb a b = true <-> a = b.
Proof. destruct a, b; simpl; split; intros Hab; try reflexivity; discriminate. Qed.

(** ** Waiting for an acknowledgement *)

Section Ack.
Context `{port_h} `{libc}.

(** The loop of [stm32_get_ack_timeout] runs as [ack_run] describes. *)
Lemma stm32_get_ack_loop_run (fuel : nat) (port : port_interface) (timeout t0 : Z) :
  forall h,
    ack_run (negb (timeout =? 0)) (t0 + timeout) fuel
      (snd (stm32_get_ack_loop fuel port timeout t0 h))
      (fst (stm32_get_ack_loop fuel port timeout t0 h)).
Proof.
  induction fuel as [|fuel IH]; intros h.
  - simpl. constructor.
  - cbn [stm32_get_ack_loop]. unfold bind, port_read, ret, time.
    destruct (read port h 1) as [e bs].
    destruct e; cbn [port_err_eqb andb negb app fst snd].
    + (* a byte arrived *)
      rewrite (fit_one bs). set (b := idx (fit 1 bs) 0).
      change (idx [b] 0) with b.
      destruct (Z.eqb_spec b STM32_ACK) as [Hack|Hack].
      { rewrite Hack. simpl. constructor. }
      destruct (Z.eqb_spec b STM32_NACK) as [Hnack|Hnack].
      { rewrite Hnack. simpl. constructor. }
      destruct (Z.eqb_spec b STM32_BUSY) as [Hbusy|Hbusy]; cbn [negb].
      * rewrite Hbusy.
        match goal with
        | |- context [stm32_get_ack_loop fuel port timeout t0 ?hh] =>
          pose proof (IH hh) as IH';
          destruct (stm32_get_ack_loop fuel port timeout t0 hh) as [r evs]
        end.
        simpl in *. constructor. exact IH'.
      * simpl. constructor; assumption.
    + (* a timeout *)
      destruct (timeout =? 0) eqn:Hto; cbn [negb].
      * simpl. constructor; [discriminate | reflexivity].
      * set (t1 := time_at _).
        destruct (t1 <? t0 + timeout) eqn:Hlt.
        -- match goal with
           | |- context [stm32_get_ack_loop fuel port timeout t0 ?hh] =>
             pose proof (IH hh) as IH';
             destruct (stm32_get_ack_loop fuel port timeout t0 hh) as [r evs]
           end.
           simpl in *. apply Z.ltb_lt in Hlt. constructor; auto.
        -- simpl. apply Z.ltb_ge in Hlt. constructor; [reflexivity | lia].
    + simpl. constructor; [discriminate | discriminate].
Qed.

Lemma ack_run_deadline_irrelevant (d d' : Z) fuel evs r :
  ack_run false d fuel evs r -> ack_run false d' fuel evs r.
Proof.
  induction 1; try (constructor; assumption); discriminate.
Qed.

Lemma stm32_get_ack_timeout_run (fuel : nat) (stm : stm32_t) (timeout : Z) (h : history) :
  let run := stm32_get_ack_timeout fuel stm timeout h in
  let retrying := has_flag (flags (port stm)) PORT_RETRY && negb (timeout =? 0) in
  exists t0 evs,
    snd run = (if retrying then [EvTime t0] else []) ++ evs /\
    ack_run retrying (t0 + timeout) fuel evs (fst run).
Proof.
  cbv zeta. unfold stm32_get_ack_timeout.
  destruct (has_flag (flags (port stm)) PORT_RETRY); cbn [negb andb].
  - destruct (timeout =? 0) eqn:Hto; cbn [negb].
    + unfold bind, ret. cbn [app].
      pose proof (stm32_get_ack_loop_run fuel (port stm) timeout 0 (h ++ [])) as Hrun.
      rewrite Hto in Hrun. cbn [negb] in Hrun.
      destruct (stm32_get_ack_loop fuel (port stm) timeout 0 (h ++ [])) as [r evs].
      exists 0, evs. split; [reflexivity | exact Hrun].
    + unfold bind, time. set (t0 := time_at h).
      pose proof (stm32_get_ack_loop_run fuel (port stm) timeout t0 (h ++ [EvTime t0])) as Hrun.
      rewrite Hto in Hrun. cbn [negb] in Hrun.
      destruct (stm32_get_ack_loop fuel (port stm) timeout t0 (h ++ [EvTime t0])) as [r evs].
      exists t0, evs. split; [reflexivity | exact Hrun].
  - unfold bind, ret. cbn [Z.eqb negb app].
    pose proof (stm32_get_ack_loop_run fuel (port stm) 0 0 (h ++ [])) as Hrun.
    cbn [Z.eqb negb] in Hrun.
    destruct (stm32_get_ack_loop fuel (port stm) 0 0 (h ++ [])) as [r evs].
    exists 0, evs. split; [reflexivity |].
    apply (ack_run_deadline_irrelevant (0 + 0)). exact Hrun.
Qed.

End Ack.

Lemma ack_run_head retrying d fuel evs r :
  ack_run retrying d fuel evs r ->
  (evs = [] /\ r = None) \/ (exists e got rest, evs = EvRead 1 e got :: rest).
Proof.
  destruct 1; [left; auto | right; eauto ..].
Qed.

Lemma ack_run_writes retrying d fuel evs r :
  ack_run retrying d fuel evs r -> writes evs = [].
Proof. induction 1; simpl; auto. Qed.

Ltac finish_result :=
  repeat split; intros;
  repeat match goal with
         | Hs : Some _ = Some _ |- _ => inversion Hs; clear Hs; subst
         end;
  try discriminate; try congruence.

(** What the wait returns is decided by the first byte that is not BUSY. *)
Lemma ack_run_result retrying d fuel evs r :
  ack_run retrying d fuel evs r ->
  forall res, r = Some res ->
    (res = STM32_ERR_OK <-> first_non_busy evs = Some STM32_ACK) /\
    (res = STM32_ERR_NACK <-> first_non_busy evs = Some STM32_NACK) /\
    (forall b, first_non_busy evs = Some b -> b <> STM32_ACK -> b <> STM32_NACK ->
               res = STM32_ERR_UNKNOWN) /\
    (first_non_busy evs = None -> res = STM32_ERR_UNKNOWN).
Proof.
  induction 1 as [ | fuel | fuel | fuel b Ha Hn Hb | fuel evs r Hrun IH
                 | fuel e He Hto | fuel t1 evs r Hrt Hlt Hrun IH | fuel t1 Hrt Hge ];
    intros res Hres; try discriminate.
  - inversion Hres; subst. cbn. finish_result.
  - inversion Hres; subst. cbn. finish_result.
  - inversion Hres; subst. cbn [first_non_busy]. change (idx [b] 0) with b.
    apply Z.eqb_neq in Hb. rewrite Hb. finish_result.
  - cbn [first_non_busy]. change (idx [STM32_BUSY] 0 =? STM32_BUSY) with true.
    cbv iota. apply IH. exact Hres.
  - inversion Hres; subst.
    assert (Hf : first_non_busy [EvRead 1 e []] = None)
      by (destruct e; [congruence | reflexivity ..]).
    rewrite Hf. finish_result.
  - cbn [first_non_busy]. apply IH. exact Hres.
  - inversion Hres; subst. cbn. finish_result.
Qed.

(** A transport error that is not a retried timeout ends the wait with
    [STM32_ERR_UNKNOWN]. *)
Lemma ack_run_error retrying d fuel evs r :
  ack_run retrying d fuel evs r ->
  forall pre n e got post,
    evs = pre ++ EvRead n e got :: post ->
    e <> PORT_ERR_OK -> (e <> PORT_ERR_TIMEDOUT \/ retrying = false) ->
    post = [] /\ r = Some STM32_ERR_UNKNOWN.
Proof.
  induction 1 as [ | fuel | fuel | fuel b Ha Hn Hb | fuel evs r Hrun IH
                 | fuel e0 He Hto | fuel t1 evs r Hrt Hlt Hrun IH | fuel t1 Hrt Hge ];
    intros pre n e got post Heq Hne Hcase.
  - destruct pre; discriminate.
  - destruct pre as [|x [|y pre]]; inversion Heq; subst; congruence.
  - destruct pre as [|x [|y pre]]; inversion Heq; subst; congruence.
  - destruct pre as [|x [|y pre]]; inversion Heq; subst; congruence.
  - destruct pre as [|x pre]; inversion Heq; subst; [congruence|].
    eapply IH; eauto.
  - destruct pre as [|x [|y pre]]; inversion Heq; subst; auto.
  - destruct pre as [|x [|y pre]]; inversion Heq; subst.
    + destruct Hcase; congruence.
    + eapply IH; eauto.
  - destruct pre as [|x [|y [|z pre]]]; inversion Heq; subst.
    destruct Hcase; congruence.
Qed.

(** When timeouts are retried, each one is followed by a look at the
    clock; before the deadline the wait reads again, at or after the
    deadline it ends with [STM32_ERR_UNKNOWN]. *)
Lemma ack_run_timeout d fuel evs r :
  ack_run true d fuel evs r ->
  forall pre n got post,
    evs = pre ++ EvRead n PORT_ERR_TIMEDOUT got :: post ->
    exists t1 post',
      post = EvTime t1 :: post' /\
      (t1 < d ->
         (exists e' got' rest, post' = EvRead 1 e' got' :: rest) \/ (post' = [] /\ r = None)) /\
      (~ t1 < d -> post' = [] /\ r = Some STM32_ERR_UNKNOWN).
Proof.
  induction 1 as [ | fuel | fuel | fuel b Ha Hn Hb | fuel evs r Hrun IH
                 | fuel e0 He Hto | fuel t1 evs r Hrt Hlt Hrun IH | fuel t1 Hrt Hge ];
    intros pre n got post Heq.
  - destruct pre; discriminate.
  - destruct pre as [|x [|y pre]]; inversion Heq.
  - destruct pre as [|x [|y pre]]; inversion Heq.
  - destruct pre as [|x [|y pre]]; inversion Heq.
  - destruct pre as [|x pre]; inversion Heq; subst. eapply IH; eauto.
  - destruct pre as [|x [|y pre]]; inversion Heq; subst.
    specialize (Hto eq_refl). discriminate.
  - destruct pre as [|x [|y pre]]; inversion Heq; subst.
    + exists t1, evs. split; [reflexivity|]. split; [|intros; lia].
      intros _. destruct (ack_run_head _ _ _ _ _ Hrun) as [[-> ->]|Hex]; auto.
    + eapply IH; eauto.
  - destruct pre as [|x [|y [|z pre]]]; inversion Heq; subst.
    exists t1, []. split; [reflexivity|]. split; [intros; lia | auto].
Qed.

(** The wait runs out of fuel only when every read it made was a BUSY
    byte or a retried timeout. *)
Lemma ack_run_none retrying d fuel evs r :
  ack_run retrying d fuel evs r ->
  r = None ->
  length (reads evs) = fuel /\ Forall (keeps_waiting retrying) (reads evs).
Proof.
  induction 1 as [ | fuel | fuel | fuel b Ha Hn Hb | fuel evs r Hrun IH
                 | fuel e0 He Hto | fuel t1 evs r Hrt Hlt Hrun IH | fuel t1 Hrt Hge ];
    intros Hr; try discriminate.
  - simpl. auto.
  - destruct (IH Hr) as [Hlen Hall]. simpl. split; [congruence|].
    constructor; [left; auto | exact Hall].
  - destruct (IH Hr) as [Hlen Hall]. simpl. split; [congruence|].
    constructor; [right; auto | exact Hall].
Qed.

(** A BUSY byte never ends the wait: another read follows it, unless
    the fuel is used up. *)
Lemma ack_run_busy retrying d fuel evs r :
  ack_run retrying d fuel evs r ->
  forall pre n post,
    evs = pre ++ EvRead n PORT_ERR_OK [STM32_BUSY] :: post ->
    (exists e' got' rest, post = EvRead 1 e' got' :: rest) \/ (post = [] /\ r = None).
Proof.
  induction 1 as [ | fuel | fuel | fuel b Ha Hn Hb | fuel evs r Hrun IH
                 | fuel e0 He Hto | fuel t1 evs r Hrt Hlt Hrun IH | fuel t1 Hrt Hge ];
    intros pre n post Heq.
  - destruct pre; discriminate.
  - destruct pre as [|x [|y pre]]; inversion Heq.
  - destruct pre as [|x [|y pre]]; inversion Heq.
  - destruct pre as [|x [|y pre]]; inversion Heq; subst. contradiction.
  - destruct pre as [|x pre]; inversion Heq; subst.
    + destruct (ack_run_head _ _ _ _ _ Hrun) as [[-> ->]|Hex]; auto.
    + eapply IH; eauto.
  - destruct pre as [|x [|y pre]]; inversion Heq.
  - destruct pre as [|x [|y pre]]; inversion Heq; subst. eapply IH; eauto.
  - destruct pre as [|x [|y [|z pre]]]; inversion Heq.
Qed.

(** A byte other than BUSY is the last event of the wait. *)
Lemma ack_run_terminal retrying d fuel evs r :
  ack_run retrying d fuel evs r ->
  forall pre n got post,
    evs = pre ++ EvRead n PORT_ERR_OK got :: post ->
    idx got 0 <> STM32_BUSY -> post = [].
Proof.
  induction 1 as [ | fuel | fuel | fuel b Ha Hn Hb | fuel evs r Hrun IH
                 | fuel e0 He Hto | fuel t1 evs r Hrt Hlt Hrun IH | fuel t1 Hrt Hge ];
    intros pre n got post Heq Hnb.
  - destruct pre; discriminate.
  - destruct pre as [|x [|y pre]]; inversion Heq; reflexivity.
  - destruct pre as [|x [|y pre]]; inversion Heq; reflexivity.
  - destruct pre as [|x [|y pre]]; inversion Heq; reflexivity.
  - destruct pre as [|x pre]; inversion Heq; subst.
    + exfalso. apply Hnb. reflexivity.
    + eapply IH; eauto.
  - destruct pre as [|x [|y pre]]; inversion Heq; reflexivity.
  - destruct pre as [|x [|y pre]]; inversion Heq; subst. eapply IH; eauto.
  - destruct pre as [|x [|y [|z pre]]]; inversion Heq.
Qed.

(** With fuel for one read at least, the wait starts with a read. *)
Lemma ack_run_starts retrying d fuel evs r :
  ack_run retrying d fuel evs r -> fuel <> O ->
  exists e got rest, evs = EvRead 1 e got :: rest.
Proof.
  destruct 1; intros Hf; [contradiction | eauto ..].
Qed.

(** C4: [stm32_get_ack_timeout] returns OK exactly when the first byte
    read that is not BUSY (0x76) is ACK (0x79), NACK exactly when it is
    NACK (0x1F), and UNKNOWN when it is any other byte or when no such
    byte was read because of a transport error.  A read error other than
    a retried timeout is the last event of the call and makes it UNKNOWN;
    timeouts are retried only if the caller gave a timeout other than
    zero and the port has [PORT_RETRY], and then each timeout is followed
    by a look at the clock: before the deadline [t0 + timeout] the call
    reads again, from the deadline on it returns UNKNOWN.  The call can
    only fail to return within [fuel] reads if every one of them was a
    BUSY byte or a retried timeout.  A BUSY byte is always followed by
    another read, a byte other than BUSY is the last event of the call,
    the call starts with a read (after the look at the clock that sets
    the deadline, when timeouts are retried), writes nothing, and its
    events and result are those of [ack_run]. *)
Theorem stm32_get_ack_timeout_spec `{port_h} `{libc} :
  forall (fuel : nat) (stm : stm32_t) (timeout : Z) (h : history),
    let run := stm32_get_ack_timeout fuel stm timeout h in
    let evs := snd run in
    let retrying := has_flag (flags (port stm)) PORT_RETRY && negb (timeout =? 0) in
    (forall res, fst run = Some res ->
       (res = STM32_ERR_OK <-> first_non_busy evs = Some STM32_ACK) /\
       (res = STM32_ERR_NACK <-> first_non_busy evs = Some STM32_NACK) /\
       (forall b, first_non_busy evs = Some b -> b <> STM32_ACK -> b <> STM32_NACK ->
                  res = STM32_ERR_UNKNOWN) /\
       (first_non_busy evs = None -> res = STM32_ERR_UNKNOWN)) /\
    (forall pre n e got post,
       evs = pre ++ EvRead n e got :: post ->
       e <> PORT_ERR_OK -> (e <> PORT_ERR_TIMEDOUT \/ retrying = false) ->
       post = [] /\ fst run = Some STM32_ERR_UNKNOWN) /\
    (retrying = true ->
       exists t0 evs',
         evs = EvTime t0 :: evs' /\
         forall pre n got post,
           evs' = pre ++ EvRead n PORT_ERR_TIMEDOUT got :: post ->
           exists t1 post',
             post = EvTime t1 :: post' /\
             (t1 < t0 + timeout ->
                (exists e' got' rest, post' = EvRead 1 e' got' :: rest)
                \/ (post' = [] /\ fst run = None)) /\
             (~ t1 < t0 + timeout -> post' = [] /\ fst run = Some STM32_ERR_UNKNOWN)) /\
    (fst run = None ->
       length (reads evs) = fuel /\ Forall (keeps_waiting retrying) (reads evs)) /\
    (forall pre n post,
       evs = pre ++ EvRead n PORT_ERR_OK [STM32_BUSY] :: post ->
       (exists e' got' rest, post = EvRead 1 e' got' :: rest)
       \/ (post = [] /\ fst run = None)) /\
    (forall pre n got post,
       evs = pre ++ EvRead n PORT_ERR_OK got :: post ->
       idx got 0 <> STM32_BUSY -> post = []) /\
    (exists t0 evs',
       evs = (if retrying then [EvTime t0] else []) ++ evs' /\
       (fuel <> O -> exists e got rest, evs' = EvRead 1 e got :: rest) /\
       writes evs = [] /\
       ack_run retrying (t0 + timeout) fuel evs' (fst run)).
Proof.
  intros fuel stm timeout h run evs retrying.
  destruct (stm32_get_ack_timeout_run fuel stm timeout h) as (t0 & evs0 & Hevs & Hrun).
  fold run in Hevs, Hrun. fold retrying in Hevs, Hrun. fold evs in Hevs.
  assert (Hfnb : first_non_busy evs = first_non_busy evs0).
  { rewrite Hevs. destruct retrying; reflexivity. }
  assert (Hreads : reads evs = reads evs0).
  { rewrite Hevs. destruct retrying; reflexivity. }
  split; [|split; [|split; [|split; [|split; [|split]]]]].
  - intros res Hres. rewrite Hfnb. exact (ack_run_result _ _ _ _ _ Hrun res Hres).
  - intros pre n e got post Heq Hne Hcase.
    destruct retrying; cbn [app] in Hevs.
    + rewrite Hevs in Heq. destruct pre as [|x pre]; inversion Heq; subst.
      eapply (ack_run_error _ _ _ _ _ Hrun); eauto.
    + rewrite Hevs in Heq. eapply (ack_run_error _ _ _ _ _ Hrun); eauto.
  - intros Hretry. rewrite Hretry in Hevs, Hrun. cbn [app] in Hevs.
    exists t0, evs0. split; [exact Hevs|].
    intros pre n got post Heq. eapply (ack_run_timeout _ _ _ _ Hrun); eauto.
  - intros Hnone. rewrite Hreads. exact (ack_run_none _ _ _ _ _ Hrun Hnone).
  - intros pre n post Heq.
    destruct retrying; cbn [app] in Hevs; rewrite Hevs in Heq.
    + destruct pre as [|x pre]; inversion Heq; subst.
      eapply (ack_run_busy _ _ _ _ _ Hrun); eauto.
    + eapply (ack_run_busy _ _ _ _ _ Hrun); eauto.
  - intros pre n got post Heq Hnb.
    destruct retrying; cbn [app] in Hevs; rewrite Hevs in Heq.
    + destruct pre as [|x pre]; inversion Heq; subst.
      eapply (ack_run_terminal _ _ _ _ _ Hrun); eauto.
    + eapply (ack_run_terminal _ _ _ _ _ Hrun); eauto.
  - exists t0, evs0. split; [exact Hevs|]. split; [|split; [|exact Hrun]].
    + intros Hf. exact (ack_run_starts _ _ _ _ _ Hrun Hf).
    + rewrite Hevs, writes_app, (ack_run_writes _ _ _ _ _ Hrun).
      destruct retrying; reflexivity.
Qed.

(** ** What the commands put on the wire *)

Lemma writes_bind {A B : Type} (m : io A) (k : A -> io B) (h : history) :
  writes (snd (bind m k h)) =
  match m h with
  | (Some a, e1) => writes e1 ++ writes (snd (k a (h ++ e1)))
  | (None, e1) => writes e1
  end.
Proof.
  unfold bind. destruct (m h) as [[a|] e1]; [|reflexivity].
  destruct (k a (h ++ e1)) as [r e2]. simpl. apply writes_app.
Qed.

Section Wire.
Context `{port_h} `{libc}.

Lemma stm32_get_ack_timeout_writes fuel stm timeout h :
  writes (snd (stm32_get_ack_timeout fuel stm timeout h)) = [].
Proof.
  destruct (stm32_get_ack_timeout_run fuel stm timeout h) as (t0 & evs & Hevs & Hrun).
  rewrite Hevs, writes_app, (ack_run_writes _ _ _ _ _ Hrun).
  destruct (has_flag _ _ && _); reflexivity.
Qed.

Lemma stm32_send_command_timeout_writes fuel stm c timeout h :
  writes (snd (stm32_send_command_timeout fuel stm c timeout h)) = [[c; Z.lxor c 0xFF]].
Proof.
  unfold stm32_send_command_timeout. rewrite writes_bind. unfold port_write.
  destruct (port_err_eqb _ PORT_ERR_OK); cbn [negb writes app]; [|reflexivity].
  rewrite writes_bind.
  pose proof (stm32_get_ack_timeout_writes fuel stm timeout
                (h ++ [EvWrite [c; Z.lxor c 255] (write (port stm) h [c; Z.lxor c 255])])) as Hw.
  destruct (stm32_get_ack_timeout fuel stm timeout _) as [[s|] e1]; simpl in Hw; rewrite Hw.
  - destruct (stm32_err_eqb s STM32_ERR_OK); reflexivity.
  - reflexivity.
Qed.

(** [stm32_write_memory] hands to the port, in this order and as far as
    it gets: the command, the address and the data frame. *)
Lemma stm32_write_memory_writes fuel stm address data len h :
  exists k,
    writes (snd (stm32_write_memory fuel stm address data len h)) =
    firstn k [ [wm (cmd stm); Z.lxor (wm (cmd stm)) 0xFF];
               firstn 5 (store_address address (repeat 0 258%nat));
               write_memory_data_frame address data len ].
Proof.
  unfold stm32_write_memory.
  destruct (len =? 0); [exists 0%nat; reflexivity|].
  destruct (len >? 256); [exists 0%nat; reflexivity|].
  destruct (negb (Z.land address 3 =? 0)); [exists 0%nat; reflexivity|].
  destruct (wm (cmd stm) =? STM32_CMD_ERR); [exists 0%nat; reflexivity|].
  rewrite writes_bind.
  pose proof (stm32_send_command_timeout_writes fuel stm (wm (cmd stm)) 0 h) as Hc.
  unfold stm32_send_command.
  destruct (stm32_send_command_timeout fuel stm (wm (cmd stm)) 0 h) as [[s|] e1];
    simpl in Hc; rewrite Hc; [|exists 1%nat; reflexivity].
  destruct (negb (stm32_err_eqb s STM32_ERR_OK)); [exists 1%nat; reflexivity|].
  rewrite writes_bind. unfold port_write at 1.
  destruct (negb (port_err_eqb _ PORT_ERR_OK)); [exists 2%nat; reflexivity|].
  rewrite writes_bind. unfold stm32_get_ack.
  match goal with
  | |- context [stm32_get_ack_timeout fuel stm 0 ?hh] =>
    pose proof (stm32_get_ack_timeout_writes fuel stm 0 hh) as Ha;
    destruct (stm32_get_ack_timeout fuel stm 0 hh) as [[s2|] e2]
  end; simpl in Ha; rewrite Ha; [|exists 2%nat; reflexivity].
  destruct (negb (stm32_err_eqb s2 STM32_ERR_OK)); [exists 2%nat; reflexivity|].
  unfold write_memory_data_frame.
  destruct (write_memory_frame data len (store_address address (repeat 0 258%nat)))
    as [buf aligned_len].
  rewrite writes_bind. unfold port_write at 1.
  destruct (negb (port_err_eqb _ PORT_ERR_OK)); [exists 3%nat; reflexivity|].
  rewrite writes_bind.
  match goal with
  | |- context [stm32_get_ack_timeout fuel stm ?t ?hh] =>
    pose proof (stm32_get_ack_timeout_writes fuel stm t hh) as Hb;
    destruct (stm32_get_ack_timeout fuel stm t hh) as [[s3|] e3]
  end; simpl in Hb; rewrite Hb; [|exists 3%nat; reflexivity].
  destruct (negb (stm32_err_eqb s3 STM32_ERR_OK)); exists 3%nat; reflexivity.
Qed.

End Wire.

(** ** The data frame of a write *)

Lemma aligned_spec (len : Z) :
  0 <= len < 4294967296 - 3 -> aligned len = 4 * ((len + 3) / 4).
Proof.
  intros Hlen. unfold aligned. rewrite (u32_small (len + 3)) by lia.
  change (u32 (Z.lnot 3)) with (Z.land (Z.lnot 3) (Z.ones 32)).
  rewrite Z.land_assoc, Z.land_ones by lia.
  rewrite <- Z.ldiff_land. change 3 with (Z.ones 2) at 2.
  rewrite Z.ldiff_ones_r by lia.
  rewrite Z.shiftl_mul_pow2, Z.shiftr_div_pow2 by lia.
  change (2 ^ 2) with 4. change (2 ^ 32) with 4294967296.
  assert (Hq : 0 <= (len + 3) / 4 * 4 <= len + 3).
  { pose proof (Z.mul_div_le (len + 3) 4 ltac:(lia)).
    pose proof (Z.div_pos (len + 3) 4 ltac:(lia) ltac:(lia)). lia. }
  rewrite Z.mod_small by lia. lia.
Qed.

Lemma xor_all_snoc (l : list Z) (v : Z) : xor_all (l ++ [v]) = Z.lxor (xor_all l) v.
Proof. unfold xor_all. rewrite fold_left_app. reflexivity. Qed.

(** The two loops of the frame builder: each round stores one byte
    behind the bytes stored so far and folds it into the checksum. *)
Lemma fill_loop (f : Z -> Z) (n k : nat) (cs : Z) (buf : list Z) :
  (k + n + 1 <= length buf)%nat ->
  cs = xor_all (firstn (k + 1) buf) ->
  forall cs' buf',
    for_range n (Z.of_nat k)
      (fun i '(cs, buf) => (Z.lxor cs (f i), upd (i + 1) (f i) buf)) (cs, buf)
    = (cs', buf') ->
    length buf' = length buf /\
    cs' = xor_all (firstn (k + n + 1) buf') /\
    firstn (k + 1) buf' = firstn (k + 1) buf /\
    (forall j, Z.of_nat k < j <= Z.of_nat (k + n) -> idx buf' j = f (j - 1)).
Proof.
  revert k cs buf. induction n as [|n IH]; intros k cs buf Hlen Hcs cs' buf' Hrun.
  - simpl in Hrun. inversion Hrun; subst. rewrite Nat.add_0_r.
    repeat split; auto. intros j Hj. lia.
  - cbn [for_range] in Hrun.
    replace (Z.of_nat k + 1) with (Z.of_nat (S k)) in Hrun by lia.
    set (v := f (Z.of_nat k)) in *.
    assert (Hupd : upd (Z.of_nat (S k)) v buf = upd_nat (S k) v buf).
    { unfold upd. rewrite Nat2Z.id. reflexivity. }
    rewrite Hupd in Hrun.
    assert (Hcs1 : Z.lxor cs v = xor_all (firstn (S k + 1) (upd_nat (S k) v buf))).
    { replace (S k + 1)%nat with (S (S k)) by lia.
      rewrite firstn_upd_nat_snoc by lia. rewrite xor_all_snoc.
      rewrite Hcs. replace (k + 1)%nat with (S k) by lia. reflexivity. }
    assert (Hlen1 : (S k + n + 1 <= length (upd_nat (S k) v buf))%nat).
    { rewrite length_upd_nat. lia. }
    destruct (IH (S k) _ _ Hlen1 Hcs1 cs' buf' Hrun) as (Hl & Hc & Hf & Hj).
    rewrite length_upd_nat in Hl.
    split; [exact Hl|]. split.
    { rewrite Hc. f_equal. f_equal. lia. }
    assert (Hf2 : firstn (S (S k)) buf' = firstn (S k) buf ++ [v]).
    { replace (S k + 1)%nat with (S (S k)) in Hf by lia.
      rewrite Hf. apply firstn_upd_nat_snoc. lia. }
    split.
    { replace (k + 1)%nat with (S k) by lia.
      assert (Hcut : firstn (S k) buf' = firstn (S k) (firstn (S (S k)) buf')).
      { rewrite firstn_firstn. f_equal. lia. }
      rewrite Hcut, Hf2, firstn_app, length_firstn, Nat.min_l by lia.
      rewrite Nat.sub_diag, firstn_firstn, Nat.min_id. simpl.
      apply app_nil_r. }
    intros j Hjr.
    destruct (Z.eq_dec j (Z.of_nat (S k))) as [->|Hne].
    + rewrite <- (idx_firstn (S (S k))) by lia.
      rewrite Hf2. unfold idx. rewrite Nat2Z.id.
      rewrite app_nth2 by (rewrite length_firstn; lia).
      rewrite length_firstn, Nat.min_l by lia.
      rewrite Nat.sub_diag. cbn [nth]. unfold v. f_equal. lia.
    + apply Hj. lia.
Qed.

Lemma length_store_address (address : Z) (buf : list Z) :
  length (store_address address buf) = length buf.
Proof. unfold store_address. rewrite !length_upd. reflexivity. Qed.

(** The frame is [N-1], the [len] bytes of [data], padding of 0xFF up to
    [N] bytes, and the XOR of all that came before. *)
Lemma write_memory_data_frame_spec (address : Z) (data : list Z) (len : Z) :
  1 <= len <= 256 ->
  let N := 4 * ((len + 3) / 4) in
  let frame := write_memory_data_frame address data len in
  length frame = Z.to_nat (N + 2) /\
  idx frame 0 = N - 1 /\
  (forall j, 1 <= j <= len -> idx frame j = idx data (j - 1)) /\
  (forall j, len < j <= N -> idx frame j = 0xFF) /\
  idx frame (N + 1) = xor_all (firstn (Z.to_nat (N + 1)) frame).
Proof.
  intros Hlen N frame.
  assert (HN : len <= N < len + 4 /\ N <= 256).
  { unfold N. pose proof (Z.mul_div_le (len + 3) 4 ltac:(lia)).
    pose proof (Z.mod_pos_bound (len + 3) 4 ltac:(lia)).
    pose proof (Z.div_mod (len + 3) 4 ltac:(lia)).
    pose proof (Z.div_lt_upper_bound (len + 3) 4 65 ltac:(lia) ltac:(lia)). lia. }
  unfold frame, write_memory_data_frame, write_memory_frame.
  rewrite aligned_spec by lia. fold N.
  set (buf0 := store_address address (repeat 0 258%nat)).
  assert (Hl0 : length buf0 = 258%nat).
  { unfold buf0. rewrite length_store_address. apply repeat_length. }
  rewrite (u8_small (N - 1)) by lia.
  set (buf1 := upd 0 (N - 1) buf0).
  assert (Hl1 : length buf1 = 258%nat) by (unfold buf1; rewrite length_upd; exact Hl0).
  assert (H10 : idx buf1 0 = N - 1) by (unfold buf1; apply idx_upd_eq; lia).
  unfold for_loop.
  destruct (for_range (Z.to_nat (len - 0)) 0 _ (N - 1, buf1)) as [cs1 buf2] eqn:E1.
  destruct (for_range (Z.to_nat (N - len)) len _ (cs1, buf2)) as [cs2 buf3] eqn:E2.
  assert (Hcs0 : N - 1 = xor_all (firstn (0 + 1) buf1)).
  { destruct buf1 as [|x buf1']; [discriminate|].
    unfold idx in H10. simpl in H10. subst x. reflexivity. }
  change 0 with (Z.of_nat 0) in E1 at 2.
  destruct (fill_loop (idx data) (Z.to_nat (len - 0)) 0 (N - 1) buf1
              ltac:(lia) Hcs0 cs1 buf2 E1) as (Hl2 & Hc1 & Hf1 & Hd1).
  replace len with (Z.of_nat (Z.to_nat len)) in E2 at 2 by lia.
  assert (Hc1' : cs1 = xor_all (firstn (Z.to_nat len + 1) buf2)).
  { rewrite Hc1. f_equal. f_equal. lia. }
  destruct (fill_loop (fun _ => 0xFF) (Z.to_nat (N - len)) (Z.to_nat len) cs1 buf2
              ltac:(lia) Hc1' cs2 buf3 E2) as (Hl3 & Hc2 & Hf2 & Hd2).
  set (buf4 := upd (N + 1) cs2 buf3).
  assert (Hl4 : length buf4 = 258%nat) by (unfold buf4; rewrite length_upd; lia).
  (* what the loops left in the buffer *)
  assert (H3low : forall j, 0 <= j <= len -> idx buf3 j = idx buf2 j).
  { intros j Hj. rewrite <- (idx_firstn (Z.to_nat len + 1) buf3) by lia.
    rewrite Hf2. apply idx_firstn. lia. }
  assert (H4low : forall j, 0 <= j <= N -> idx buf4 j = idx buf3 j).
  { intros j Hj. unfold buf4. apply idx_upd_neq; lia. }
  split; [|split; [|split; [|split]]].
  - rewrite length_firstn. lia.
  - rewrite idx_firstn by lia. rewrite H4low, H3low by lia.
    rewrite <- (idx_firstn (0 + 1) buf2) by lia. rewrite Hf1.
    rewrite idx_firstn by lia. exact H10.
  - intros j Hj. rewrite idx_firstn by lia. rewrite H4low, H3low by lia.
    apply Hd1. lia.
  - intros j Hj. rewrite idx_firstn by lia. rewrite H4low by lia.
    apply Hd2. lia.
  - rewrite idx_firstn by lia. unfold buf4 at 1. rewrite idx_upd_eq by lia.
    rewrite firstn_firstn, Nat.min_l by lia.
    unfold buf4, upd. rewrite firstn_upd_nat_ge by lia.
    rewrite Hc2. f_equal. f_equal. lia.
Qed.

Lemma nth_error_firstn_third {A : Type} (k : nat) (a b c x : A) :
  nth_error (firstn k [a; b; c]) 2 = Some x -> x = c.
Proof.
  destruct k as [|[|[|[|k]]]]; simpl; intros Hx; try discriminate; congruence.
Qed.

(** C1: when a write of [len] bytes, [len] in 1..256 and not a multiple
    of 4, gets as far as its data frame (the third buffer handed to the
    port), that frame has N + 2 bytes, N being [len] rounded up to a
    multiple of 4; its first byte is N - 1, the bytes at positions
    1..len are the data, the bytes at positions len+1..N are 0xFF, and
    the last byte is the XOR of N - 1 with the N payload bytes. *)
Theorem write_memory_padding_law `{port_h} `{libc} :
  forall (fuel : nat) (stm : stm32_t) (address : Z) (data : list Z) (len : Z)
         (h : history) (frame : list Z),
    1 <= len <= 256 -> len mod 4 <> 0 ->
    nth_error (writes (snd (stm32_write_memory fuel stm address data len h))) 2
      = Some frame ->
    let N := 4 * ((len + 3) / 4) in
    (N mod 4 = 0 /\ len <= N < len + 4) /\
    Z.of_nat (length frame) = N + 2 /\
    idx frame 0 = N - 1 /\
    (forall j, 1 <= j <= len -> idx frame j = idx data (j - 1)) /\
    (forall j, len + 1 <= j <= N -> idx frame j = 0xFF) /\
    idx frame (N + 1) = fold_left Z.lxor (firstn (Z.to_nat N) (skipn 1 frame)) (N - 1).
Proof.
  intros fuel stm address data len h frame Hlen _ Hframe N.
  destruct (stm32_write_memory_writes fuel stm address data len h) as [k Hk].
  rewrite Hk in Hframe. apply nth_error_firstn_third in Hframe. subst frame.
  destruct (write_memory_data_frame_spec address data len Hlen)
    as (Hl & Hfirst & Hd & Hp & Hc).
  fold N in Hl, Hfirst, Hp, Hc.
  assert (HN : N mod 4 = 0 /\ len <= N < len + 4).
  { unfold N. split.
    - rewrite Z.mul_comm. apply Z.mod_mul. lia.
    - pose proof (Z.mod_pos_bound (len + 3) 4 ltac:(lia)).
      pose proof (Z.div_mod (len + 3) 4 ltac:(lia)). lia. }
  split; [exact HN|]. split; [lia|]. split; [exact Hfirst|]. split; [exact Hd|].
  split; [intros j Hj; apply Hp; lia|].
  rewrite Hc.
  destruct (write_memory_data_frame address data len) as [|x rest]; [simpl in Hl; lia|].
  unfold idx in Hfirst. simpl in Hfirst. subst x.
  replace (Z.to_nat (N + 1)) with (S (Z.to_nat N)) by lia.
  reflexivity.
Qed.

(** C2, as amended: the data frame of a write of the bytes 01 02 03 is
    03 01 02 03 FF FC; the last byte is 03 xor 01 xor 02 xor 03 xor FF. *)
Theorem write_three_bytes_frame `{port_h} `{libc} :
  forall (fuel : nat) (stm : stm32_t) (h : history) (frame : list Z),
    nth_error (writes (snd (stm32_write_memory fuel stm 0x08000000 [0x01; 0x02; 0x03] 3 h))) 2
      = Some frame ->
    frame = [0x03; 0x01; 0x02; 0x03; 0xFF; 0xFC] /\
    0xFC = xor_all [0x03; 0x01; 0x02; 0x03; 0xFF].
Proof.
  intros fuel stm h frame Hframe.
  destruct (stm32_write_memory_writes fuel stm 0x08000000 [0x01; 0x02; 0x03] 3 h) as [k Hk].
  rewrite Hk in Hframe. apply nth_error_firstn_third in Hframe. subst frame.
  split; reflexivity.
Qed.

(** C7, as amended: a write of at least one byte to an address that is
    not a multiple of 4 returns UNKNOWN and nothing happens on the port. *)
Theorem write_memory_unaligned `{port_h} `{libc} :
  forall (fuel : nat) (stm : stm32_t) (address : Z) (data : list Z) (len : Z) (h : history),
    len <> 0 -> address mod 4 <> 0 ->
    stm32_write_memory fuel stm address data len h = (Some STM32_ERR_UNKNOWN, []).
Proof.
  intros fuel stm address data len h Hlen Haddr.
  unfold stm32_write_memory.
  destruct (Z.eqb_spec len 0) as [Hz|_]; [contradiction|].
  destruct (len >? 256); [reflexivity|].
  change 3 with (Z.ones 2). rewrite Z.land_ones by lia. change (2 ^ 2) with 4.
  destruct (Z.eqb_spec (address mod 4) 0) as [Hz|_]; [contradiction|].
  reflexivity.
Qed.

(** C10: with [len = 0], [stm32_read_memory] and [stm32_write_memory]
    return OK and nothing happens on the port, whatever the address and
    whatever the command map says. *)
Theorem zero_length_transfer `{port_h} `{libc} :
  forall (fuel : nat) (stm : stm32_t) (address : Z) (data : list Z) (h : history),
    stm32_read_memory fuel stm address data 0 h = (Some (STM32_ERR_OK, data), []) /\
    stm32_write_memory fuel stm address data 0 h = (Some STM32_ERR_OK, []).
Proof.
  intros fuel stm address data h. split; reflexivity.
Qed.

(** ** The command map built from the GET reply *)

Lemma newer_max (prev a : Z) :
  newer prev a = if prev =? STM32_CMD_ERR then a else Z.max prev a.
Proof.
  unfold newer.
  destruct (prev =? STM32_CMD_ERR); [reflexivity|].
  destruct (Z.gtb_spec prev a); lia.
Qed.

Lemma stm32_init_switch_slot (k : dual_kind) (val : Z) (c : stm32_cmd) (n : Z) :
  slot k (fst (stm32_init_switch val (c, n))) =
  if is_opcode_of k val then newer (slot k c) val else slot k c.
Proof.
  unfold stm32_init_switch.
  repeat match goal with
         | |- context [val =? ?C] =>
           destruct (Z.eqb_spec val C); [subst val; destruct k; reflexivity|]
         end.
  repeat match goal with
         | Hn : val <> _ |- _ => apply Z.eqb_neq in Hn
         end.
  destruct k; unfold is_opcode_of; cbn [opcodes existsb slot fst orb];
    repeat match goal with
           | Hn : (val =? _) = false |- _ => rewrite Hn; clear Hn
           end;
    reflexivity.
Qed.

Lemma fold_left_map_fun {A B C : Type} (f : A -> B -> A) (g : C -> B) (l : list C) (a : A) :
  fold_left f (map g l) a = fold_left (fun a x => f a (g x)) l a.
Proof. revert a. induction l as [|x l IH]; intros a; simpl; auto. Qed.

(** The GET loop is a fold of the switch over the opcodes of the reply. *)
Lemma stm32_init_get_loop_fold (buf : list Z) (c : stm32_cmd) :
  stm32_init_get_loop buf c =
  fold_left (fun st v => stm32_init_switch v st) (get_reply_opcodes buf) (c, 0).
Proof.
  unfold stm32_init_get_loop, get_reply_opcodes, for_loop.
  rewrite for_range_fold, fold_left_map_fun. reflexivity.
Qed.

Lemma fold_switch_slot (k : dual_kind) (vals : list Z) (st : stm32_cmd * Z) :
  slot k (fst (fold_left (fun st v => stm32_init_switch v st) vals st)) =
  fold_left (fun s v => if is_opcode_of k v then newer s v else s) vals (slot k (fst st)).
Proof.
  revert st. induction vals as [|v vals IH]; intros [c n]; [reflexivity|].
  cbn [fold_left]. rewrite IH. f_equal.
  destruct (stm32_init_switch v (c, n)) as [c' n'] eqn:E.
  pose proof (stm32_init_switch_slot k v c n) as Hs. rewrite E in Hs. exact Hs.
Qed.

Lemma opcode_not_sentinel (k : dual_kind) (v : Z) :
  is_opcode_of k v = true -> v <> STM32_CMD_ERR.
Proof.
  intros Hv ->. destruct k; discriminate.
Qed.

(** Latching from an empty entry keeps the greatest opcode seen. *)
Lemma latch_fold_max (k : dual_kind) (vals : list Z) :
  let s := fold_left (fun s v => if is_opcode_of k v then newer s v else s)
                     vals STM32_CMD_ERR in
  let seen := filter (is_opcode_of k) vals in
  (seen = [] /\ s = STM32_CMD_ERR) \/
  (In s seen /\ Forall (fun v => v <= s) seen).
Proof.
  cbv zeta. induction vals as [|v vals IH] using rev_ind.
  - left. split; reflexivity.
  - rewrite fold_left_app, filter_app. cbn [fold_left filter].
    set (s := fold_left _ vals STM32_CMD_ERR) in *.
    destruct (is_opcode_of k v) eqn:Hv.
    + right. destruct IH as [[Hnil Hs]|[Hin Hall]].
      * rewrite Hnil, Hs. unfold newer. rewrite Z.eqb_refl. simpl.
        split; [left; reflexivity|]. constructor; [lia|constructor].
      * assert (Hs : s <> STM32_CMD_ERR).
        { apply (opcode_not_sentinel k). apply filter_In in Hin. tauto. }
        unfold newer. apply Z.eqb_neq in Hs. rewrite Hs.
        destruct (Z.gtb_spec s v).
        -- split; [apply in_or_app; left; exact Hin|].
           apply Forall_app. split; [exact Hall|]. constructor; [lia|constructor].
        -- split; [apply in_or_app; right; left; reflexivity|].
           apply Forall_app. split.
           ++ eapply Forall_impl; [|exact Hall]. simpl. intros x Hx. lia.
           ++ constructor; [lia|constructor].
    + rewrite app_nil_r. exact IH.
Qed.

(** The command map of an established session is the one that the GET
    loop built from the reply. *)
Lemma stm32_init_cmd `{port_h} `{libc} :
  forall fuel devices port init h stm evs,
    stm32_init fuel devices port init h = (Some (Some stm), evs) ->
    exists buf, cmd stm = fst (stm32_init_get_loop buf cmd_unset).
Proof.
  intros fuel devices port init h stm evs Hrun. unfold stm32_init in Hrun.
  repeat match type of Hrun with
         | bind _ _ _ = _ =>
           apply bind_inv in Hrun;
           destruct Hrun as [(? & ? & ? & _ & Hrun & _)|[_ Hr]]; [|discriminate]
         | (if ?b then _ else _) _ = _ => destruct b
         | (let '(_, _) := ?x in _) _ = _ => destruct x eqn:?
         | match ?x with Some _ => _ | None => _ end _ = _ => destruct x
         | ret None _ = _ => apply ret_inv in Hrun; destruct Hrun; discriminate
         | out_of_fuel _ = _ => discriminate
         end.
  apply ret_inv in Hrun. destruct Hrun as [Hs _]. inversion Hs. cbn [cmd].
  match goal with
  | Hl : stm32_init_get_loop ?buf cmd_unset = _ |- _ => exists buf; rewrite Hl; reflexivity
  end.
Qed.

(** C3, as amended: in the GET loop of [stm32_init], an update of the
    entry of a kind with several opcodes stores the candidate when the
    entry still holds the sentinel 0xFF, and max(existing, candidate)
    otherwise.  After the loop the entry holds the greatest opcode of its
    kind in the reply (the sentinel when there is none); in particular,
    when both opcodes of the legacy/no-stretch pair of a kind are in the
    reply the entry holds the greater of the two, and when the opcodes of
    the kind in the reply are [a] and [b] it holds max(a, b). *)
Theorem get_reply_opcode_latching :
  (forall (k : dual_kind) (val : Z) (c : stm32_cmd) (n : Z),
     In val (opcodes k) ->
     slot k (fst (stm32_init_switch val (c, n)))
     = if slot k c =? STM32_CMD_ERR then val else Z.max (slot k c) val) /\
  (forall (k : dual_kind) (buf : list Z),
     let c := fst (stm32_init_get_loop buf cmd_unset) in
     let seen := filter (is_opcode_of k) (get_reply_opcodes buf) in
     (seen = [] -> slot k c = STM32_CMD_ERR) /\
     (seen <> [] -> In (slot k c) seen /\ Forall (fun v => v <= slot k c) seen) /\
     (In (fst (opcode_pair k)) (get_reply_opcodes buf) ->
      In (snd (opcode_pair k)) (get_reply_opcodes buf) ->
      slot k c = Z.max (fst (opcode_pair k)) (snd (opcode_pair k))) /\
     (forall a b, In a seen -> In b seen ->
                  (forall v, In v seen -> v = a \/ v = b) ->
                  slot k c = Z.max a b)).
Proof.
  split.
  - intros k val c n Hin. rewrite stm32_init_switch_slot.
    assert (Hk : is_opcode_of k val = true).
    { apply existsb_exists. exists val. split; [exact Hin | apply Z.eqb_refl]. }
    rewrite Hk. apply newer_max.
  - intros k buf c seen.
    assert (Hc : slot k c =
                 fold_left (fun s v => if is_opcode_of k v then newer s v else s)
                           (get_reply_opcodes buf) STM32_CMD_ERR).
    { unfold c. rewrite stm32_init_get_loop_fold, fold_switch_slot.
      destruct k; reflexivity. }
    pose proof (latch_fold_max k (get_reply_opcodes buf)) as Hmax.
    cbv zeta in Hmax. rewrite <- Hc in Hmax. fold seen in Hmax.
    assert (Hgen : forall a b, In a seen -> In b seen ->
                     (forall v, In v seen -> v = a \/ v = b) -> slot k c = Z.max a b).
    { intros a b Ha Hb Honly.
      destruct Hmax as [[Hnil _]|[Hin Hall]]; [rewrite Hnil in Ha; contradiction|].
      rewrite Forall_forall in Hall.
      pose proof (Hall a Ha). pose proof (Hall b Hb).
      destruct (Honly _ Hin); lia. }
    split; [|split; [|split]].
    + intros Hnil. destruct Hmax as [[_ Hs]|[Hin _]]; [exact Hs|].
      rewrite Hnil in Hin. contradiction.
    + intros Hne. destruct Hmax as [[Hnil _]|Hok]; [contradiction | exact Hok].
    + intros Ha Hb.
      destruct Hmax as [[Hnil _]|[Hin Hall]].
      * assert (Hs : In (fst (opcode_pair k)) seen).
        { apply filter_In. split; [exact Ha | destruct k; reflexivity]. }
        rewrite Hnil in Hs. contradiction.
      * rewrite Forall_forall in Hall.
        assert (Hsa : In (fst (opcode_pair k)) seen).
        { apply filter_In. split; [exact Ha | destruct k; reflexivity]. }
        assert (Hsb : In (snd (opcode_pair k)) seen).
        { apply filter_In. split; [exact Hb | destruct k; reflexivity]. }
        pose proof (Hall _ Hsa). pose proof (Hall _ Hsb).
        apply filter_In in Hin. destruct Hin as [_ Hop].
        unfold is_opcode_of in Hop. apply existsb_exists in Hop.
        destruct Hop as (x & Hx & Heq). apply Z.eqb_eq in Heq. subst x.
        destruct k; cbn [opcodes opcode_pair fst snd In] in *;
          unfold STM32_CMD_WM, STM32_CMD_WM_NS, STM32_CMD_ER, STM32_CMD_EE,
            STM32_CMD_EE_NS, STM32_CMD_WP, STM32_CMD_WP_NS, STM32_CMD_UW,
            STM32_CMD_UW_NS, STM32_CMD_RP, STM32_CMD_RP_NS, STM32_CMD_UR,
            STM32_CMD_UR_NS, STM32_CMD_CRC in *; lia.
    + exact Hgen.
Qed.

(** ** Pages and addresses *)

Lemma wf_sizes_head (psize : list Z) :
  wf_sizes psize = true -> 0 < idx psize 0 < 4294967296.
Proof.
  destruct psize as [|s rest]; [discriminate|]. cbn [wf_sizes].
  intros Hwf. apply andb_prop in Hwf. destruct Hwf as [Hs _].
  apply andb_prop in Hs. destruct Hs as [H1 H2].
  apply Z.ltb_lt in H1, H2. unfold idx. simpl. lia.
Qed.

Lemma wf_sizes_next (psize : list Z) :
  wf_sizes psize = true -> wf_sizes (next_size psize) = true.
Proof.
  intros Hwf. unfold next_size.
  destruct (Z.eqb_spec (idx psize 1) 0) as [Hz|Hnz]; cbn [negb]; [exact Hwf|].
  destruct psize as [|s [|z [|z' rest]]]; try discriminate.
  - exfalso. apply Hnz. reflexivity.
  - cbn [wf_sizes] in Hwf. apply andb_prop in Hwf. destruct Hwf as [_ Hz].
    apply Z.eqb_eq in Hz. exfalso. apply Hnz. unfold idx. simpl. exact Hz.
  - cbn [wf_sizes tl] in *. apply andb_prop in Hwf. destruct Hwf as [_ Hrest]. exact Hrest.
Qed.

Lemma wf_sizes_advance (n : nat) (psize : list Z) :
  wf_sizes psize = true -> wf_sizes (advance n psize) = true.
Proof.
  revert psize. induction n as [|n IH]; intros psize Hwf; [exact Hwf|].
  simpl. apply IH. apply wf_sizes_next. exact Hwf.
Qed.

Lemma advance_S_end (n : nat) (psize : list Z) :
  advance (S n) psize = next_size (advance n psize).
Proof.
  revert psize. induction n as [|n IH]; intros psize; [reflexivity|].
  change (advance (S (S n)) psize) with (advance (S n) (next_size psize)).
  rewrite IH. reflexivity.
Qed.

Lemma span_S_end (n : nat) (psize : list Z) :
  span (S n) psize = span n psize + idx (advance n psize) 0.
Proof.
  revert psize. induction n as [|n IH]; intros psize.
  - simpl. lia.
  - change (span (S (S n)) psize) with (idx psize 0 + span (S n) (next_size psize)).
    rewrite IH. simpl. lia.
Qed.

Lemma span_mono (n m : nat) (psize : list Z) :
  wf_sizes psize = true -> (n <= m)%nat -> span n psize <= span m psize.
Proof.
  intros Hwf Hnm. induction Hnm as [|m Hnm IH]; [lia|].
  rewrite span_S_end.
  pose proof (wf_sizes_head _ (wf_sizes_advance m _ Hwf)). lia.
Qed.

Lemma span_nonneg (n : nat) (psize : list Z) :
  wf_sizes psize = true -> 0 <= span n psize.
Proof. intros Hwf. apply (span_mono 0 n psize Hwf). lia. Qed.

(** The page walk stops after [n] pages, [n] being the number of whole
    pages below the offset. *)
Lemma page_walk_spec (fuel : nat) :
  forall (off page : Z) (psize : list Z),
    wf_sizes psize = true ->
    0 <= off < 4294967296 -> 0 <= page -> page + off < 2147483648 ->
    off < Z.of_nat fuel ->
    exists (n : nat) (r : Z),
      page_walk fuel off page psize = Some (page + Z.of_nat n, r) /\
      off = span n psize + r /\
      0 <= r < idx (advance n psize) 0.
Proof.
  induction fuel as [|fuel IH]; intros off page psize Hwf Hoff Hpage Hsum Hfuel; [lia|].
  pose proof (wf_sizes_head _ Hwf) as Hs.
  cbn [page_walk].
  destruct (Z.geb_spec off (idx psize 0)) as [Hge|Hlt].
  - rewrite (u32_small (off - idx psize 0)) by lia.
    rewrite (s32_small (page + 1)) by lia.
    fold (next_size psize).
    destruct (IH (off - idx psize 0) (page + 1) (next_size psize)
                (wf_sizes_next _ Hwf) ltac:(lia) ltac:(lia) ltac:(lia) ltac:(lia))
      as (n & r & Hrun & Hspan & Hr).
    exists (S n), r. split; [|split].
    + rewrite Hrun. f_equal. f_equal. lia.
    + cbn [span]. lia.
    + exact Hr.
  - exists O, off. split; [|split].
    + f_equal. f_equal. simpl. lia.
    + simpl. lia.
    + simpl. lia.
Qed.

(** [flash_page_to_addr] adds up the pages below [page], modulo 2^32. *)
Lemma page_to_addr_loop (n : nat) (i addr : Z) (psize : list Z) :
  0 <= addr < 4294967296 ->
  for_range n i
    (fun _ '(addr, psize) =>
       (u32 (addr + idx psize 0), if negb (idx psize 1 =? 0) then tl psize else psize))
    (addr, psize)
  = (u32 (addr + span n psize), advance n psize).
Proof.
  revert i addr psize. induction n as [|n IH]; intros i addr psize Haddr.
  - simpl. rewrite Z.add_0_r, u32_small by lia. reflexivity.
  - cbn [for_range]. fold (next_size psize).
    rewrite IH by (unfold u32; apply Z.mod_pos_bound; lia).
    cbn [span advance]. f_equal. unfold u32.
    rewrite Zplus_mod_idemp_l. f_equal. lia.
Qed.

Lemma flash_page_to_addr_spec (d : stm32_dev_t) (page : Z) :
  0 <= fl_start d < 4294967296 ->
  flash_page_to_addr d page = u32 (fl_start d + span (Z.to_nat page) (fl_ps d)).
Proof.
  intros Hs. unfold flash_page_to_addr, for_loop.
  rewrite page_to_addr_loop by lia. rewrite Z.sub_0_r. reflexivity.
Qed.

Lemma wf_flash_inv (d : stm32_dev_t) :
  wf_flash d = true ->
  0 <= fl_start d <= fl_end d /\ fl_end d < 4294967296 /\
  fl_end d - fl_start d < 2147483648 /\ wf_sizes (fl_ps d) = true.
Proof.
  unfold wf_flash. intros Hwf.
  repeat match type of Hwf with
         | (_ && _) = true => apply andb_prop in Hwf; destruct Hwf as [Hwf ?]
         end.
  repeat match goal with
         | Hb : (_ <=? _) = true |- _ => apply Z.leb_le in Hb
         | Hb : (_ <? _) = true |- _ => apply Z.ltb_lt in Hb
         end.
  auto.
Qed.

Lemma next_size_incl (psize : list Z) (x : Z) :
  In x (next_size psize) -> In x psize.
Proof.
  unfold next_size. destruct (negb (idx psize 1 =? 0)); [|auto].
  destruct psize; simpl; auto.
Qed.

Lemma advance_head_in (n : nat) (psize : list Z) :
  wf_sizes psize = true -> In (idx (advance n psize) 0) psize.
Proof.
  revert psize. induction n as [|n IH]; intros psize Hwf.
  - destruct psize; [discriminate|]. left. reflexivity.
  - simpl. apply next_size_incl. apply IH. apply wf_sizes_next. exact Hwf.
Qed.

(** The floor page of a flash address: the number of whole pages below
    it. *)
Lemma flash_addr_to_page_floor_spec (fuel : nat) (d : stm32_dev_t) (a : Z) :
  wf_flash d = true -> fl_start d <= a < fl_end d -> a - fl_start d < Z.of_nat fuel ->
  exists (n : nat) (r : Z),
    flash_addr_to_page_floor fuel d a = Some (Z.of_nat n) /\
    a - fl_start d = span n (fl_ps d) + r /\
    0 <= r < idx (advance n (fl_ps d)) 0.
Proof.
  intros Hwf Ha Hfuel.
  destruct (wf_flash_inv d Hwf) as (Hs & He & Hsz & Hps).
  unfold flash_addr_to_page_floor, is_addr_in_flash.
  destruct (Z.geb_spec a (fl_start d)); [|lia].
  destruct (Z.ltb_spec a (fl_end d)); [|lia].
  cbn [andb negb]. rewrite u32_small by lia.
  destruct (page_walk_spec fuel (a - fl_start d) 0 (fl_ps d) Hps
              ltac:(lia) ltac:(lia) ltac:(lia) Hfuel) as (n & r & Hrun & Hspan & Hr).
  exists n, r. rewrite Hrun. auto.
Qed.

Lemma span_ge (n : nat) (psize : list Z) :
  wf_sizes psize = true -> Z.of_nat n <= span n psize.
Proof.
  intros Hwf. induction n as [|n IH]; [simpl; lia|].
  rewrite span_S_end.
  pose proof (wf_sizes_head _ (wf_sizes_advance n _ Hwf)). lia.
Qed.

Lemma span_unique (psize : list Z) (n n' : nat) (r r' : Z) :
  wf_sizes psize = true ->
  span n psize + r = span n' psize + r' ->
  0 <= r < idx (advance n psize) 0 -> 0 <= r' < idx (advance n' psize) 0 ->
  n = n' /\ r = r'.
Proof.
  intros Hwf Heq Hr Hr'.
  destruct (lt_eq_lt_dec n n') as [[Hlt | ->] | Hgt].
  - pose proof (span_mono (S n) n' psize Hwf ltac:(lia)) as Hm.
    rewrite span_S_end in Hm. lia.
  - split; [reflexivity|lia].
  - pose proof (span_mono (S n') n psize Hwf ltac:(lia)) as Hm.
    rewrite span_S_end in Hm. lia.
Qed.

Lemma flash_pages_spec (fuel : nat) (d : stm32_dev_t) (a : Z) :
  wf_flash d = true -> fl_end d - fl_start d < Z.of_nat fuel ->
  fl_start d <= a <= fl_end d ->
  exists (n : nat) (r : Z),
    a - fl_start d = span n (fl_ps d) + r /\
    0 <= r < idx (advance n (fl_ps d)) 0 /\
    flash_addr_to_page_ceil fuel d a
    = Some (if r =? 0 then Z.of_nat n else Z.of_nat n + 1) /\
    (a < fl_end d -> flash_addr_to_page_floor fuel d a = Some (Z.of_nat n)).
Proof.
  intros Hwf Hfuel Ha.
  destruct (wf_flash_inv d Hwf) as (Hs & He & Hsz & Hps).
  destruct (page_walk_spec fuel (a - fl_start d) 0 (fl_ps d) Hps
              ltac:(lia) ltac:(lia) ltac:(lia) ltac:(lia)) as (n & r & Hrun & Hspan & Hr).
  pose proof (span_ge n (fl_ps d) Hps) as Hge.
  exists n, r. split; [exact Hspan|]. split; [exact Hr|]. split.
  - unfold flash_addr_to_page_ceil.
    destruct (Z.geb_spec a (fl_start d)); [|lia].
    destruct (Z.leb_spec a (fl_end d)); [|lia].
    cbn [andb negb]. rewrite u32_small by lia. rewrite Hrun.
    destruct (Z.eqb_spec r 0); cbn [negb]; [reflexivity|].
    rewrite s32_small by lia. reflexivity.
  - intros Hlt. unfold flash_addr_to_page_floor, is_addr_in_flash.
    destruct (Z.geb_spec a (fl_start d)); [|lia].
    destruct (Z.ltb_spec a (fl_end d)); [|lia].
    cbn [andb negb]. rewrite u32_small by lia. rewrite Hrun. reflexivity.
Qed.

(** C8, as amended: for a flash address [a] of a well-formed device and
    its floor page [p], [flash_page_to_addr p <= a], and
    [flash_page_to_addr (p + 1) > a] unless [a] lies in the trailing page
    (the page of the last flash byte); the latter also holds in the
    trailing page when no page that starts in flash can run past the
    32-bit address space.  [flash_addr_to_page_floor] is 0 for every
    address outside of [fl_start, fl_end), and [flash_addr_to_page_ceil]
    is 0 for every address outside of [fl_start, fl_end], the end address
    included in the range: for [fl_end] itself it returns the number [q]
    of pages, that is, every flash address lies in a page from 0 to
    [q - 1], and each of the pages 0 to [q - 1] starts at a flash address
    of its own. *)
Theorem page_walk_inverse :
  (forall (fuel : nat) (d : stm32_dev_t) (a : Z),
     wf_flash d = true -> fl_end d - fl_start d <= Z.of_nat fuel ->
     fl_start d <= a < fl_end d ->
     exists p p_last,
       flash_addr_to_page_floor fuel d a = Some p /\
       flash_addr_to_page_floor fuel d (fl_end d - 1) = Some p_last /\
       flash_page_to_addr d p <= a /\
       (p <> p_last -> flash_page_to_addr d (p + 1) > a) /\
       ((forall s, In s (fl_ps d) -> fl_end d + s <= 4294967296) ->
        flash_page_to_addr d (p + 1) > a)) /\
  (forall (fuel : nat) (d : stm32_dev_t) (a : Z),
     (~ (fl_start d <= a < fl_end d) -> flash_addr_to_page_floor fuel d a = Some 0) /\
     (~ (fl_start d <= a <= fl_end d) -> flash_addr_to_page_ceil fuel d a = Some 0)) /\
  (forall (fuel : nat) (d : stm32_dev_t),
     wf_flash d = true -> fl_end d - fl_start d < Z.of_nat fuel ->
     exists q,
       flash_addr_to_page_ceil fuel d (fl_end d) = Some q /\
       (forall a, fl_start d <= a < fl_end d ->
          exists p, flash_addr_to_page_floor fuel d a = Some p /\ 0 <= p < q) /\
       (forall p, 0 <= p < q ->
          fl_start d <= flash_page_to_addr d p < fl_end d /\
          flash_addr_to_page_floor fuel d (flash_page_to_addr d p) = Some p)).
Proof.
  split; [|split].
  - intros fuel d a Hwf Hfuel Ha.
    destruct (wf_flash_inv d Hwf) as (Hs & He & Hsz & Hps).
    destruct (flash_addr_to_page_floor_spec fuel d a Hwf Ha ltac:(lia))
      as (n & r & Hfl & Hspan & Hr).
    destruct (flash_addr_to_page_floor_spec fuel d (fl_end d - 1) Hwf ltac:(lia) ltac:(lia))
      as (nl & rl & Hfll & Hspanl & Hrl).
    exists (Z.of_nat n), (Z.of_nat nl).
    pose proof (span_nonneg n (fl_ps d) Hps) as Hn0.
    assert (Hup : flash_page_to_addr d (Z.of_nat n + 1)
                  = u32 (fl_start d + span n (fl_ps d) + idx (advance n (fl_ps d)) 0)).
    { rewrite flash_page_to_addr_spec by lia.
      replace (Z.to_nat (Z.of_nat n + 1)) with (S n) by lia.
      rewrite span_S_end. f_equal. lia. }
    split; [exact Hfl|]. split; [exact Hfll|]. split; [|split].
    + rewrite flash_page_to_addr_spec by lia. rewrite Nat2Z.id.
      rewrite u32_small by lia. lia.
    + intros Hne. rewrite Hup.
      assert (Hlt : (S n <= nl)%nat).
      { destruct (Nat.lt_ge_cases n nl) as [Hlt|Hge]; [lia|].
        assert (Hnl : n <> nl) by (intros ->; apply Hne; reflexivity).
        pose proof (span_mono (S nl) n (fl_ps d) Hps ltac:(lia)) as Hm.
        rewrite span_S_end in Hm. lia. }
      pose proof (span_mono (S n) nl (fl_ps d) Hps Hlt) as Hm.
      rewrite span_S_end in Hm.
      rewrite u32_small by lia. lia.
    + intros Hfit. rewrite Hup.
      pose proof (Hfit _ (advance_head_in n (fl_ps d) Hps)) as Hsz2.
      rewrite u32_small by lia. lia.
  - intros fuel d a. split.
    + intros Hout. unfold flash_addr_to_page_floor, is_addr_in_flash.
      destruct (Z.geb_spec a (fl_start d)); destruct (Z.ltb_spec a (fl_end d));
        try reflexivity. exfalso. apply Hout. lia.
    + intros Hout. unfold flash_addr_to_page_ceil.
      destruct (Z.geb_spec a (fl_start d)); destruct (Z.leb_spec a (fl_end d));
        try reflexivity. exfalso. apply Hout. lia.
  - intros fuel d Hwf Hfuel.
    destruct (wf_flash_inv d Hwf) as (Hs & He & Hsz & Hps).
    destruct (flash_pages_spec fuel d (fl_end d) Hwf Hfuel ltac:(lia))
      as (n & r & Hspan & Hr & Hc & _).
    pose proof (span_nonneg n (fl_ps d) Hps) as Hnn.
    eexists. split; [exact Hc|]. split.
    + intros a Ha.
      destruct (flash_pages_spec fuel d a Hwf Hfuel ltac:(lia))
        as (m & r' & Hspan' & Hr' & _ & Hf).
      exists (Z.of_nat m). split; [apply Hf; lia|].
      assert (Hm : (m <= n)%nat /\ (r = 0 -> (m < n)%nat)).
      { split.
        - destruct (Nat.le_gt_cases m n) as [Hle|Hgt]; [exact Hle|].
          pose proof (span_mono (S n) m (fl_ps d) Hps ltac:(lia)) as Hm.
          rewrite span_S_end in Hm. lia.
        - intros Hr0. destruct (Nat.lt_ge_cases m n) as [Hlt|Hge]; [exact Hlt|].
          pose proof (span_mono n m (fl_ps d) Hps Hge) as Hm. lia. }
      destruct Hm as [Hle Hlt].
      destruct (Z.eqb_spec r 0) as [Hr0|Hr0]; [specialize (Hlt Hr0)|]; lia.
    + intros p Hp.
      assert (Hpn : span (Z.to_nat p) (fl_ps d) < fl_end d - fl_start d).
      { destruct (Z.eqb_spec r 0) as [Hr0|Hr0].
        - pose proof (span_mono (S (Z.to_nat p)) n (fl_ps d) Hps ltac:(lia)) as Hm.
          rewrite span_S_end in Hm.
          pose proof (wf_sizes_head _ (wf_sizes_advance (Z.to_nat p) _ Hps)) as Hh.
          lia.
        - pose proof (span_mono (Z.to_nat p) n (fl_ps d) Hps ltac:(lia)) as Hm. lia. }
      pose proof (span_nonneg (Z.to_nat p) (fl_ps d) Hps) as Hp0.
      assert (HP : flash_page_to_addr d p = fl_start d + span (Z.to_nat p) (fl_ps d)).
      { rewrite flash_page_to_addr_spec by lia. apply u32_small. lia. }
      rewrite HP. split; [lia|].
      destruct (flash_pages_spec fuel d (fl_start d + span (Z.to_nat p) (fl_ps d))
                  Hwf Hfuel ltac:(lia)) as (n' & r' & Hspan' & Hr' & _ & Hf').
      pose proof (wf_sizes_head _ (wf_sizes_advance (Z.to_nat p) _ Hps)) as Hh.
      destruct (span_unique (fl_ps d) (Z.to_nat p) n' 0 r' Hps ltac:(lia) ltac:(lia) Hr')
        as [<- <-].
      rewrite (Hf' ltac:(lia)). f_equal. lia.
Qed.

(** ** Commands and resynchronisation on the wire *)

Lemma ack_run_ok (d : Z) fuel evs r :
  ack_run false d fuel evs r -> r = Some STM32_ERR_OK -> acked evs.
Proof.
  induction 1 as [ | fuel | fuel | fuel b Ha Hn Hb | fuel evs r Hrun IH
                 | fuel e0 He Hto | fuel t1 evs r Hrt Hlt Hrun IH | fuel t1 Hrt Hge ];
    intros Hr; try discriminate.
  - exists 0%nat. reflexivity.
  - destruct (IH Hr) as [k Hk]. exists (S k). rewrite Hk. reflexivity.
Qed.

Section Resync.
Context `{port_h} `{libc}.

Lemma stm32_send_command_ok fuel stm c h evs :
  stm32_send_command fuel stm c h = (Some STM32_ERR_OK, evs) -> sent_command c evs.
Proof.
  unfold stm32_send_command, stm32_send_command_timeout. intros Hrun.
  apply bind_inv in Hrun.
  destruct Hrun as [(e & e1 & e2 & Hw & Hk & ->)|[_ Hr]]; [|discriminate].
  apply port_write_inv in Hw. destruct Hw as (e' & He & ->). inversion He; subst e'.
  destruct e; cbn [port_err_eqb negb] in Hk;
    try (apply ret_inv in Hk; destruct Hk; discriminate).
  apply bind_inv in Hk.
  destruct Hk as [(s & e3 & e4 & Ha & Hk & ->)|[_ Hr]]; [|discriminate].
  destruct s; cbn [stm32_err_eqb] in Hk; apply ret_inv in Hk; destruct Hk as [Hr ->];
    try discriminate.
  destruct (stm32_get_ack_timeout_run fuel stm 0 (h ++ [EvWrite [c; Z.lxor c 255] PORT_ERR_OK]))
    as (t0 & evs & Hevs & Hack).
  rewrite Ha in Hevs, Hack. cbn [fst snd] in Hevs, Hack.
  rewrite Z.eqb_refl, andb_false_r in Hevs, Hack. cbn [app] in Hevs. subst e3.
  exists evs. rewrite app_nil_r. split; [reflexivity|].
  eapply ack_run_ok; eauto.
Qed.

Lemma stm32_resync_loop_ok fuel port t0 :
  forall t1 h evs,
    stm32_resync_loop fuel port t0 t1 h = (Some STM32_ERR_OK, evs) ->
    resync_tries (t0 + STM32_RESYNC_TIMEOUT) evs.
Proof.
  induction fuel as [|fuel IH]; intros t1 h evs Hrun.
  - cbn [stm32_resync_loop] in Hrun.
    destruct (t1 <? t0 + STM32_RESYNC_TIMEOUT); inversion Hrun.
  - cbn [stm32_resync_loop] in Hrun.
    destruct (Z.ltb_spec t1 (t0 + STM32_RESYNC_TIMEOUT)) as [Hlt|Hge];
      [|apply ret_inv in Hrun; destruct Hrun; discriminate].
    apply bind_inv in Hrun.
    destruct Hrun as [(e & e1 & e2 & Hw & Hk & ->)|[_ Hr]]; [|discriminate].
    apply port_write_inv in Hw. destruct Hw as (e' & He & ->). inversion He; subst e'.
    change [STM32_CMD_ERR; Z.lxor STM32_CMD_ERR 255] with [0xFF; 0x00] in *.
    assert (Hretry : forall hh evs',
               (t1 <- time ;; stm32_resync_loop fuel port t0 t1) hh
               = (Some STM32_ERR_OK, evs') ->
               exists t evs'', evs' = EvTime t :: evs'' /\
                               t < t0 + STM32_RESYNC_TIMEOUT /\
                               resync_tries (t0 + STM32_RESYNC_TIMEOUT) evs'').
    { intros hh evs' Hb. apply bind_inv in Hb.
      destruct Hb as [(t & e3 & e4 & Ht & Hl & ->)|[_ Hr]]; [|discriminate].
      unfold time in Ht. inversion Ht; subst.
      exists (time_at hh), e4. split; [reflexivity|].
      split; [|eapply IH; eauto].
      destruct fuel; cbn [stm32_resync_loop] in Hl;
        destruct (Z.ltb_spec (time_at hh) (t0 + STM32_RESYNC_TIMEOUT)); auto;
        apply ret_inv in Hl; destruct Hl; discriminate. }
    destruct (port_err_eqb e PORT_ERR_OK) eqn:Heq; cbn [negb] in Hk.
    + apply port_err_eqb_eq in Heq. subst e.
      apply bind_inv in Hk.
      destruct Hk as [([e got] & e3 & e4 & Hrd & Hk & ->)|[_ Hr]]; [|discriminate].
      apply port_read_inv in Hrd.
      destruct Hrd as (e' & got' & Hsome & -> & Hlen & Hnil).
      inversion Hsome; subst e' got'.
      destruct (port_err_eqb e PORT_ERR_OK) eqn:Heq; cbn [negb] in Hk.
      * apply port_err_eqb_eq in Heq. subst e.
        specialize (Hlen eq_refl).
        destruct got as [|b [|b' got]]; try discriminate.
        change (idx [b] 0) with b in Hk.
        destruct (Z.eqb_spec b STM32_NACK) as [->|Hb].
        -- apply ret_inv in Hk. destruct Hk as [_ ->]. constructor.
        -- apply Hretry in Hk. destruct Hk as (t & evs'' & -> & Ht & Htries).
           cbn [app]. apply resync_other_byte; assumption.
      * assert (Hne : e <> PORT_ERR_OK).
        { intros ->. discriminate. }
        rewrite (Hnil Hne).
        apply Hretry in Hk. destruct Hk as (t & evs'' & -> & Ht & Htries).
        cbn [app]. apply resync_read_failed; assumption.
    + assert (Hne : e <> PORT_ERR_OK).
      { intros ->. discriminate. }
      apply bind_inv in Hk.
      destruct Hk as [(u & e3 & e4 & Hs & Hk & ->)|[_ Hr]]; [|discriminate].
      unfold usleep in Hs. inversion Hs; subst.
      apply Hretry in Hk. destruct Hk as (t & evs'' & -> & Ht & Htries).
      cbn [app]. apply resync_write_failed; assumption.
Qed.

Lemma stm32_resync_ok fuel stm h evs :
  stm32_resync fuel stm h = (Some STM32_ERR_OK, evs) -> resynced evs.
Proof.
  unfold stm32_resync. intros Hrun. apply bind_inv in Hrun.
  destruct Hrun as [(t & e1 & e2 & Ht & Hl & ->)|[_ Hr]]; [|discriminate].
  unfold time in Ht. inversion Ht; subst.
  exists (time_at h), e2. split; [reflexivity|].
  eapply stm32_resync_loop_ok; eauto.
Qed.

End Resync.

(** ** Replies of variable length on a frame port *)

Lemma idx_blit_0 (a got : list Z) : got <> [] -> idx (blit a 0 got) 0 = idx got 0.
Proof.
  intros Hne. unfold blit, idx. cbn [Z.to_nat firstn app].
  destruct got as [|b got]; [contradiction | reflexivity].
Qed.

Section Guess.
Context `{port_h} `{libc}.

Lemma stm32_guess_len_cmd_retry_ok fuel stm c data h data' evs :
  stm32_guess_len_cmd_retry fuel stm c data h = (Some (STM32_ERR_OK, data'), evs) ->
  exists rs cmd2 got,
    evs = rs ++ cmd2 ++ [EvRead (idx data 0 + 2) PORT_ERR_OK got] /\
    resynced rs /\ sent_command c cmd2 /\ data' = blit data 0 got.
Proof.
  unfold stm32_guess_len_cmd_retry. intros Hrun.
  apply bind_inv in Hrun.
  destruct Hrun as [(r & e1 & e2 & Hrs & Hk & ->)|[_ Hr]]; [|discriminate].
  destruct r; cbn [stm32_err_eqb negb] in Hk;
    try (apply ret_inv in Hk; destruct Hk; discriminate).
  apply stm32_resync_ok in Hrs.
  apply bind_inv in Hk.
  destruct Hk as [(s & e3 & e4 & Hs & Hk & ->)|[_ Hr]]; [|discriminate].
  destruct s; cbn [stm32_err_eqb negb] in Hk;
    try (apply ret_inv in Hk; destruct Hk; discriminate).
  apply stm32_send_command_ok in Hs.
  apply bind_inv in Hk.
  destruct Hk as [([e got] & e5 & e6 & Hrd & Hk & ->)|[_ Hr]]; [|discriminate].
  apply port_read_inv in Hrd. destruct Hrd as (e' & got' & Hsome & -> & _ & _).
  inversion Hsome; subst e' got'.
  destruct e; cbn [port_err_eqb negb] in Hk; apply ret_inv in Hk; destruct Hk as [Hr ->];
    try discriminate.
  inversion Hr; subst data'.
  exists e1, e3, got. rewrite app_nil_r. auto.
Qed.

Lemma stm32_guess_len_cmd_restart_ok fuel stm c data h data' evs :
  stm32_guess_len_cmd_restart fuel stm c data h = (Some (None, data'), evs) ->
  exists rs cmd2 L,
    evs = rs ++ cmd2 ++ [EvRead 1 PORT_ERR_OK [L]] /\
    resynced rs /\ sent_command c cmd2 /\ data' = blit data 0 [L].
Proof.
  unfold stm32_guess_len_cmd_restart. intros Hrun.
  apply bind_inv in Hrun.
  destruct Hrun as [(r & e1 & e2 & Hrs & Hk & ->)|[_ Hr]]; [|discriminate].
  destruct r; cbn [stm32_err_eqb negb] in Hk;
    try (apply ret_inv in Hk; destruct Hk; discriminate).
  apply stm32_resync_ok in Hrs.
  apply bind_inv in Hk.
  destruct Hk as [(s & e3 & e4 & Hs & Hk & ->)|[_ Hr]]; [|discriminate].
  destruct s; cbn [stm32_err_eqb negb] in Hk;
    try (apply ret_inv in Hk; destruct Hk; discriminate).
  apply stm32_send_command_ok in Hs.
  apply bind_inv in Hk.
  destruct Hk as [([e got] & e5 & e6 & Hrd & Hk & ->)|[_ Hr]]; [|discriminate].
  apply port_read_inv in Hrd. destruct Hrd as (e' & got' & Hsome & -> & Hlen & _).
  inversion Hsome; subst e' got'.
  destruct e; cbn [port_err_eqb negb] in Hk; apply ret_inv in Hk; destruct Hk as [Hr ->];
    try discriminate.
  inversion Hr; subst data'.
  specialize (Hlen eq_refl). destruct got as [|L [|L' got]]; try discriminate.
  exists e1, e3, L. rewrite app_nil_r. auto.
Qed.

Lemma restart_then_retry fuel stm c data h data' evs :
  ('(early, data) <- stm32_guess_len_cmd_restart fuel stm c data ;;
   match early with
   | Some e => ret (e, data)
   | None => stm32_guess_len_cmd_retry fuel stm c data
   end) h = (Some (STM32_ERR_OK, data'), evs) ->
  exists rs1 cmd2 L rs2 cmd3 got3,
    evs = rs1 ++ cmd2 ++ EvRead 1 PORT_ERR_OK [L]
              :: rs2 ++ cmd3 ++ [EvRead (L + 2) PORT_ERR_OK got3] /\
    resynced rs1 /\ sent_command c cmd2 /\ resynced rs2 /\ sent_command c cmd3.
Proof.
  intros Hrun. apply bind_inv in Hrun.
  destruct Hrun as [([early d] & e1 & e2 & Hb & Hk & ->)|[_ Hr]]; [|discriminate].
  destruct early as [e|].
  - assert (He : e = STM32_ERR_UNKNOWN).
    { unfold stm32_guess_len_cmd_restart in Hb.
      repeat match type of Hb with
             | bind _ _ _ = _ =>
               apply bind_inv in Hb;
               destruct Hb as [(? & ? & ? & ? & Hb & ?)|[_ Hr]]; [|discriminate]
             | (if ?b then _ else _) _ = _ => destruct b
             | (let '(_, _) := ?x in _) _ = _ => destruct x
             | ret _ _ = _ => apply ret_inv in Hb; destruct Hb as [Hb _]; inversion Hb
             end; reflexivity. }
    subst e. apply ret_inv in Hk. destruct Hk; discriminate.
  - apply stm32_guess_len_cmd_restart_ok in Hb.
    destruct Hb as (rs1 & cmd2 & L & -> & Hrs1 & Hc2 & ->).
    apply stm32_guess_len_cmd_retry_ok in Hk.
    destruct Hk as (rs2 & cmd3 & got3 & -> & Hrs2 & Hc3 & _).
    rewrite idx_blit_0 by discriminate. change (idx [L] 0) with L.
    exists rs1, cmd2, L, rs2, cmd3, got3.
    split; [|auto]. rewrite <- !app_assoc. reflexivity.
Qed.

Lemma stm32_guess_len_cmd_retry_perform fuel stm c data h :
  let run := stm32_guess_len_cmd_retry fuel stm c data h in
  let p := perform fuel stm [StepResync; StepSend c; StepRead (idx data 0 + 2)] h in
  snd run = snd p /\ result_is (fst run) (fst p).
Proof.
  cbv zeta. unfold stm32_guess_len_cmd_retry, bind, ret.
  cbn [perform step_run]. unfold port_read.
  destruct (stm32_resync fuel stm h) as [[r|] e1];
    [|cbn [option_map fst snd result_is]; auto].
  destruct r; cbn [option_map stm32_err_eqb negb fst snd result_is];
    rewrite ?app_nil_r; try (split; [reflexivity|eauto]).
  destruct (stm32_send_command fuel stm c (h ++ e1)) as [[s|] e2];
    [|cbn [option_map fst snd result_is]; auto].
  destruct s; cbn [option_map stm32_err_eqb negb fst snd result_is];
    rewrite ?app_nil_r; try (split; [reflexivity|eauto]).
  destruct (read (port stm) ((h ++ e1) ++ e2) (idx data 0 + 2)) as [e bs].
  destruct e; cbn [option_map port_err_eqb negb fst snd result_is];
    rewrite ?app_nil_r; split; eauto.
Qed.

Lemma stm32_guess_len_cmd_restart_perform fuel stm c data h :
  let run := stm32_guess_len_cmd_restart fuel stm c data h in
  let p := perform fuel stm [StepResync; StepSend c; StepRead 1] h in
  snd run = snd p /\
  match fst p with
  | Done => exists L pre, snd p = pre ++ [EvRead 1 PORT_ERR_OK [L]] /\
                          fst run = Some (None, blit data 0 [L])
  | Failed => fst run = Some (Some STM32_ERR_UNKNOWN, data)
  | Cut => fst run = None
  end.
Proof.
  cbv zeta. unfold stm32_guess_len_cmd_restart, bind, ret.
  cbn [perform step_run]. unfold port_read.
  destruct (stm32_resync fuel stm h) as [[r|] e1];
    [|cbn [option_map fst snd]; auto].
  destruct r; cbn [option_map stm32_err_eqb negb fst snd];
    rewrite ?app_nil_r; try (split; reflexivity).
  destruct (stm32_send_command fuel stm c (h ++ e1)) as [[s|] e2];
    [|cbn [option_map fst snd]; auto].
  destruct s; cbn [option_map stm32_err_eqb negb fst snd];
    rewrite ?app_nil_r; try (split; reflexivity).
  destruct (read (port stm) ((h ++ e1) ++ e2) 1) as [e bs].
  destruct e; cbn [option_map port_err_eqb negb fst snd];
    rewrite ?app_nil_r; try (split; reflexivity).
  split; [reflexivity|].
  rewrite (fit_one bs).
  exists (idx (fit 1 bs) 0), (e1 ++ e2). split; [|reflexivity].
  rewrite <- app_assoc. reflexivity.
Qed.

Lemma restart_retry_perform fuel stm c data h :
  let run :=
    ('(early, data) <- stm32_guess_len_cmd_restart fuel stm c data ;;
     match early with
     | Some e => ret (e, data)
     | None => stm32_guess_len_cmd_retry fuel stm c data
     end) h in
  let p1 := perform fuel stm [StepResync; StepSend c; StepRead 1] h in
  (fst p1 <> Done -> snd run = snd p1 /\ result_is (fst run) (fst p1)) /\
  (fst p1 = Done ->
     exists L pre,
       snd p1 = pre ++ [EvRead 1 PORT_ERR_OK [L]] /\
       let p2 := perform fuel stm [StepResync; StepSend c; StepRead (L + 2)] (h ++ snd p1) in
       snd run = snd p1 ++ snd p2 /\ result_is (fst run) (fst p2)).
Proof.
  cbv zeta.
  pose proof (stm32_guess_len_cmd_restart_perform fuel stm c data h) as Hp.
  cbv zeta in Hp. destruct Hp as [Hev Hres].
  destruct (stm32_guess_len_cmd_restart fuel stm c data h) as [r1 ev1] eqn:Hrun.
  cbn [fst snd] in Hev, Hres. subst ev1.
  destruct (fst (perform fuel stm [StepResync; StepSend c; StepRead 1] h)) eqn:Ho.
  - destruct Hres as (L & pre & Hshape & ->).
    split; [intros Hx; congruence|]. intros _.
    exists L, pre. split; [exact Hshape|]. cbv zeta.
    rewrite (bind_some _ _ _ _ _ Hrun). cbv beta iota. cbn [fst snd].
    pose proof (stm32_guess_len_cmd_retry_perform fuel stm c (blit data 0 [L])
                  (h ++ snd (perform fuel stm [StepResync; StepSend c; StepRead 1] h)))
      as Hq.
    cbv zeta in Hq. rewrite idx_blit_0 in Hq by discriminate.
    change (idx [L] 0) with L in Hq. destruct Hq as [Hq1 Hq2].
    split; [rewrite Hq1; reflexivity|exact Hq2].
  - subst r1. split; [|intros Hx; discriminate]. intros _.
    rewrite (bind_some _ _ _ _ _ Hrun). cbv beta iota. unfold ret. cbn [fst snd result_is].
    rewrite app_nil_r. eauto.
  - subst r1. split; [|intros Hx; discriminate]. intros _.
    rewrite (bind_none _ _ _ _ Hrun). cbn [fst snd result_is]. auto.
Qed.

End Guess.

Lemma stm32_guess_len_cmd_frame_ok `{port_h} `{libc} :
  forall (fuel : nat) (stm : stm32_t) (c : Z) (data : list Z) (len : Z) (h : history)
         (data' : list Z) (evs : list event),
    has_flag (flags (port stm)) PORT_BYTE = false ->
    0 <= len < 4294967294 ->
    stm32_guess_len_cmd fuel stm c data len h = (Some (STM32_ERR_OK, data'), evs) ->
    exists cmd1 e got rest,
      evs = cmd1 ++ EvRead (len + 2) e got :: rest /\
      sent_command c cmd1 /\
      ((e = PORT_ERR_OK /\ idx got 0 = len /\ rest = []) \/
       (e = PORT_ERR_OK /\ idx got 0 <> len /\
        exists rs cmd2 got2,
          rest = rs ++ cmd2 ++ [EvRead (idx got 0 + 2) PORT_ERR_OK got2] /\
          resynced rs /\ sent_command c cmd2) \/
       (e <> PORT_ERR_OK /\
        exists rs1 cmd2 L rs2 cmd3 got3,
          rest = rs1 ++ cmd2 ++ EvRead 1 PORT_ERR_OK [L]
                     :: rs2 ++ cmd3 ++ [EvRead (L + 2) PORT_ERR_OK got3] /\
          resynced rs1 /\ sent_command c cmd2 /\
          resynced rs2 /\ sent_command c cmd3)).
Proof.
  intros fuel stm c data len h data' evs Hframe Hlen Hrun.
  unfold stm32_guess_len_cmd in Hrun.
  apply bind_inv in Hrun.
  destruct Hrun as [(s & e1 & e2 & Hs & Hk & ->)|[_ Hr]]; [|discriminate].
  destruct s; cbn [stm32_err_eqb negb] in Hk;
    try (apply ret_inv in Hk; destruct Hk; discriminate).
  apply stm32_send_command_ok in Hs.
  rewrite Hframe in Hk.
  apply bind_inv in Hk.
  destruct Hk as [([e got] & e3 & e4 & Hrd & Hk & ->)|[_ Hr]]; [|discriminate].
  apply port_read_inv in Hrd. destruct Hrd as (e' & got' & Hsome & -> & Hgot & _).
  inversion Hsome; subst e' got'.
  rewrite u32_small in * by lia.
  exists e1, e, got, e4. split; [reflexivity|]. split; [exact Hs|].
  assert (Hretry : forall d hh dd ee,
             stm32_guess_len_cmd_retry fuel stm c d hh = (Some (STM32_ERR_OK, dd), ee) ->
             exists rs cmd2 got2,
               ee = rs ++ cmd2 ++ [EvRead (idx d 0 + 2) PORT_ERR_OK got2] /\
               resynced rs /\ sent_command c cmd2).
  { intros d hh dd ee Hr. apply stm32_guess_len_cmd_retry_ok in Hr.
    destruct Hr as (rs & cmd2 & got2 & He & Hrs & Hc & _).
    exists rs, cmd2, got2. auto. }
  destruct e; cbn [port_err_eqb negb andb] in Hk.
  - (* the read succeeded *)
    assert (Hne : got <> []).
    { specialize (Hgot eq_refl). intros ->. simpl in Hgot. lia. }
    rewrite (idx_blit_0 data got Hne) in Hk.
    destruct (Z.eqb_spec len (idx got 0)) as [Heq|Hneq].
    + apply ret_inv in Hk. destruct Hk as [_ ->]. left. repeat split; congruence.
    + right. left. split; [reflexivity|]. split; [congruence|].
      apply bind_inv in Hk.
      destruct Hk as [([early d] & e5 & e6 & Hb & Hk & ->)|[_ Hr]]; [|discriminate].
      apply ret_inv in Hb. destruct Hb as [Hb ->]. inversion Hb; subst early d.
      cbn [app]. apply Hretry in Hk.
      rewrite (idx_blit_0 data got Hne) in Hk. exact Hk.
  - right. right. split; [discriminate|]. eapply restart_then_retry. exact Hk.
  - right. right. split; [discriminate|]. eapply restart_then_retry. exact Hk.
Qed.

Lemma perform_resync_first `{port_h} `{libc} fuel stm steps h :
  exists rest, snd (perform fuel stm (StepResync :: steps) h)
               = snd (stm32_resync fuel stm h) ++ rest.
Proof.
  cbn [perform step_run].
  destruct (stm32_resync fuel stm h) as [[r|] e1]; cbn [option_map snd].
  - destruct (stm32_err_eqb r STM32_ERR_OK).
    + destruct (perform fuel stm steps (h ++ e1)) as [o e2]. exists e2. reflexivity.
    + exists []. cbn [snd]. rewrite app_nil_r. reflexivity.
  - exists []. cbn [snd]. rewrite app_nil_r. reflexivity.
Qed.

Lemma stm32_guess_len_cmd_frame_steps `{port_h} `{libc} :
  forall (fuel : nat) (stm : stm32_t) (c : Z) (data : list Z) (len : Z) (h : history),
    has_flag (flags (port stm)) PORT_BYTE = false ->
    0 <= len < 4294967294 ->
    let run := stm32_guess_len_cmd fuel stm c data len h in
    forall cmd1,
      stm32_send_command fuel stm c h = (Some STM32_ERR_OK, cmd1) ->
      exists e got rest,
        snd run = cmd1 ++ EvRead (len + 2) e got :: rest /\
        let h1 := (h ++ cmd1) ++ [EvRead (len + 2) e got] in
        (e = PORT_ERR_OK -> idx got 0 = len ->
           rest = [] /\ fst run = Some (STM32_ERR_OK, blit data 0 got)) /\
        (e = PORT_ERR_OK -> idx got 0 <> len ->
           let p := perform fuel stm
                      [StepResync; StepSend c; StepRead (idx got 0 + 2)] h1 in
           rest = snd p /\ result_is (fst run) (fst p)) /\
        (e <> PORT_ERR_OK ->
           let p1 := perform fuel stm [StepResync; StepSend c; StepRead 1] h1 in
           (fst p1 <> Done -> rest = snd p1 /\ result_is (fst run) (fst p1)) /\
           (fst p1 = Done ->
              exists L pre,
                snd p1 = pre ++ [EvRead 1 PORT_ERR_OK [L]] /\
                let p2 := perform fuel stm
                            [StepResync; StepSend c; StepRead (L + 2)] (h1 ++ snd p1) in
                rest = snd p1 ++ snd p2 /\ result_is (fst run) (fst p2))).
Proof.
  intros fuel stm c data len h Hframe Hlen run.
    intros cmd1 Hcmd. subst run.
  unfold stm32_guess_len_cmd.
  rewrite (bind_some _ _ h STM32_ERR_OK cmd1 Hcmd).
  cbn [stm32_err_eqb negb]. rewrite Hframe. rewrite (u32_small (len + 2)) by lia.
  cbn [fst snd].
  match goal with
  | |- context [bind (port_read ?pt ?n) ?k (h ++ cmd1)] =>
    set (K := k);
    assert (Hb : forall x ev, port_read pt n (h ++ cmd1) = (Some x, ev) ->
               bind (port_read pt n) K (h ++ cmd1)
               = (fst (K x ((h ++ cmd1) ++ ev)), ev ++ snd (K x ((h ++ cmd1) ++ ev))))
      by (intros x ev Hx; apply bind_some; exact Hx)
  end.
  unfold port_read in Hb at 1.
  destruct (read (port stm) (h ++ cmd1) (len + 2)) as [e bs].
  rewrite (Hb _ _ eq_refl). clear Hb. cbn [fst snd app]. subst K. cbv beta iota zeta.
  destruct e.
  - (* the read succeeded *)
    set (got := fit (len + 2) bs) in *.
    assert (Hne : got <> []).
    { unfold got, fit. intros Hnil. apply (f_equal (@length Z)) in Hnil.
      rewrite length_firstn, length_app, repeat_length in Hnil. cbn [length] in Hnil. lia. }
    exists PORT_ERR_OK, got. eexists. split; [reflexivity|].
    cbn [port_err_eqb negb andb].
    rewrite (idx_blit_0 data got Hne).
    destruct (Z.eqb_spec len (idx got 0)) as [Heq|Hneq].
    + split; [intros _ _; split; reflexivity|].
      split; [intros _ Hx; congruence|intros Hx; congruence].
    + split; [intros _ Hx; congruence|].
      split; [|intros Hx; congruence].
      intros _ _.
      rewrite (bind_some (ret (None, blit data 0 got)) _ _ (None, blit data 0 got) [] eq_refl).
      cbv beta iota. rewrite app_nil_r. cbn [app fst snd].
      pose proof (stm32_guess_len_cmd_retry_perform fuel stm c (blit data 0 got)
                    ((h ++ cmd1) ++ [EvRead (len + 2) PORT_ERR_OK got])) as Hp.
      cbv zeta in Hp. rewrite (idx_blit_0 data got Hne) in Hp. exact Hp.
  - (* the read timed out *)
    eexists PORT_ERR_TIMEDOUT, [], _. split; [reflexivity|].
    cbn [port_err_eqb negb andb].
    split; [intros Hx; discriminate|]. split; [intros Hx; discriminate|].
    intros _.
    apply restart_retry_perform.
  - eexists _, [], _. split; [reflexivity|].
    cbn [port_err_eqb negb andb].
    split; [intros Hx; discriminate|]. split; [intros Hx; discriminate|].
    intros _.
    apply restart_retry_perform.
Qed.

(** C5, as amended: on a frame port, [stm32_guess_len_cmd] sends the
    command and, once it is acknowledged, reads [len + 2] bytes.  It
    - stops there with OK when the read succeeded with [len] as leading
      byte;
    - when the read succeeded with another leading byte L: issues Resync,
      sends the command again and reads L + 2 bytes, with no read of one
      byte in between;
    - when the read failed: issues Resync, sends the command again, reads
      one byte to find the length L, and then issues Resync once more,
      sends the command again and reads L + 2 bytes.
    Whenever the first read fails or disagrees the events of a Resync
    follow it.  The steps are taken in this order whatever the outcome:
    each step is taken exactly when the one before succeeded, the call
    returns UNKNOWN at the first step that fails and OK when the last one
    succeeded.  For the calls that return OK the events are spelt out. *)
Theorem stm32_guess_len_cmd_frame_port `{port_h} `{libc} :
  forall (fuel : nat) (stm : stm32_t) (c : Z) (data : list Z) (len : Z) (h : history),
    has_flag (flags (port stm)) PORT_BYTE = false ->
    0 <= len < 4294967294 ->
    let run := stm32_guess_len_cmd fuel stm c data len h in
    (fst (stm32_send_command fuel stm c h) <> Some STM32_ERR_OK ->
       snd run = snd (stm32_send_command fuel stm c h) /\
       (fst run = None \/ fst run = Some (STM32_ERR_UNKNOWN, data))) /\
    (forall cmd1,
       stm32_send_command fuel stm c h = (Some STM32_ERR_OK, cmd1) ->
       exists e got rest,
         snd run = cmd1 ++ EvRead (len + 2) e got :: rest /\
         let h1 := (h ++ cmd1) ++ [EvRead (len + 2) e got] in
         (e <> PORT_ERR_OK \/ idx got 0 <> len ->
            exists rest', rest = snd (stm32_resync fuel stm h1) ++ rest') /\
         (e = PORT_ERR_OK -> idx got 0 = len ->
            rest = [] /\ fst run = Some (STM32_ERR_OK, blit data 0 got)) /\
         (e = PORT_ERR_OK -> idx got 0 <> len ->
            let p := perform fuel stm
                       [StepResync; StepSend c; StepRead (idx got 0 + 2)] h1 in
            rest = snd p /\ result_is (fst run) (fst p)) /\
         (e <> PORT_ERR_OK ->
            let p1 := perform fuel stm [StepResync; StepSend c; StepRead 1] h1 in
            (fst p1 <> Done -> rest = snd p1 /\ result_is (fst run) (fst p1)) /\
            (fst p1 = Done ->
               exists L pre,
                 snd p1 = pre ++ [EvRead 1 PORT_ERR_OK [L]] /\
                 let p2 := perform fuel stm
                             [StepResync; StepSend c; StepRead (L + 2)] (h1 ++ snd p1) in
                 rest = snd p1 ++ snd p2 /\ result_is (fst run) (fst p2)))) /\
    (forall (data' : list Z) (evs : list event),
       run = (Some (STM32_ERR_OK, data'), evs) ->
       exists cmd1 e got rest,
         evs = cmd1 ++ EvRead (len + 2) e got :: rest /\
         sent_command c cmd1 /\
         ((e = PORT_ERR_OK /\ idx got 0 = len /\ rest = []) \/
          (e = PORT_ERR_OK /\ idx got 0 <> len /\
           exists rs cmd2 got2,
             rest = rs ++ cmd2 ++ [EvRead (idx got 0 + 2) PORT_ERR_OK got2] /\
             resynced rs /\ sent_command c cmd2) \/
          (e <> PORT_ERR_OK /\
           exists rs1 cmd2 L rs2 cmd3 got3,
             rest = rs1 ++ cmd2 ++ EvRead 1 PORT_ERR_OK [L]
                        :: rs2 ++ cmd3 ++ [EvRead (L + 2) PORT_ERR_OK got3] /\
             resynced rs1 /\ sent_command c cmd2 /\
             resynced rs2 /\ sent_command c cmd3))).
Proof.
  intros fuel stm c data len h Hframe Hlen run.
  split; [|split].
  - (* the command is not acknowledged *)
    intros Hs. subst run. unfold stm32_guess_len_cmd, bind.
    destruct (stm32_send_command fuel stm c h) as [[[]|] cmd1]; cbn [fst snd] in *;
      try contradiction; cbn [stm32_err_eqb negb ret fst snd]; rewrite ?app_nil_r; auto.
  - (* the command is acknowledged *)
    intros cmd1 Hcmd.
    destruct (stm32_guess_len_cmd_frame_steps fuel stm c data len h Hframe Hlen cmd1 Hcmd)
      as (e & got & rest & Hevs & Hsame & Hother & Hfail).
    exists e, got, rest. split; [exact Hevs|]. cbv zeta.
    split; [|split; [exact Hsame|split; [exact Hother|exact Hfail]]].
    intros Hcase.
    assert (He : e <> PORT_ERR_OK \/ (e = PORT_ERR_OK /\ idx got 0 <> len)).
    { destruct e; [right; split; [reflexivity|]|left; discriminate|left; discriminate].
      destruct Hcase as [Hx|Hx]; [contradiction|exact Hx]. }
    destruct He as [He|[He Hne]].
    + destruct (Hfail He) as [Hstop Hgo]. cbv zeta in Hstop, Hgo.
      destruct (perform_resync_first fuel stm [StepSend c; StepRead 1]
                  ((h ++ cmd1) ++ [EvRead (len + 2) e got])) as [r1 Hr1].
      destruct (fst (perform fuel stm [StepResync; StepSend c; StepRead 1]
                       ((h ++ cmd1) ++ [EvRead (len + 2) e got]))) eqn:Ho.
      * destruct (Hgo eq_refl) as (L & pre & _ & Hrest & _).
        rewrite Hrest, Hr1, <- app_assoc. eexists. reflexivity.
      * destruct Hstop as [Hrest _]; [discriminate|].
        rewrite Hrest, Hr1. eexists. reflexivity.
      * destruct Hstop as [Hrest _]; [discriminate|].
        rewrite Hrest, Hr1. eexists. reflexivity.
    + destruct (Hother He Hne) as [Hrest _]. cbv zeta in Hrest.
      rewrite Hrest. apply perform_resync_first.
  - intros data' evs Hrun.
    exact (stm32_guess_len_cmd_frame_ok fuel stm c data len h data' evs Hframe Hlen Hrun).
Qed.

(** ** Erase frames *)

Lemma pages_erase_loop (n : nat) :
  forall (p : Z) (buf : list Z) (i cs : Z) buf' i' cs',
    0 <= i ->
    for_range n p
      (fun pg_num '(buf, i, cs) => (upd i (u8 pg_num) buf, i + 1, u8 (Z.lxor cs pg_num)))
      (buf, i, cs) = (buf', i', cs') ->
    i' = i + Z.of_nat n /\ length buf' = length buf /\
    (forall j, 0 <= j < i -> idx buf' j = idx buf j).
Proof.
  induction n as [|n IH]; intros p buf i cs buf' i' cs' Hi Hrun.
  - simpl in Hrun. inversion Hrun; subst. split; [lia|]. auto.
  - cbn [for_range] in Hrun. apply IH in Hrun; [|lia].
    destruct Hrun as (Hi' & Hl & Hj). rewrite length_upd in Hl.
    split; [lia|]. split; [exact Hl|].
    intros j Hjr. rewrite Hj by lia. apply idx_upd_neq; lia.
Qed.

Lemma pages_erase_ext_loop (n : nat) :
  forall (p : Z) (buf : list Z) (i cs : Z) buf' i' cs',
    0 <= i ->
    for_range n p
      (fun pg_num '(buf, i, cs) =>
         (upd (i + 1) (u8 (Z.land pg_num 0xFF)) (upd i (u8 (Z.shiftr pg_num 8)) buf),
          i + 1 + 1,
          Z.lxor (Z.lxor cs (u8 (Z.shiftr pg_num 8))) (u8 (Z.land pg_num 0xFF))))
      (buf, i, cs) = (buf', i', cs') ->
    i' = i + 2 * Z.of_nat n /\ length buf' = length buf /\
    (forall j, 0 <= j < i -> idx buf' j = idx buf j).
Proof.
  induction n as [|n IH]; intros p buf i cs buf' i' cs' Hi Hrun.
  - simpl in Hrun. inversion Hrun; subst. split; [lia|]. auto.
  - cbn [for_range] in Hrun. apply IH in Hrun; [|lia].
    destruct Hrun as (Hi' & Hl & Hj). rewrite !length_upd in Hl.
    split; [lia|]. split; [exact Hl|].
    intros j Hjr. rewrite Hj by lia. rewrite !idx_upd_neq by lia. reflexivity.
Qed.

(** A frame of pages for the one-byte protocol: [pages + 2] bytes, the
    first of them [pages - 1]. *)
Lemma pages_erase_frame_shape (spage pages : Z) :
  0 <= spage -> 1 <= pages -> spage + pages < 2147483648 ->
  length (pages_erase_frame spage pages) = Z.to_nat (pages + 2) /\
  idx (pages_erase_frame spage pages) 0 = u8 (pages - 1).
Proof.
  intros Hs Hp Hsum. unfold pages_erase_frame, for_loop.
  rewrite (u32_small (1 + pages + 1)), (u32_small (pages + spage)) by lia.
  set (buf0 := upd 0 (u8 (pages - 1)) (repeat 0 (Z.to_nat (1 + pages + 1)))).
  assert (Hl0 : length buf0 = Z.to_nat (pages + 2)).
  { unfold buf0. rewrite length_upd, repeat_length. lia. }
  assert (H00 : idx buf0 0 = u8 (pages - 1)).
  { unfold buf0. apply idx_upd_eq. rewrite repeat_length. lia. }
  destruct (for_range _ spage _ (buf0, 1, _)) as [[buf' i'] cs'] eqn:E.
  apply pages_erase_loop in E; [|lia]. destruct E as (Hi & Hl & Hj).
  rewrite length_firstn, length_upd, Hl, Hl0.
  split; [lia|].
  rewrite idx_firstn by lia. rewrite idx_upd_neq by lia.
  rewrite Hj by lia. exact H00.
Qed.

(** A frame of pages for the two-byte protocol: [2 pages + 3] bytes. *)
Lemma pages_erase_frame_ext_shape (spage pages : Z) :
  0 <= spage -> 1 <= pages <= 512 -> spage + pages < 2147483648 ->
  length (pages_erase_frame_ext spage pages) = Z.to_nat (2 * pages + 3).
Proof.
  intros Hs Hp Hsum. unfold pages_erase_frame_ext, for_loop.
  rewrite (u32_small (2 + 2 * pages + 1)), (u32_small (spage + pages)) by lia.
  set (buf0 := repeat 0 (Z.to_nat (2 + 2 * pages + 1))).
  assert (Hl0 : length buf0 = Z.to_nat (2 * pages + 3)).
  { unfold buf0. rewrite repeat_length. lia. }
  destruct (for_range _ spage _ _) as [[buf' i'] cs'] eqn:E.
  apply pages_erase_ext_loop in E; [|lia]. destruct E as (Hi & Hl & Hj).
  rewrite length_firstn, length_upd, Hl, !length_upd, Hl0. lia.
Qed.

(** ** The content of the erase frames *)

Lemma u8_lxor (a b : Z) : u8 (Z.lxor a b) = Z.lxor (u8 a) (u8 b).
Proof.
  unfold u8. change 256 with (2 ^ 8).
  apply Z.bits_inj'. intros n Hn.
  rewrite Z.lxor_spec, !Z.testbit_mod_pow2, Z.lxor_spec by lia.
  destruct (n <? 8); reflexivity.
Qed.

Lemma u8_idem (a : Z) : u8 (u8 a) = u8 a.
Proof.
  unfold u8. apply Z.mod_mod. lia.
Qed.

Lemma fold_u8_lxor (l : list Z) (cs : Z) :
  fold_left (fun c pg => u8 (Z.lxor c pg)) l (u8 cs)
  = fold_left Z.lxor (map u8 l) (u8 cs).
Proof.
  revert cs. induction l as [|x l IH]; intros cs; cbn [fold_left map]; [reflexivity|].
  rewrite u8_lxor, u8_idem, <- u8_lxor. apply IH.
Qed.

Lemma pages_erase_loop_content (n : nat) :
  forall (p : Z) (buf : list Z) (k : nat) (cs : Z) buf' i' cs',
    (k + n <= length buf)%nat ->
    for_range n p
      (fun pg_num '(buf, i, cs) => (upd i (u8 pg_num) buf, i + 1, u8 (Z.lxor cs pg_num)))
      (buf, Z.of_nat k, cs) = (buf', i', cs') ->
    i' = Z.of_nat (k + n) /\ length buf' = length buf /\
    firstn (k + n) buf' = firstn k buf ++ map u8 (zseq p n) /\
    cs' = fold_left (fun c pg => u8 (Z.lxor c pg)) (zseq p n) cs.
Proof.
  induction n as [|n IH]; intros p buf k cs buf' i' cs' Hroom Hrun.
  - cbn [for_range] in Hrun. inversion Hrun; subst.
    rewrite Nat.add_0_r, app_nil_r. auto.
  - cbn [for_range] in Hrun.
    replace (Z.of_nat k + 1) with (Z.of_nat (S k)) in Hrun by lia.
    apply IH in Hrun; [|rewrite length_upd; lia].
    destruct Hrun as (Hi & Hl & Hf & Hcs). rewrite length_upd in Hl.
    replace (k + S n)%nat with (S k + n)%nat by lia.
    split; [exact Hi|]. split; [exact Hl|]. split; [|exact Hcs].
    rewrite Hf. unfold upd. rewrite Nat2Z.id, firstn_upd_nat_snoc by lia.
    rewrite <- app_assoc. reflexivity.
Qed.

Lemma pages_erase_ext_loop_content (n : nat) :
  forall (p : Z) (buf : list Z) (k : nat) (cs : Z) buf' i' cs',
    (k + 2 * n <= length buf)%nat ->
    for_range n p
      (fun pg_num '(buf, i, cs) =>
         (upd (i + 1) (u8 (Z.land pg_num 0xFF)) (upd i (u8 (Z.shiftr pg_num 8)) buf),
          i + 1 + 1,
          Z.lxor (Z.lxor cs (u8 (Z.shiftr pg_num 8))) (u8 (Z.land pg_num 0xFF))))
      (buf, Z.of_nat k, cs) = (buf', i', cs') ->
    i' = Z.of_nat (k + 2 * n) /\ length buf' = length buf /\
    firstn (k + 2 * n) buf'
    = firstn k buf
      ++ flat_map (fun pg => [u8 (Z.shiftr pg 8); u8 (Z.land pg 0xFF)]) (zseq p n) /\
    cs' = fold_left Z.lxor
            (flat_map (fun pg => [u8 (Z.shiftr pg 8); u8 (Z.land pg 0xFF)]) (zseq p n)) cs.
Proof.
  induction n as [|n IH]; intros p buf k cs buf' i' cs' Hroom Hrun.
  - cbn [for_range] in Hrun. inversion Hrun; subst.
    rewrite Nat.mul_0_r, Nat.add_0_r, app_nil_r. auto.
  - cbn [for_range] in Hrun.
    replace (Z.of_nat k + 1 + 1) with (Z.of_nat (S (S k))) in Hrun by lia.
    apply IH in Hrun; [|rewrite !length_upd; lia].
    destruct Hrun as (Hi & Hl & Hf & Hcs). rewrite !length_upd in Hl.
    replace (k + 2 * S n)%nat with (S (S k) + 2 * n)%nat by lia.
    split; [exact Hi|]. split; [exact Hl|]. split; [|exact Hcs].
    rewrite Hf. cbn [zseq flat_map app]. unfold upd.
    replace (Z.to_nat (Z.of_nat k + 1)) with (S k) by lia. rewrite Nat2Z.id.
    rewrite firstn_upd_nat_snoc by (rewrite length_upd_nat; lia).
    rewrite firstn_upd_nat_snoc by lia.
    rewrite <- !app_assoc. reflexivity.
Qed.

Lemma xor_all_from (l : list Z) (v : Z) : fold_left Z.lxor l v = Z.lxor v (xor_all l).
Proof.
  unfold xor_all. revert v. induction l as [|x l IH]; intros v; cbn [fold_left].
  - rewrite Z.lxor_0_r. reflexivity.
  - rewrite IH, (IH (Z.lxor 0 x)), Z.lxor_0_l, Z.lxor_assoc. reflexivity.
Qed.

(** The frames of a page erase of up to 512 pages, byte by byte: every
    field is reduced to one byte as the code stores it. *)
Lemma pages_erase_frames_u8 :
  forall (spage pages : Z),
    0 <= spage -> 1 <= pages <= 512 -> spage + pages < 2147483648 ->
    let numbers := zseq spage (Z.to_nat pages) in
    let body := u8 (pages - 1) :: map u8 numbers in
    let body_ext :=
      [u8 (Z.shiftr (pages - 1) 8); u8 (Z.land (pages - 1) 0xFF)]
      ++ flat_map (fun pg => [u8 (Z.shiftr pg 8); u8 (Z.land pg 0xFF)]) numbers in
    pages_erase_frame spage pages = body ++ [xor_all body] /\
    pages_erase_frame_ext spage pages = body_ext ++ [xor_all body_ext].
Proof.
  intros spage pages Hs Hp Hsum numbers body body_ext. split.
  - unfold pages_erase_frame, for_loop.
    rewrite (u32_small (1 + pages + 1)), (u32_small (pages + spage)),
      (u32_small (pages - 1)) by lia.
    replace (pages + spage - spage) with pages by lia.
    set (buf0 := upd 0 (u8 (pages - 1)) (repeat 0 (Z.to_nat (1 + pages + 1)))).
    assert (Hl0 : length buf0 = Z.to_nat (pages + 2)).
    { unfold buf0. rewrite length_upd, repeat_length. lia. }
    assert (H00 : firstn 1 buf0 = [u8 (pages - 1)]).
    { unfold buf0, upd. change (Z.to_nat 0) with O.
      rewrite (firstn_upd_nat_snoc 0) by (rewrite repeat_length; lia). reflexivity. }
    destruct (for_range _ spage _ (buf0, 1, _)) as [[buf' i'] cs'] eqn:E.
    apply (pages_erase_loop_content _ _ _ 1%nat) in E; [|lia].
    destruct E as (-> & Hl & Hf & ->).
    rewrite H00 in Hf. fold numbers in Hf.
    replace (Z.to_nat (Z.of_nat (1 + Z.to_nat pages) + 1))
      with (S (1 + Z.to_nat pages)) by lia.
    unfold upd. rewrite Nat2Z.id, firstn_upd_nat_snoc by lia.
    rewrite Hf. cbn [app]. fold body. f_equal. f_equal.
    rewrite Z.lxor_0_l. fold numbers. rewrite fold_u8_lxor.
    unfold body, xor_all. cbn [fold_left]. rewrite Z.lxor_0_l. reflexivity.
  - unfold pages_erase_frame_ext, for_loop.
    rewrite (u32_small (2 + 2 * pages + 1)), (u32_small (spage + pages)),
      (u32_small (pages - 1)) by lia.
    replace (spage + pages - spage) with pages by lia.
    set (hi := u8 (Z.shiftr (pages - 1) 8)).
    set (lo := u8 (Z.land (pages - 1) 255)).
    set (buf0 := upd (1 + 1 - 1) lo (upd 0 hi (repeat 0 (Z.to_nat (2 + 2 * pages + 1))))).
    change (1 + 1) with 2.
    assert (Hl0 : length (upd 1 lo (upd 0 hi (repeat 0 (Z.to_nat (2 + 2 * pages + 1)))))
                  = Z.to_nat (2 * pages + 3)).
    { rewrite !length_upd, repeat_length. lia. }
    assert (H00 : firstn 2 (upd 1 lo (upd 0 hi (repeat 0 (Z.to_nat (2 + 2 * pages + 1)))))
                  = [hi; lo]).
    { unfold upd. change (Z.to_nat 0) with O. change (Z.to_nat 1) with 1%nat.
      rewrite (firstn_upd_nat_snoc 1) by (rewrite length_upd_nat, repeat_length; lia).
      rewrite (firstn_upd_nat_snoc 0) by (rewrite repeat_length; lia). reflexivity. }
    match goal with
    | |- context [for_range ?n spage ?f ?s] =>
      destruct (for_range n spage f s) as [[buf' i'] cs'] eqn:E
    end.
    apply (pages_erase_ext_loop_content _ _ _ 2%nat) in E; [|lia].
    destruct E as (-> & Hl & Hf & ->).
    rewrite H00 in Hf. fold numbers in Hf.
    replace (Z.to_nat (Z.of_nat (2 + 2 * Z.to_nat pages) + 1))
      with (S (2 + 2 * Z.to_nat pages)) by lia.
    unfold upd. rewrite Nat2Z.id, firstn_upd_nat_snoc by lia.
    rewrite Hf. fold body_ext. reflexivity.
Qed.

(** ** The frames of the code and the frames of the protocol table *)

Lemma map_id_in {A : Type} (f : A -> A) (l : list A) :
  (forall x, In x l -> f x = x) -> map f l = l.
Proof.
  induction l as [|a l IH]; intros Hf; cbn [map]; [reflexivity|].
  rewrite (Hf a) by (left; reflexivity).
  rewrite IH by (intros x Hx; apply Hf; right; exact Hx). reflexivity.
Qed.

Lemma flat_map_ext_in {A B : Type} (f g : A -> list B) (l : list A) :
  (forall x, In x l -> f x = g x) -> flat_map f l = flat_map g l.
Proof.
  induction l as [|a l IH]; intros Hf; cbn [flat_map]; [reflexivity|].
  rewrite (Hf a) by (left; reflexivity).
  rewrite IH by (intros x Hx; apply Hf; right; exact Hx). reflexivity.
Qed.

Lemma high_byte (v : Z) : 0 <= v < 65536 -> u8 (Z.shiftr v 8) = v / 256.
Proof.
  intros Hv. rewrite Z.shiftr_div_pow2 by lia. change (2 ^ 8) with 256.
  apply u8_small. split; [apply Z.div_pos; lia|].
  apply Z.div_lt_upper_bound; lia.
Qed.

Lemma low_byte (v : Z) : u8 (Z.land v 0xFF) = v mod 256.
Proof.
  change 0xFF with (Z.ones 8). rewrite Z.land_ones by lia. change (2 ^ 8) with 256.
  unfold u8. apply Z.mod_mod. lia.
Qed.

(** While page count and page numbers fit their fields, the buffer that
    [stm32_pages_erase] builds is the frame of the protocol table. *)
Lemma pages_erase_frame_exact (spage pages : Z) :
  0 <= spage -> 1 <= pages -> spage + pages <= 256 ->
  pages_erase_frame spage pages = erase_legacy_pages spage pages.
Proof.
  intros Hs Hp Hsum.
  rewrite (proj1 (pages_erase_frames_u8 spage pages Hs ltac:(lia) ltac:(lia))).
  unfold erase_legacy_pages, pages_from.
  rewrite (u8_small (pages - 1)) by lia.
  rewrite map_id_in; [reflexivity|].
  intros x Hx. apply in_zseq in Hx. apply u8_small. lia.
Qed.

Lemma pages_erase_frame_ext_exact (spage pages : Z) :
  0 <= spage -> 1 <= pages <= 512 -> spage + pages <= 65536 ->
  pages_erase_frame_ext spage pages = erase_ext_pages spage pages.
Proof.
  intros Hs Hp Hsum.
  rewrite (proj2 (pages_erase_frames_u8 spage pages Hs Hp ltac:(lia))).
  unfold erase_ext_pages, pages_from, two_bytes.
  rewrite (high_byte (pages - 1)) by lia. rewrite low_byte.
  rewrite (flat_map_ext_in
             (fun pg => [u8 (Z.shiftr pg 8); u8 (Z.land pg 255)])
             (fun v => [v / 256; v mod 256])); [reflexivity|].
  intros x Hx. apply in_zseq in Hx.
  rewrite high_byte by lia. rewrite low_byte. reflexivity.
Qed.



(** ** Erasing in batches *)










Section Erase.
Context `{port_h} `{stm32_h} `{libc}.



End Erase.




(** ** Host-side CRC *)

Lemma testbit_high_small (a s i : Z) :
  0 <= a < 2 ^ s -> 0 <= s <= i -> Z.testbit a i = false.
Proof.
  intros Ha Hs. rewrite <- (Z.mod_small a (2 ^ s)) by lia.
  apply Z.mod_pow2_bits_high. lia.
Qed.

Lemma lor_shiftl_add (a b s : Z) :
  0 <= a < 2 ^ s -> 0 <= s -> Z.lor a (Z.shiftl b s) = a + b * 2 ^ s.
Proof.
  intros Ha Hs. rewrite Z.shiftl_mul_pow2 by lia.
  assert (Hland : Z.land a (b * 2 ^ s) = 0).
  { apply Z.bits_inj'. intros n Hn. rewrite Z.land_spec, Z.bits_0.
    destruct (Z.lt_ge_cases n s) as [Hlt|Hge].
    - rewrite Z.mul_pow2_bits_low by lia. apply andb_false_r.
    - rewrite (testbit_high_small a s n) by lia. reflexivity. }
  rewrite <- Z.lxor_lor by exact Hland. symmetry. apply Z.add_nocarry_lxor. exact Hland.
Qed.

(** The word that the loop of [stm32_sw_crc] loads. *)
Lemma sw_crc_load (b0 b1 b2 b3 : Z) :
  0 <= b0 < 256 -> 0 <= b1 < 256 -> 0 <= b2 < 256 -> 0 <= b3 < 256 ->
  Z.lor (Z.lor (Z.lor b0 (Z.shiftl b1 8)) (Z.shiftl b2 16)) (u32 (Z.shiftl b3 24))
  = le_word b0 b1 b2 b3.
Proof.
  intros H0 H1 H2 H3. unfold le_word.
  rewrite (lor_shiftl_add b0 b1 8) by (change (2 ^ 8) with 256; lia).
  change (2 ^ 8) with 256.
  rewrite (lor_shiftl_add (b0 + b1 * 256) b2 16) by (change (2 ^ 16) with 65536; lia).
  change (2 ^ 16) with 65536.
  rewrite (Z.shiftl_mul_pow2 b3 24) by lia. change (2 ^ 24) with 16777216.
  rewrite u32_small by lia.
  replace (b3 * 16777216) with (Z.shiftl b3 24)
    by (rewrite Z.shiftl_mul_pow2 by lia; reflexivity).
  rewrite (lor_shiftl_add (b0 + b1 * 256 + b2 * 65536) b3 24)
    by (change (2 ^ 24) with 16777216; lia).
  change (2 ^ 24) with 16777216. lia.
Qed.

Lemma u32_lxor (a b : Z) : u32 (Z.lxor a b) = Z.lxor (u32 a) (u32 b).
Proof.
  unfold u32. change 4294967296 with (2 ^ 32).
  apply Z.bits_inj'. intros n Hn.
  rewrite Z.lxor_spec, !Z.testbit_mod_pow2, Z.lxor_spec by lia.
  destruct (n <? 32); reflexivity.
Qed.

Lemma msb_test (c : Z) : negb (Z.land c CRC_MSBMASK =? 0) = Z.testbit c 31.
Proof.
  change CRC_MSBMASK with (2 ^ 31).
  destruct (Z.testbit c 31) eqn:Hb.
  - destruct (Z.eqb_spec (Z.land c (2 ^ 31)) 0) as [Hz|Hnz]; [|reflexivity].
    assert (Ht : Z.testbit (Z.land c (2 ^ 31)) 31 = true).
    { rewrite Z.land_spec, Hb, Z.pow2_bits_eqb by lia. reflexivity. }
    rewrite Hz, Z.bits_0 in Ht. discriminate.
  - assert (Hz : Z.land c (2 ^ 31) = 0).
    { apply Z.bits_inj'. intros n Hn.
      rewrite Z.land_spec, Z.bits_0, Z.pow2_bits_eqb by lia.
      destruct (Z.eqb_spec 31 n) as [<-|Hne]; [rewrite Hb; reflexivity | apply andb_false_r]. }
    rewrite Hz. reflexivity.
Qed.

(** One round of the source on [r xor m] is one message bit, the top
    bit of [m], fed into [r], with [m] moved up by one bit. *)
Lemma crc_bit_feed (r m : Z) :
  crc_bit (Z.lxor r m)
  = Z.lxor (crc32_feed_bit r (Z.testbit m 31)) (u32 (Z.shiftl m 1)).
Proof.
  unfold crc_bit, crc32_feed_bit. rewrite msb_test, Z.lxor_spec.
  rewrite Z.shiftl_lxor, u32_lxor.
  assert (Hs : (2 * r) mod 4294967296 = u32 (Z.shiftl r 1)).
  { unfold u32. rewrite Z.shiftl_mul_pow2 by lia. f_equal. change (2 ^ 1) with 2. lia. }
  rewrite Hs. unfold CRCPOLY_BE.
  destruct (xorb (Z.testbit r 31) (Z.testbit m 31)); [|reflexivity].
  rewrite !Z.lxor_assoc. f_equal. apply Z.lxor_comm.
Qed.

Lemma u32_shiftl_step (w k : Z) :
  0 <= k -> u32 (Z.shiftl (u32 (Z.shiftl w k)) 1) = u32 (Z.shiftl w (k + 1)).
Proof.
  intros Hk. unfold u32. rewrite (Z.shiftl_mul_pow2 _ 1) by lia.
  rewrite Z.mul_mod_idemp_l by lia.
  rewrite <- (Z.shiftl_mul_pow2 _ 1) by lia. rewrite Z.shiftl_shiftl by lia.
  reflexivity.
Qed.

Lemma testbit_u32_shiftl (w k : Z) :
  0 <= k -> Z.testbit (u32 (Z.shiftl w k)) 31 = Z.testbit w (31 - k).
Proof.
  intros Hk. unfold u32. change 4294967296 with (2 ^ 32).
  rewrite Z.mod_pow2_bits_low by lia. apply Z.shiftl_spec. lia.
Qed.

(** After [k] rounds the register of the source is the register of the
    bit-serial CRC with the rest of the word still XORed on top. *)
Lemma sw_crc_rounds (w : Z) (n : nat) :
  forall (k r i : Z),
    0 <= k ->
    for_range n i (fun _ c => crc_bit c) (Z.lxor r (u32 (Z.shiftl w k)))
    = Z.lxor (fold_left (fun c j => crc32_feed_bit c (Z.testbit w (31 - j))) (zseq k n) r)
             (u32 (Z.shiftl w (k + Z.of_nat n))).
Proof.
  induction n as [|n IH]; intros k r i Hk.
  - simpl. rewrite Z.add_0_r. reflexivity.
  - cbn [for_range zseq fold_left].
    rewrite crc_bit_feed, u32_shiftl_step, testbit_u32_shiftl by lia.
    rewrite IH by lia. f_equal. f_equal. f_equal. lia.
Qed.

Lemma sw_crc_word (crc w : Z) :
  0 <= w < 4294967296 ->
  for_loop 0 32 (fun _ c => crc_bit c) (Z.lxor crc w) = crc32_feed_word crc w.
Proof.
  intros Hw. unfold for_loop, crc32_feed_word.
  replace w with (u32 (Z.shiftl w 0)) at 1 by (rewrite Z.shiftl_0_r; apply u32_small; lia).
  rewrite sw_crc_rounds by lia.
  change (Z.to_nat (32 - 0)) with 32%nat.
  change (0 + Z.of_nat 32) with 32.
  assert (Hz : u32 (Z.shiftl w 32) = 0).
  { unfold u32. rewrite Z.shiftl_mul_pow2 by lia. apply Z.mod_mul. lia. }
  rewrite Hz. apply Z.lxor_0_r.
Qed.

Lemma idx_byte (buf : list Z) (i : Z) :
  Forall (fun b => 0 <= b < 256) buf -> 0 <= idx buf i < 256.
Proof.
  intros Hall. unfold idx.
  destruct (Nat.lt_ge_cases (Z.to_nat i) (length buf)) as [Hlt|Hge].
  - rewrite Forall_forall in Hall. apply Hall. apply nth_In. exact Hlt.
  - rewrite nth_overflow by exact Hge. lia.
Qed.

Lemma Forall_skipn {A : Type} (P : A -> Prop) (n : nat) (l : list A) :
  Forall P l -> Forall P (skipn n l).
Proof.
  revert l. induction n as [|n IH]; intros l Hl; [exact Hl|].
  destruct l as [|x l]; [constructor|]. inversion Hl; subst. apply IH. assumption.
Qed.

Lemma stm32_sw_crc_loop_S (words : nat) (crc : Z) (buf : list Z) :
  stm32_sw_crc_loop (S words) crc buf
  = stm32_sw_crc_loop words
      (for_loop 0 32 (fun _ c => crc_bit c)
         (Z.lxor crc
            (Z.lor (Z.lor (Z.lor (idx buf 0) (Z.shiftl (idx buf 1) 8))
                          (Z.shiftl (idx buf 2) 16))
                   (u32 (Z.shiftl (idx buf 3) 24)))))
      (skipn 4 buf).
Proof. reflexivity. Qed.

Lemma crc32_msb_first_cons (crc : Z) (n : nat) (buf : list Z) :
  crc32_msb_first crc (le_words (S n) buf)
  = crc32_msb_first
      (crc32_feed_word crc (le_word (idx buf 0) (idx buf 1) (idx buf 2) (idx buf 3)))
      (le_words n (skipn 4 buf)).
Proof. reflexivity. Qed.

Lemma stm32_sw_crc_loop_spec (words : nat) :
  forall (crc : Z) (buf : list Z),
    Forall (fun b => 0 <= b < 256) buf ->
    stm32_sw_crc_loop words crc buf = crc32_msb_first crc (le_words words buf).
Proof.
  induction words as [|words IH]; intros crc buf Hbuf; [reflexivity|].
  rewrite stm32_sw_crc_loop_S, crc32_msb_first_cons.
  pose proof (idx_byte buf 0 Hbuf). pose proof (idx_byte buf 1 Hbuf).
  pose proof (idx_byte buf 2 Hbuf). pose proof (idx_byte buf 3 Hbuf).
  rewrite sw_crc_load by assumption.
  rewrite sw_crc_word by (unfold le_word; lia).
  apply IH. apply Forall_skipn. exact Hbuf.
Qed.

(** C9: [stm32_sw_crc] with initial value 0xFFFFFFFF over the four bytes
    00 00 00 00 is 0xC704DD7B; and over any buffer of bytes whose length
    is a multiple of 4 it is the CRC-32 with polynomial 0x04C11DB7 of the
    32-bit little-endian words of the buffer, each word fed most
    significant bit first into a register of 32 bits, with no reflection
    of input or output. *)
Theorem stm32_sw_crc_spec :
  stm32_sw_crc 0xFFFFFFFF [0x00; 0x00; 0x00; 0x00] 4 = 0xC704DD7B /\
  (forall (crc : Z) (buf : list Z) (len : Z),
     Forall (fun b => 0 <= b < 256) buf ->
     0 <= len -> len mod 4 = 0 ->
     stm32_sw_crc crc buf len
     = crc32_msb_first crc (le_words (Z.to_nat (len / 4)) buf)).
Proof.
  split; [vm_compute; reflexivity|].
  intros crc buf len Hbuf Hlen Hmod. unfold stm32_sw_crc.
  change 3 with (Z.ones 2). rewrite Z.land_ones by lia. change (2 ^ 2) with 4.
  rewrite Hmod. cbn [Z.eqb negb].
  apply stm32_sw_crc_loop_spec. exact Hbuf.
Qed.

(** * Runs on concrete inputs *)

Lemma stm32_get_ack_timeout_spec_witness :
  @stm32_get_ack_timeout sample_port_h sample_clock 5 slow_session 1 []
  = (Some STM32_ERR_OK,
     [EvTime 100; EvRead 1 PORT_ERR_OK [STM32_BUSY]; EvRead 1 PORT_ERR_TIMEDOUT [];
      EvTime 100; EvRead 1 PORT_ERR_OK [STM32_ACK]]) /\
  first_non_busy (snd (@stm32_get_ack_timeout sample_port_h sample_clock 5 slow_session 1 []))
  = Some STM32_ACK.
Proof.
  split; [vm_compute; reflexivity|].
  pose proof (@stm32_get_ack_timeout_spec sample_port_h sample_clock 5 slow_session 1 [])
    as [Hres _].
  apply (Hres STM32_ERR_OK); [vm_compute|]; reflexivity.
Defined.

Lemma write_memory_padding_law_witness :
  let frame := [0x03; 0x01; 0x02; 0x03; 0xFF; 0xFC] in
  let N := 4 * ((3 + 3) / 4) in
  (N mod 4 = 0 /\ 3 <= N < 3 + 4) /\
  Z.of_nat (length frame) = N + 2 /\
  idx frame 0 = N - 1 /\
  (forall j, 1 <= j <= 3 -> idx frame j = idx [0x01; 0x02; 0x03] (j - 1)) /\
  (forall j, 3 + 1 <= j <= N -> idx frame j = 0xFF) /\
  idx frame (N + 1) = fold_left Z.lxor (firstn (Z.to_nat N) (skipn 1 frame)) (N - 1).
Proof.
  apply (@write_memory_padding_law sample_port_h sample_clock 5 sample_session
           0x08000000 [0x01; 0x02; 0x03] 3 []).
  - lia.
  - vm_compute. discriminate.
  - vm_compute. reflexivity.
Defined.

Lemma write_three_bytes_frame_witness :
  [0x03; 0x01; 0x02; 0x03; 0xFF; 0xFC] = [0x03; 0x01; 0x02; 0x03; 0xFF; 0xFC] /\
  0xFC = xor_all [0x03; 0x01; 0x02; 0x03; 0xFF].
Proof.
  apply (@write_three_bytes_frame sample_port_h sample_clock 5 sample_session []).
  vm_compute. reflexivity.
Defined.

(** The checksum of the frame 03 01 02 03 FF is FC, not FE. *)
Lemma write_three_bytes_frame_not_FE :
  nth_error
    (writes (snd (@stm32_write_memory sample_port_h sample_clock 5 sample_session
                    0x08000000 [0x01; 0x02; 0x03] 3 []))) 2
  = Some [0x03; 0x01; 0x02; 0x03; 0xFF; 0xFC] /\
  nth_error
    (writes (snd (@stm32_write_memory sample_port_h sample_clock 5 sample_session
                    0x08000000 [0x01; 0x02; 0x03] 3 []))) 2
  <> Some [0x03; 0x01; 0x02; 0x03; 0xFF; 0xFE].
Proof.
  split; vm_compute; [reflexivity | discriminate].
Qed.

Lemma write_memory_unaligned_witness :
  @stm32_write_memory sample_port_h sample_clock 5 sample_session 0x08000002 [0x01; 0x02] 2 []
  = (Some STM32_ERR_UNKNOWN, []).
Proof.
  apply (@write_memory_unaligned sample_port_h sample_clock); [lia | vm_compute; discriminate].
Defined.

(** An empty write to an address that is not a multiple of 4 returns OK. *)
Lemma write_memory_unaligned_empty_ok :
  0x08000001 mod 4 <> 0 /\
  @stm32_write_memory sample_port_h sample_clock 5 sample_session 0x08000001 [] 0 []
  = (Some STM32_ERR_OK, []) /\
  @stm32_write_memory sample_port_h sample_clock 5 sample_session 0x08000001 [] 0 []
  <> (Some STM32_ERR_UNKNOWN, []).
Proof.
  split; [vm_compute; discriminate|]. split; [reflexivity | discriminate].
Qed.

Lemma get_reply_opcode_latching_witness :
  slot K_WM (fst (stm32_init_get_loop [0x04; 0x22; 0x00; 0x31; 0x32; 0x44] cmd_unset))
  = Z.max 0x31 0x32.
Proof.
  destruct (proj2 get_reply_opcode_latching K_WM [0x04; 0x22; 0x00; 0x31; 0x32; 0x44])
    as (_ & _ & Hpair & _).
  apply Hpair; vm_compute; auto 10.
Defined.

(** The first opcode of a kind goes into an entry that holds the
    sentinel 0xFF: the entry becomes the opcode, not max(0xFF, opcode). *)
Lemma newer_on_sentinel :
  wm cmd_unset = 0xFF /\
  wm (fst (stm32_init_switch STM32_CMD_WM (cmd_unset, 0))) = 0x31 /\
  wm (fst (stm32_init_switch STM32_CMD_WM (cmd_unset, 0)))
  <> Z.max (wm cmd_unset) STM32_CMD_WM.
Proof.
  split; [|split]; vm_compute; [reflexivity | reflexivity | discriminate].
Qed.

Lemma page_walk_inverse_witness :
  exists p p_last,
    flash_addr_to_page_floor (Z.to_nat 32768) sample_dev 0x08000C01 = Some p /\
    flash_addr_to_page_floor (Z.to_nat 32768) sample_dev (fl_end sample_dev - 1) = Some p_last /\
    flash_page_to_addr sample_dev p <= 0x08000C01 /\
    (p <> p_last -> flash_page_to_addr sample_dev (p + 1) > 0x08000C01) /\
    ((forall s, In s (fl_ps sample_dev) -> fl_end sample_dev + s <= 4294967296) ->
     flash_page_to_addr sample_dev (p + 1) > 0x08000C01) /\
    exists q,
      flash_addr_to_page_ceil (Z.to_nat 40000) sample_dev (fl_end sample_dev) = Some q /\
      (forall a, fl_start sample_dev <= a < fl_end sample_dev ->
         exists p', flash_addr_to_page_floor (Z.to_nat 40000) sample_dev a = Some p' /\
                    0 <= p' < q) /\
      (forall p', 0 <= p' < q ->
         fl_start sample_dev <= flash_page_to_addr sample_dev p' < fl_end sample_dev /\
         flash_addr_to_page_floor (Z.to_nat 40000) sample_dev
           (flash_page_to_addr sample_dev p') = Some p').
Proof.
  destruct (proj1 page_walk_inverse (Z.to_nat 32768) sample_dev 0x08000C01)
    as (p & p_last & H1 & H2 & H3 & H4 & H5).
  - vm_compute. reflexivity.
  - vm_compute. discriminate.
  - vm_compute. split; [discriminate | reflexivity].
  - exists p, p_last. repeat (split; [assumption|]).
    apply (proj2 (proj2 page_walk_inverse) (Z.to_nat 40000) sample_dev).
    + vm_compute. reflexivity.
    + vm_compute. reflexivity.
Defined.

(** The end address of the flash is outside of the flash, and its ceil
    page is the number of pages, not 0. *)
Lemma page_ceil_of_flash_end :
  is_addr_in_flash sample_dev (fl_end sample_dev) = false /\
  flash_addr_to_page_floor 40 sample_dev (fl_end sample_dev) = Some 0 /\
  flash_addr_to_page_ceil 40 sample_dev (fl_end sample_dev) = Some 32 /\
  flash_addr_to_page_ceil 40 sample_dev (fl_end sample_dev) <> Some 0.
Proof.
  repeat split; vm_compute; try reflexivity; discriminate.
Qed.

Lemma stm32_guess_len_cmd_frame_port_witness :
  (exists e got rest,
     snd (@stm32_guess_len_cmd sample_port_h sample_clock 5 late_reply_session
            0x02 (repeat 0 8%nat) 4 [])
     = [EvWrite [0x02; 0xFD] PORT_ERR_OK; EvRead 1 PORT_ERR_OK [STM32_ACK]]
         ++ EvRead (4 + 2) e got :: rest /\
     e <> PORT_ERR_OK /\
     let h1 := [EvWrite [0x02; 0xFD] PORT_ERR_OK; EvRead 1 PORT_ERR_OK [STM32_ACK];
                EvRead (4 + 2) e got] in
     let p1 := @perform sample_port_h sample_clock 5 late_reply_session
                 [StepResync; StepSend 0x02; StepRead 1] h1 in
     fst p1 = Done /\
     exists L pre,
       snd p1 = pre ++ [EvRead 1 PORT_ERR_OK [L]] /\
       let p2 := @perform sample_port_h sample_clock 5 late_reply_session
                   [StepResync; StepSend 0x02; StepRead (L + 2)] (h1 ++ snd p1) in
       rest = snd p1 ++ snd p2 /\
       result_is (fst (@stm32_guess_len_cmd sample_port_h sample_clock 5
                         late_reply_session 0x02 (repeat 0 8%nat) 4 [])) (fst p2)) /\
  (exists cmd1 e got rest,
    [EvWrite [0x02; 0xFD] PORT_ERR_OK; EvRead 1 PORT_ERR_OK [STM32_ACK];
     EvRead 6 PORT_ERR_TIMEDOUT [];
     EvTime 100; EvWrite [0xFF; 0x00] PORT_ERR_OK; EvRead 1 PORT_ERR_OK [STM32_NACK];
     EvWrite [0x02; 0xFD] PORT_ERR_OK; EvRead 1 PORT_ERR_OK [STM32_ACK];
     EvRead 1 PORT_ERR_OK [0x01];
     EvTime 100; EvWrite [0xFF; 0x00] PORT_ERR_OK; EvRead 1 PORT_ERR_OK [STM32_NACK];
     EvWrite [0x02; 0xFD] PORT_ERR_OK; EvRead 1 PORT_ERR_OK [STM32_ACK];
     EvRead 3 PORT_ERR_OK [0x01; 0x04; 0x10]]
    = cmd1 ++ EvRead (4 + 2) e got :: rest /\
    sent_command 0x02 cmd1 /\
    ((e = PORT_ERR_OK /\ idx got 0 = 4 /\ rest = []) \/
     (e = PORT_ERR_OK /\ idx got 0 <> 4 /\
      exists rs cmd2 got2,
        rest = rs ++ cmd2 ++ [EvRead (idx got 0 + 2) PORT_ERR_OK got2] /\
        resynced rs /\ sent_command 0x02 cmd2) \/
     (e <> PORT_ERR_OK /\
      exists rs1 cmd2 L rs2 cmd3 got3,
        rest = rs1 ++ cmd2 ++ EvRead 1 PORT_ERR_OK [L]
                   :: rs2 ++ cmd3 ++ [EvRead (L + 2) PORT_ERR_OK got3] /\
        resynced rs1 /\ sent_command 0x02 cmd2 /\
        resynced rs2 /\ sent_command 0x02 cmd3))).
Proof.
  assert (Hlen : 0 <= 4 < 4294967294) by lia.
  destruct (@stm32_guess_len_cmd_frame_port sample_port_h sample_clock 5 late_reply_session
              0x02 (repeat 0 8%nat) 4 [] eq_refl Hlen) as (_ & Hall & Hok).
  split.
  - destruct (Hall [EvWrite [0x02; 0xFD] PORT_ERR_OK; EvRead 1 PORT_ERR_OK [STM32_ACK]])
      as (e & got & rest & Hevs & _ & _ & _ & Hfail).
    { vm_compute. reflexivity. }
    assert (He : e = PORT_ERR_TIMEDOUT /\ got = []).
    { vm_compute in Hevs. inversion Hevs. split; reflexivity. }
    destruct He as [-> ->].
    exists PORT_ERR_TIMEDOUT, [], rest. split; [exact Hevs|].
    split; [discriminate|]. cbv zeta.
    assert (Hd : fst (@perform sample_port_h sample_clock 5 late_reply_session
                        [StepResync; StepSend 0x02; StepRead 1]
                        [EvWrite [0x02; 0xFD] PORT_ERR_OK; EvRead 1 PORT_ERR_OK [STM32_ACK];
                         EvRead (4 + 2) PORT_ERR_TIMEDOUT []]) = Done)
      by (vm_compute; reflexivity).
    split; [exact Hd|].
    assert (Hne : PORT_ERR_TIMEDOUT <> PORT_ERR_OK) by discriminate.
    exact (proj2 (Hfail Hne) Hd).
  - apply (Hok [0x01; 0x04; 0x10; 0; 0; 0; 0; 0]).
    vm_compute. reflexivity.
Defined.

(** Two calls on a frame port that do not take the course of the claim.
    When the first read succeeds with another leading byte than the
    guess, there is one Resync and no read of one byte for the length.
    When the first read fails and the Resync after it fails, the command
    is not sent again and nothing more is read: the call returns
    UNKNOWN. *)
Lemma stm32_guess_len_cmd_departures :
  (@stm32_guess_len_cmd sample_port_h sample_clock 5 wrong_guess_session
     0x02 (repeat 0 8%nat) 4 []
   = (Some (STM32_ERR_OK, [0x02; 0x04; 0x10; 0x79; 0x04; 0x05; 0; 0]),
      [EvWrite [0x02; 0xFD] PORT_ERR_OK; EvRead 1 PORT_ERR_OK [STM32_ACK];
       EvRead 6 PORT_ERR_OK [0x02; 0x01; 0x02; 0x03; 0x04; 0x05];
       EvTime 100; EvWrite [0xFF; 0x00] PORT_ERR_OK; EvRead 1 PORT_ERR_OK [STM32_NACK];
       EvWrite [0x02; 0xFD] PORT_ERR_OK; EvRead 1 PORT_ERR_OK [STM32_ACK];
       EvRead 4 PORT_ERR_OK [0x02; 0x04; 0x10; 0x79]]) /\
   has_flag (flags (port wrong_guess_session)) (@PORT_BYTE sample_port_h) = false /\
   count_occ (list_eq_dec Z.eq_dec)
     (writes (snd (@stm32_guess_len_cmd sample_port_h sample_clock 5 wrong_guess_session
                     0x02 (repeat 0 8%nat) 4 [])))
     [0xFF; 0x00] = 1%nat) /\
  (@stm32_guess_len_cmd sample_port_h sample_clock 5 silent_session
     0x02 (repeat 0 8%nat) 4 []
   = (Some (STM32_ERR_UNKNOWN, repeat 0 8%nat),
      [EvWrite [0x02; 0xFD] PORT_ERR_OK; EvRead 1 PORT_ERR_OK [STM32_ACK];
       EvRead 6 PORT_ERR_TIMEDOUT [];
       EvTime 100; EvWrite [0xFF; 0x00] PORT_ERR_OK; EvRead 1 PORT_ERR_TIMEDOUT [];
       EvTime 100; EvWrite [0xFF; 0x00] PORT_ERR_OK; EvRead 1 PORT_ERR_TIMEDOUT [];
       EvTime 101; EvWrite [0xFF; 0x00] PORT_ERR_OK; EvRead 1 PORT_ERR_TIMEDOUT [];
       EvTime 102; EvWrite [0xFF; 0x00] PORT_ERR_OK; EvRead 1 PORT_ERR_TIMEDOUT [];
       EvTime 140]) /\
   has_flag (flags (port silent_session)) (@PORT_BYTE sample_port_h) = false /\
   count_occ (list_eq_dec Z.eq_dec)
     (writes (snd (@stm32_guess_len_cmd sample_port_h sample_clock 5 silent_session
                     0x02 (repeat 0 8%nat) 4 [])))
     [0x02; 0xFD] = 1%nat).
Proof.
  split; (split; [|split]); vm_compute; reflexivity.
Qed.


(** The same call on a device that acknowledges everything: one batch,
    pages 0 to 3. *)
Lemma mass_erase_no_me_run :
  @stm32_erase_memory sample_port_h sample_stm32_h sample_clock
    (Z.to_nat 5000) no_me_session 0 (@STM32_MASS_ERASE sample_stm32_h) []
  = (Some STM32_ERR_OK,
     [EvWrite [0x44; 0xBB] PORT_ERR_OK; EvRead 1 PORT_ERR_OK [STM32_ACK];
      EvWrite [0x00; 0x03; 0x00; 0x00; 0x00; 0x01; 0x00; 0x02; 0x00; 0x03; 0x03] PORT_ERR_OK;
      EvRead 1 PORT_ERR_OK [STM32_ACK]]).
Proof. vm_compute. reflexivity. Qed.


Lemma stm32_sw_crc_spec_witness :
  stm32_sw_crc 0xFFFFFFFF [0xDE; 0xAD; 0xBE; 0xEF; 0x01; 0x02; 0x03; 0x04] 8
  = crc32_msb_first 0xFFFFFFFF
      (le_words (Z.to_nat (8 / 4)) [0xDE; 0xAD; 0xBE; 0xEF; 0x01; 0x02; 0x03; 0x04]).
Proof.
  apply (proj2 stm32_sw_crc_spec).
  - repeat (constructor; [lia|]). constructor.
  - lia.
  - reflexivity.
Defined.

(** The words of that buffer, and a device with pages of several sizes. *)
Lemma le_words_example :
  le_words 2 [0xDE; 0xAD; 0xBE; 0xEF; 0x01; 0x02; 0x03; 0x04] = [0xEFBEADDE; 0x04030201].
Proof. reflexivity. Qed.

Lemma page_walk_f4_example :
  flash_addr_to_page_floor 20 sample_dev_f4 0x08024000 = Some 5 /\
  flash_addr_to_page_ceil 20 sample_dev_f4 0x08024000 = Some 6 /\
  flash_page_to_addr sample_dev_f4 5 = 0x08020000 /\
  flash_page_to_addr sample_dev_f4 6 = 0x08040000 /\
  flash_addr_to_page_ceil 20 sample_dev_f4 (fl_end sample_dev_f4) = Some 12.
Proof. repeat split; vm_compute; reflexivity. Qed.

(** Scenario S1: the session that [stm32_init] establishes on a byte
    port, and what went over the wire. *)
Lemma session_establishment_example :
  match @stm32_init sample_port_h sample_clock 5 sample_devices s1_port 1 [] with
  | (Some (Some stm), evs) =>
    bl_version stm = 0x22 /\ version stm = 0x22 /\ pid stm = 0x410 /\
    id (dev stm) = 0x410 /\
    wm (cmd stm) = 0x31 /\ er (cmd stm) = 0x43 /\ rm (cmd stm) = 0x11 /\
    crc (cmd stm) = STM32_CMD_ERR /\
    evs = [EvWrite [0x7F] PORT_ERR_OK; EvRead 1 PORT_ERR_OK [0x79];
           EvWrite [0x01; 0xFE] PORT_ERR_OK; EvRead 1 PORT_ERR_OK [0x79];
           EvRead 3 PORT_ERR_OK [0x22; 0x00; 0x00]; EvRead 1 PORT_ERR_OK [0x79];
           EvWrite [0x00; 0xFF] PORT_ERR_OK; EvRead 1 PORT_ERR_OK [0x79];
           EvRead 1 PORT_ERR_OK [0x0B];
           EvRead 12 PORT_ERR_OK
             [0x22; 0x00; 0x01; 0x02; 0x11; 0x21; 0x31; 0x43; 0x63; 0x73; 0x82; 0x92];
           EvRead 1 PORT_ERR_OK [0x79];
           EvWrite [0x02; 0xFD] PORT_ERR_OK; EvRead 1 PORT_ERR_OK [0x79];
           EvRead 1 PORT_ERR_OK [0x01]; EvRead 2 PORT_ERR_OK [0x04; 0x10];
           EvRead 1 PORT_ERR_OK [0x79]]
  | _ => False
  end.
Proof. vm_compute. repeat split; reflexivity. Qed.

(** * Further properties of the engine *)

Section MoreWire.
Context `{port_h} `{libc}.

Lemma ack_run_none_silent retrying d fuel evs r :
  ack_run retrying d fuel evs r -> r = None -> first_non_busy evs = None.
Proof.
  induction 1; intros Hr; try discriminate; cbn; auto.
Qed.

Lemma stm32_get_ack_timeout_result fuel stm timeout h :
  let run := stm32_get_ack_timeout fuel stm timeout h in
  (fst run = Some STM32_ERR_OK <-> first_non_busy (snd run) = Some STM32_ACK) /\
  (fst run = Some STM32_ERR_NACK <-> first_non_busy (snd run) = Some STM32_NACK) /\
  writes (snd run) = [].
Proof.
  intros run.
  destruct (stm32_get_ack_timeout_run fuel stm timeout h) as (t0 & evs & Hevs & Hack).
  fold run in Hevs, Hack.
  assert (Hfnb : first_non_busy (snd run) = first_non_busy evs).
  { rewrite Hevs. destruct (has_flag (flags (port stm)) PORT_RETRY && negb (timeout =? 0));
      reflexivity. }
  rewrite Hfnb.
  split; [|split]; [| |apply stm32_get_ack_timeout_writes].
  - destruct (fst run) as [res|] eqn:Hres.
    + destruct (ack_run_result _ _ _ _ _ Hack res eq_refl) as (Hok & _).
      rewrite <- Hok. split; congruence.
    + rewrite (ack_run_none_silent _ _ _ _ _ Hack eq_refl). split; discriminate.
  - destruct (fst run) as [res|] eqn:Hres.
    + destruct (ack_run_result _ _ _ _ _ Hack res eq_refl) as (_ & Hnack & _).
      rewrite <- Hnack. split; congruence.
    + rewrite (ack_run_none_silent _ _ _ _ _ Hack eq_refl). split; discriminate.
Qed.

(** A step that must succeed: [s = m; if (s != STM32_ERR_OK) return bad;]. *)
Lemma bind_ok_inv {B : Type} (m : io stm32_err_t) (bad : B) (k : io B) h r evs :
  (s <- m ;; if negb (stm32_err_eqb s STM32_ERR_OK) then ret bad else k) h = (Some r, evs) ->
  (exists s, s <> STM32_ERR_OK /\ m h = (Some s, evs) /\ r = bad) \/
  (exists e1 e2, m h = (Some STM32_ERR_OK, e1) /\ k (h ++ e1) = (Some r, e2) /\
                 evs = e1 ++ e2).
Proof.
  intros Hrun. apply bind_inv in Hrun.
  destruct Hrun as [(s & e1 & e2 & Hm & Hk & ->)|[_ Hr]]; [|discriminate].
  destruct s; cbn [stm32_err_eqb negb] in Hk;
    try (apply ret_inv in Hk; destruct Hk as [Hr ->]; inversion Hr; subst r;
         rewrite app_nil_r; left; eexists; split; [|split; [eassumption|reflexivity]];
         discriminate).
  right. eauto.
Qed.

(** The same for a write: [if (port->write(...) != PORT_ERR_OK) return bad;]. *)
Lemma write_ok_inv {B : Type} (port : port_interface) (buf : list Z) (bad : B) (k : io B)
  h r evs :
  (p_err <- port_write port buf ;;
   if negb (port_err_eqb p_err PORT_ERR_OK) then ret bad else k) h = (Some r, evs) ->
  (exists e, e <> PORT_ERR_OK /\ evs = [EvWrite buf e] /\ r = bad) \/
  (exists e2, k (h ++ [EvWrite buf PORT_ERR_OK]) = (Some r, e2) /\
              evs = EvWrite buf PORT_ERR_OK :: e2).
Proof.
  intros Hrun. apply bind_inv in Hrun.
  destruct Hrun as [(e & e1 & e2 & Hw & Hk & ->)|[_ Hr]]; [|discriminate].
  apply port_write_inv in Hw. destruct Hw as (e' & He & ->). inversion He; subst e'.
  destruct e; cbn [port_err_eqb negb] in Hk;
    try (apply ret_inv in Hk; destruct Hk as [Hr ->]; inversion Hr; subst r;
         left; eexists; split; [|split; reflexivity]; discriminate).
  right. eauto.
Qed.

Lemma stm32_get_ack_ok fuel stm h evs :
  stm32_get_ack fuel stm h = (Some STM32_ERR_OK, evs) -> acked evs.
Proof.
  unfold stm32_get_ack. intros Hrun.
  destruct (stm32_get_ack_timeout_run fuel stm 0 h) as (t0 & evs' & Hevs & Hack).
  rewrite Hrun in Hevs, Hack. cbn [fst snd] in Hevs, Hack.
  rewrite Z.eqb_refl, andb_false_r in Hevs, Hack. cbn [app] in Hevs. subst evs'.
  eapply ack_run_ok; eauto.
Qed.

Lemma stm32_send_command_timeout_outcome fuel stm c timeout h :
  let run := stm32_send_command_timeout fuel stm c timeout h in
  fst run = None \/ fst run = Some STM32_ERR_OK \/ fst run = Some STM32_ERR_UNKNOWN.
Proof.
  intros run. subst run. unfold stm32_send_command_timeout.
  destruct (bind _ _ h) as [r evs] eqn:Hrun. cbn [fst].
  apply bind_inv in Hrun.
  destruct Hrun as [(e & e1 & e2 & Hw & Hk & ->)|[_ Hr]]; [|auto].
  destruct (negb (port_err_eqb e PORT_ERR_OK)).
  - apply ret_inv in Hk. destruct Hk as [-> _]. auto.
  - apply bind_inv in Hk.
    destruct Hk as [(s & e3 & e4 & Ha & Hk & ->)|[_ Hr]]; [|auto].
    destruct (stm32_err_eqb s STM32_ERR_OK); apply ret_inv in Hk; destruct Hk as [-> _]; auto.
Qed.

End MoreWire.

(** X1.  Every command goes out as one buffer of two bytes, the opcode
    and its complement, which XOR to 0xFF, whatever the device answers.
    The call returns OK exactly when the write succeeds and the first
    byte other than BUSY that comes back is ACK; every other outcome, a
    NACK included, is reported as UNKNOWN. *)
Theorem stm32_send_command_timeout_frame `{port_h} `{libc} :
  forall (fuel : nat) (stm : stm32_t) (c timeout : Z) (h : history),
    let run := stm32_send_command_timeout fuel stm c timeout h in
    writes (snd run) = [[c; Z.lxor c 0xFF]] /\
    Z.lxor c (Z.lxor c 0xFF) = 0xFF /\
    (fst run = None \/ fst run = Some STM32_ERR_OK \/ fst run = Some STM32_ERR_UNKNOWN) /\
    (fst run = Some STM32_ERR_OK <->
       exists rest, snd run = EvWrite [c; Z.lxor c 0xFF] PORT_ERR_OK :: rest /\
                    first_non_busy rest = Some STM32_ACK).
Proof.
  intros fuel stm c timeout h run.
  split; [apply stm32_send_command_timeout_writes|].
  split; [rewrite <- Z.lxor_assoc, Z.lxor_nilpotent; reflexivity|].
  split; [apply stm32_send_command_timeout_outcome|].
  subst run. unfold stm32_send_command_timeout.
  destruct (bind _ _ h) as [r evs] eqn:Hrun. cbn [fst snd].
  apply bind_inv in Hrun.
  destruct Hrun as [(e & e1 & e2 & Hw & Hk & ->)|[Hw _]];
    [|unfold port_write in Hw; discriminate].
  apply port_write_inv in Hw. destruct Hw as (e' & He & ->). inversion He; subst e'.
  destruct e; cbn [port_err_eqb negb] in Hk.
  - apply bind_inv in Hk.
    pose proof (stm32_get_ack_timeout_result fuel stm timeout
                  (h ++ [EvWrite [c; Z.lxor c 255] PORT_ERR_OK])) as (Hok & _ & _).
    destruct Hk as [(s & e3 & e4 & Ha & Hk & ->)|[Ha ->]].
    + rewrite Ha in Hok. cbn [fst snd] in Hok.
      destruct s; cbn [stm32_err_eqb] in Hk; apply ret_inv in Hk; destruct Hk as [-> ->];
        rewrite app_nil_r; cbn [app].
      * split; [intros _; eexists; split; [reflexivity|apply Hok; reflexivity]|reflexivity].
      * split; [discriminate|]. intros (rest & Heq & Hf). inversion Heq; subst rest.
        apply Hok in Hf. discriminate.
      * split; [discriminate|]. intros (rest & Heq & Hf). inversion Heq; subst rest.
        apply Hok in Hf. discriminate.
      * split; [discriminate|]. intros (rest & Heq & Hf). inversion Heq; subst rest.
        apply Hok in Hf. discriminate.
    + rewrite Ha in Hok. cbn [fst snd] in Hok. cbn [app].
      split; [discriminate|]. intros (rest & Heq & Hf). inversion Heq; subst rest.
      apply Hok in Hf. discriminate.
  - apply ret_inv in Hk. destruct Hk as [-> ->]. cbn [app].
    split; [discriminate|]. intros (rest & Heq & _). inversion Heq.
  - apply ret_inv in Hk. destruct Hk as [-> ->]. cbn [app].
    split; [discriminate|]. intros (rest & Heq & _). inversion Heq.
Qed.

(** ** The address payload *)

Lemma store_address_bytes (address : Z) (buf : list Z) :
  (5 <= length buf)%nat ->
  firstn 5 (store_address address buf)
  = [u8 (Z.shiftr address 24); Z.land (Z.shiftr address 16) 0xFF;
     Z.land (Z.shiftr address 8) 0xFF; Z.land address 0xFF;
     Z.lxor (Z.lxor (Z.lxor (u8 (Z.shiftr address 24)) (Z.land (Z.shiftr address 16) 0xFF))
                    (Z.land (Z.shiftr address 8) 0xFF))
            (Z.land address 0xFF)].
Proof.
  intros Hlen.
  destruct buf as [|x0 [|x1 [|x2 [|x3 [|x4 rest]]]]]; cbn [length] in Hlen; try lia.
  reflexivity.
Qed.

Lemma byte_lxor (a b : Z) : 0 <= a < 256 -> 0 <= b < 256 -> 0 <= Z.lxor a b < 256.
Proof.
  intros Ha Hb. split; [apply Z.lxor_nonneg; lia|].
  destruct (Z.eq_dec (Z.lxor a b) 0) as [->|Hne]; [lia|].
  assert (Hpos : 0 < Z.lxor a b) by (assert (0 <= Z.lxor a b) by (apply Z.lxor_nonneg; lia); lia).
  apply (Z.log2_lt_pow2 _ 8 Hpos).
  eapply Z.le_lt_trans; [apply Z.log2_lxor; lia|].
  apply Z.max_lub_lt.
  - destruct (Z.eq_dec a 0) as [->|]; [cbn; lia|]. apply Z.log2_lt_pow2; lia.
  - destruct (Z.eq_dec b 0) as [->|]; [cbn; lia|]. apply Z.log2_lt_pow2; lia.
Qed.

(** X2.  The five bytes that follow a command are the address, most
    significant byte first, and the XOR of those four bytes: the bytes
    give the address back, and the XOR of all five is zero. *)
Theorem store_address_round_trip :
  forall (address : Z) (buf : list Z),
    0 <= address < 4294967296 -> (5 <= length buf)%nat ->
    exists b0 b1 b2 b3 cs,
      firstn 5 (store_address address buf) = [b0; b1; b2; b3; cs] /\
      0 <= b0 < 256 /\ 0 <= b1 < 256 /\ 0 <= b2 < 256 /\ 0 <= b3 < 256 /\
      0 <= cs < 256 /\
      address = 16777216 * b0 + 65536 * b1 + 256 * b2 + b3 /\
      cs = Z.lxor (Z.lxor (Z.lxor b0 b1) b2) b3 /\
      xor_all [b0; b1; b2; b3; cs] = 0.
Proof.
  intros address buf Ha Hlen.
  rewrite (store_address_bytes address buf Hlen).
  change 255 with (Z.ones 8). rewrite !Z.land_ones by lia.
  rewrite !Z.shiftr_div_pow2 by lia. unfold u8.
  change (2 ^ 24) with 16777216. change (2 ^ 16) with 65536. change (2 ^ 8) with 256.
  set (b0 := (address / 16777216) mod 256).
  set (b1 := (address / 65536) mod 256).
  set (b2 := (address / 256) mod 256).
  set (b3 := address mod 256).
  assert (H0 : 0 <= b0 < 256) by (apply Z.mod_pos_bound; lia).
  assert (H1 : 0 <= b1 < 256) by (apply Z.mod_pos_bound; lia).
  assert (H2 : 0 <= b2 < 256) by (apply Z.mod_pos_bound; lia).
  assert (H3 : 0 <= b3 < 256) by (apply Z.mod_pos_bound; lia).
  exists b0, b1, b2, b3, (Z.lxor (Z.lxor (Z.lxor b0 b1) b2) b3).
  split; [reflexivity|].
  repeat (split; [assumption|]).
  split; [repeat apply byte_lxor; assumption|].
  split; [subst b0 b1 b2 b3; Z.div_mod_to_equations; lia|].
  split; [reflexivity|].
  unfold xor_all. cbn [fold_left]. rewrite Z.lxor_0_l. apply Z.lxor_nilpotent.
Qed.

Lemma fit_bytes (n : Z) (bs : list Z) : Forall (fun b => 0 <= b < 256) (fit n bs).
Proof.
  unfold fit. apply Forall_forall. intros x Hx.
  apply In_nth with (d := 0) in Hx. destruct Hx as (i & Hi & <-).
  rewrite length_firstn in Hi.
  rewrite nth_firstn. destruct (i <? Z.to_nat n)%nat; [|lia].
  destruct (Nat.lt_ge_cases i (length (map u8 bs))) as [Hlt|Hge].
  - rewrite app_nth1 by exact Hlt.
    rewrite (nth_indep _ 0 (u8 0)) by exact Hlt. rewrite map_nth.
    unfold u8. apply Z.mod_pos_bound. lia.
  - rewrite app_nth2 by exact Hge. rewrite nth_repeat. lia.
Qed.

Lemma port_read_ok_bytes (port : port_interface) (n : Z) (h : history) got evs :
  port_read port n h = (Some (PORT_ERR_OK, got), evs) ->
  Forall (fun b => 0 <= b < 256) got /\ length got = Z.to_nat n /\
  evs = [EvRead n PORT_ERR_OK got].
Proof.
  unfold port_read. destruct (read port h n) as [e bs].
  intros Heq. inversion Heq; subst. clear Heq.
  split; [apply fit_bytes|]. split; [|reflexivity].
  unfold fit. rewrite length_firstn, length_app, repeat_length. lia.
Qed.

(** ** Memory operations on the wire *)

Section MoreMemory.
Context `{port_h} `{libc}.

Lemma stm32_send_command_step {B : Type} fuel stm c (bad : B) (k : io B) h r evs :
  r <> bad ->
  (s <- stm32_send_command fuel stm c ;;
   if negb (stm32_err_eqb s STM32_ERR_OK) then ret bad else k) h = (Some r, evs) ->
  exists e1 e2, sent_command c e1 /\ k (h ++ e1) = (Some r, e2) /\ evs = e1 ++ e2.
Proof.
  intros Hne Hrun. apply bind_ok_inv in Hrun.
  destruct Hrun as [(s & _ & _ & ->)|(e1 & e2 & Hs & Hk & ->)]; [congruence|].
  apply stm32_send_command_ok in Hs. eauto.
Qed.

Lemma stm32_get_ack_step {B : Type} fuel stm (bad : B) (k : io B) h r evs :
  r <> bad ->
  (s <- stm32_get_ack fuel stm ;;
   if negb (stm32_err_eqb s STM32_ERR_OK) then ret bad else k) h = (Some r, evs) ->
  exists e1 e2, acked e1 /\ k (h ++ e1) = (Some r, e2) /\ evs = e1 ++ e2.
Proof.
  intros Hne Hrun. apply bind_ok_inv in Hrun.
  destruct Hrun as [(s & _ & _ & ->)|(e1 & e2 & Hs & Hk & ->)]; [congruence|].
  apply stm32_get_ack_ok in Hs. eauto.
Qed.

Lemma port_write_step {B : Type} port buf (bad : B) (k : io B) h r evs :
  r <> bad ->
  (p_err <- port_write port buf ;;
   if negb (port_err_eqb p_err PORT_ERR_OK) then ret bad else k) h = (Some r, evs) ->
  exists e2, k (h ++ [EvWrite buf PORT_ERR_OK]) = (Some r, e2) /\
             evs = EvWrite buf PORT_ERR_OK :: e2.
Proof.
  intros Hne Hrun. apply write_ok_inv in Hrun.
  destruct Hrun as [(e & _ & _ & ->)|Hok]; [congruence|assumption].
Qed.

Lemma stm32_get_ack_timeout_step {B : Type} fuel stm timeout (bad : B) (k : io B) h r evs :
  r <> bad ->
  (s <- stm32_get_ack_timeout fuel stm timeout ;;
   if negb (stm32_err_eqb s STM32_ERR_OK) then ret bad else k) h = (Some r, evs) ->
  exists e1 e2, first_non_busy e1 = Some STM32_ACK /\ writes e1 = [] /\
                k (h ++ e1) = (Some r, e2) /\ evs = e1 ++ e2.
Proof.
  intros Hne Hrun. apply bind_ok_inv in Hrun.
  destruct Hrun as [(s & _ & _ & ->)|(e1 & e2 & Hs & Hk & ->)]; [congruence|].
  pose proof (stm32_get_ack_timeout_result fuel stm timeout h) as (Hok & _ & Hw).
  rewrite Hs in Hok, Hw. cbn [fst snd] in Hok, Hw.
  exists e1, e2. repeat split; auto. apply Hok. reflexivity.
Qed.

End MoreMemory.

Lemma stm32_read_memory_run `{port_h} `{libc} :
  forall (fuel : nat) (stm : stm32_t) (address : Z) (data : list Z) (len : Z)
         (h : history) (data' : list Z) (evs : list event),
    len <> 0 ->
    stm32_read_memory fuel stm address data len h = (Some (STM32_ERR_OK, data'), evs) ->
    len <= 256 /\ rm (cmd stm) <> STM32_CMD_ERR /\
    exists c1 a1 c2 got,
      evs = c1 ++ EvWrite (firstn 5 (store_address address (repeat 0 5%nat))) PORT_ERR_OK
               :: a1 ++ c2 ++ [EvRead len PORT_ERR_OK got] /\
      sent_command (rm (cmd stm)) c1 /\ acked a1 /\ sent_command (u8 (len - 1)) c2 /\
      length got = Z.to_nat len /\ Forall (fun b => 0 <= b < 256) got /\
      data' = blit data 0 got.
Proof.
  intros fuel stm address data len h data' evs Hlen Hrun.
  unfold stm32_read_memory in Hrun.
  destruct (Z.eqb_spec len 0) as [|_]; [contradiction|].
  destruct (Z.gtb_spec len 256) as [|Hle];
    [apply ret_inv in Hrun; destruct Hrun; discriminate|].
  destruct (Z.eqb_spec (rm (cmd stm)) STM32_CMD_ERR) as [|Hrm];
    [apply ret_inv in Hrun; destruct Hrun; discriminate|].
  split; [lia|]. split; [assumption|].
  apply stm32_send_command_step in Hrun; [|discriminate].
  destruct Hrun as (c1 & e2 & Hc1 & Hrun & ->).
  apply port_write_step in Hrun; [|discriminate].
  destruct Hrun as (e3 & Hrun & ->).
  apply stm32_get_ack_step in Hrun; [|discriminate].
  destruct Hrun as (a1 & e4 & Ha1 & Hrun & ->).
  apply stm32_send_command_step in Hrun; [|discriminate].
  destruct Hrun as (c2 & e5 & Hc2 & Hrun & ->).
  apply bind_inv in Hrun.
  destruct Hrun as [([e got] & e6 & e7 & Hrd & Hk & ->)|[_ Hr]]; [|discriminate].
  destruct e; cbn [port_err_eqb negb] in Hk; apply ret_inv in Hk; destruct Hk as [Hr ->];
    try discriminate.
  apply port_read_ok_bytes in Hrd. destruct Hrd as (Hbytes & Hgot & ->).
  inversion Hr; subst data'.
  exists c1, a1, c2, got. rewrite app_nil_r.
  repeat split; auto.
Qed.

(** X3.  A read that returns OK for a length other than zero went
    through the whole exchange: the read command acknowledged, the
    address payload acknowledged, the count [len - 1] sent as a command
    of its own and acknowledged, and one read of exactly [len] bytes,
    each within a byte, which land at the start of the buffer of the
    caller. *)
Theorem stm32_read_memory_ok `{port_h} `{libc} :
  forall (fuel : nat) (stm : stm32_t) (address : Z) (data : list Z) (len : Z)
         (h : history) (data' : list Z) (evs : list event),
    len <> 0 ->
    stm32_read_memory fuel stm address data len h = (Some (STM32_ERR_OK, data'), evs) ->
    len <= 256 /\ rm (cmd stm) <> STM32_CMD_ERR /\
    exists c1 a1 c2 got,
      evs = c1 ++ EvWrite (firstn 5 (store_address address (repeat 0 5%nat))) PORT_ERR_OK
               :: a1 ++ c2 ++ [EvRead len PORT_ERR_OK got] /\
      sent_command (rm (cmd stm)) c1 /\ acked a1 /\ sent_command (u8 (len - 1)) c2 /\
      length got = Z.to_nat len /\ Forall (fun b => 0 <= b < 256) got /\
      data' = blit data 0 got.
Proof.
  exact stm32_read_memory_run.
Qed.

Lemma stm32_write_memory_run `{port_h} `{libc} :
  forall (fuel : nat) (stm : stm32_t) (address : Z) (data : list Z) (len : Z)
         (h : history) (evs : list event),
    len <> 0 ->
    stm32_write_memory fuel stm address data len h = (Some STM32_ERR_OK, evs) ->
    len <= 256 /\ Z.land address 0x3 = 0 /\ wm (cmd stm) <> STM32_CMD_ERR /\
    exists c1 a1 w,
      evs = c1 ++ EvWrite (firstn 5 (store_address address (repeat 0 258%nat))) PORT_ERR_OK
               :: a1 ++ EvWrite (write_memory_data_frame address data len) PORT_ERR_OK :: w /\
      sent_command (wm (cmd stm)) c1 /\ acked a1 /\
      first_non_busy w = Some STM32_ACK /\ writes w = [].
Proof.
  intros fuel stm address data len h evs Hlen Hrun.
  unfold stm32_write_memory in Hrun.
  destruct (Z.eqb_spec len 0) as [|_]; [contradiction|].
  destruct (Z.gtb_spec len 256) as [|Hle];
    [apply ret_inv in Hrun; destruct Hrun; discriminate|].
  destruct (Z.eqb_spec (Z.land address 3) 0) as [Hal|];
    [|apply ret_inv in Hrun; destruct Hrun; discriminate].
  cbn [negb] in Hrun.
  destruct (Z.eqb_spec (wm (cmd stm)) STM32_CMD_ERR) as [|Hwm];
    [apply ret_inv in Hrun; destruct Hrun; discriminate|].
  split; [lia|]. split; [assumption|]. split; [assumption|].
  apply stm32_send_command_step in Hrun; [|discriminate].
  destruct Hrun as (c1 & e2 & Hc1 & Hrun & ->).
  apply port_write_step in Hrun; [|discriminate].
  destruct Hrun as (e3 & Hrun & ->).
  apply stm32_get_ack_step in Hrun; [|discriminate].
  destruct Hrun as (a1 & e4 & Ha1 & Hrun & ->).
  unfold write_memory_data_frame.
  destruct (write_memory_frame data len (store_address address (repeat 0 258%nat)))
    as [buf aligned_len].
  apply port_write_step in Hrun; [|discriminate].
  destruct Hrun as (e5 & Hrun & ->).
  apply stm32_get_ack_timeout_step in Hrun; [|discriminate].
  destruct Hrun as (w & e6 & Hw & Hww & Hrun & ->).
  apply ret_inv in Hrun. destruct Hrun as [_ ->]. rewrite app_nil_r.
  exists c1, a1, w. repeat split; auto.
Qed.

(** X4.  A write that returns OK for a length other than zero was at
    most 256 bytes to an aligned address, and went through the whole
    exchange: the write command acknowledged, the address payload
    acknowledged, then the data frame, after which the first byte other
    than BUSY was ACK.  Nothing else was written. *)
Theorem stm32_write_memory_ok `{port_h} `{libc} :
  forall (fuel : nat) (stm : stm32_t) (address : Z) (data : list Z) (len : Z)
         (h : history) (evs : list event),
    len <> 0 ->
    stm32_write_memory fuel stm address data len h = (Some STM32_ERR_OK, evs) ->
    len <= 256 /\ Z.land address 0x3 = 0 /\ wm (cmd stm) <> STM32_CMD_ERR /\
    exists c1 a1 w,
      evs = c1 ++ EvWrite (firstn 5 (store_address address (repeat 0 258%nat))) PORT_ERR_OK
               :: a1 ++ EvWrite (write_memory_data_frame address data len) PORT_ERR_OK :: w /\
      sent_command (wm (cmd stm)) c1 /\ acked a1 /\
      first_non_busy w = Some STM32_ACK /\ writes w = [].
Proof.
  exact stm32_write_memory_run.
Qed.

Lemma stm32_go_run `{port_h} `{libc} :
  forall (fuel : nat) (stm : stm32_t) (address : Z) (h : history),
    let run := stm32_go fuel stm address h in
    let payload := firstn 5 (store_address address (repeat 0 5%nat)) in
    (go (cmd stm) = STM32_CMD_ERR -> run = (Some STM32_ERR_NO_CMD, [])) /\
    (go (cmd stm) <> STM32_CMD_ERR ->
       (writes (snd run) = [[go (cmd stm); Z.lxor (go (cmd stm)) 0xFF]] \/
        writes (snd run) = [[go (cmd stm); Z.lxor (go (cmd stm)) 0xFF]; payload]) /\
       (fst run = None \/ fst run = Some STM32_ERR_OK \/ fst run = Some STM32_ERR_UNKNOWN) /\
       (fst run = Some STM32_ERR_OK ->
          exists c1 a1,
            snd run = c1 ++ EvWrite payload PORT_ERR_OK :: a1 /\
            sent_command (go (cmd stm)) c1 /\ acked a1)).
Proof.
  intros fuel stm address h run payload. subst run payload. unfold stm32_go.
  split.
  - intros Hgo. rewrite Hgo. reflexivity.
  - intros Hgo. destruct (Z.eqb_spec (go (cmd stm)) STM32_CMD_ERR) as [|_]; [contradiction|].
    split; [|split].
    + rewrite writes_bind.
      pose proof (stm32_send_command_timeout_writes fuel stm (go (cmd stm)) 0 h) as Hw.
      fold (stm32_send_command fuel stm (go (cmd stm))) in Hw.
      destruct (stm32_send_command fuel stm (go (cmd stm)) h) as [[s|] e1]; cbn [snd] in Hw;
        rewrite Hw; [|left; reflexivity].
      destruct (negb (stm32_err_eqb s STM32_ERR_OK)); [left; reflexivity|].
      rewrite writes_bind. unfold port_write. cbv beta iota zeta.
      destruct (negb (port_err_eqb _ PORT_ERR_OK)); [right; reflexivity|].
      rewrite writes_bind.
      unfold stm32_get_ack.
      match goal with
      | |- context [stm32_get_ack_timeout fuel stm 0 ?hh] =>
        pose proof (stm32_get_ack_timeout_writes fuel stm 0 hh) as Hw2;
        destruct (stm32_get_ack_timeout fuel stm 0 hh) as [[s2|] e3]
      end; cbn [snd] in Hw2; rewrite Hw2; [|right; reflexivity].
      destruct (negb (stm32_err_eqb s2 STM32_ERR_OK)); right; reflexivity.
    + match goal with |- context [fst ?rr] => destruct rr as [r evs] eqn:Hrun end.
      cbn [fst]. destruct r as [r|]; [|auto]. right.
      apply bind_ok_inv in Hrun.
      destruct Hrun as [(s & _ & _ & ->)|(e1 & e2 & _ & Hrun & _)]; [auto|].
      apply write_ok_inv in Hrun.
      destruct Hrun as [(e & _ & _ & ->)|(e3 & Hrun & _)]; [auto|].
      apply bind_ok_inv in Hrun.
      destruct Hrun as [(s & _ & _ & ->)|(e4 & e5 & _ & Hrun & _)]; [auto|].
      apply ret_inv in Hrun. destruct Hrun as [Hr _]. inversion Hr. auto.
    + match goal with |- context [fst ?rr] => destruct rr as [r evs] eqn:Hrun end.
      cbn [fst snd]. intros ->.
      apply stm32_send_command_step in Hrun; [|discriminate].
      destruct Hrun as (c1 & e2 & Hc1 & Hrun & ->).
      apply port_write_step in Hrun; [|discriminate].
      destruct Hrun as (e3 & Hrun & ->).
      apply stm32_get_ack_step in Hrun; [|discriminate].
      destruct Hrun as (a1 & e4 & Ha1 & Hrun & ->).
      apply ret_inv in Hrun. destruct Hrun as [_ ->]. rewrite app_nil_r.
      exists c1, a1. auto.
Qed.

(** X5.  GO without a GO opcode is NO_CMD and touches nothing.
    Otherwise only the framed opcode and the address payload are ever
    written, in that order; the result is OK or UNKNOWN, and OK means
    that the command was acknowledged, the payload written and
    acknowledged. *)
Theorem stm32_go_exchange `{port_h} `{libc} :
  forall (fuel : nat) (stm : stm32_t) (address : Z) (h : history),
    let run := stm32_go fuel stm address h in
    let payload := firstn 5 (store_address address (repeat 0 5%nat)) in
    (go (cmd stm) = STM32_CMD_ERR -> run = (Some STM32_ERR_NO_CMD, [])) /\
    (go (cmd stm) <> STM32_CMD_ERR ->
       (writes (snd run) = [[go (cmd stm); Z.lxor (go (cmd stm)) 0xFF]] \/
        writes (snd run) = [[go (cmd stm); Z.lxor (go (cmd stm)) 0xFF]; payload]) /\
       (fst run = None \/ fst run = Some STM32_ERR_OK \/ fst run = Some STM32_ERR_UNKNOWN) /\
       (fst run = Some STM32_ERR_OK ->
          exists c1 a1,
            snd run = c1 ++ EvWrite payload PORT_ERR_OK :: a1 /\
            sent_command (go (cmd stm)) c1 /\ acked a1)).
Proof.
  exact stm32_go_run.
Qed.

(** ** Protection *)

Section MoreProtection.
Context `{port_h} `{libc}.

Lemma protection_run_unfold (p : protection) fuel stm :
  protection_run p fuel stm
  = if protection_slot p (cmd stm) =? STM32_CMD_ERR then ret STM32_ERR_NO_CMD
    else protection_exchange fuel stm (protection_slot p (cmd stm)) (protection_timeout p).
Proof.
  destruct p; reflexivity.
Qed.

Lemma protection_exchange_run fuel stm c timeout h :
  let run := protection_exchange fuel stm c timeout h in
  writes (snd run) = [[c; Z.lxor c 0xFF]] /\
  (fst run = None \/ fst run = Some STM32_ERR_OK \/ fst run = Some STM32_ERR_UNKNOWN) /\
  (fst run = Some STM32_ERR_OK ->
     exists c1 w, snd run = c1 ++ w /\ sent_command c c1 /\
                  first_non_busy w = Some STM32_ACK).
Proof.
  intros run. subst run. unfold protection_exchange.
  destruct (bind _ _ h) as [r evs] eqn:Hrun. cbn [fst snd].
  apply bind_inv in Hrun.
  pose proof (stm32_send_command_timeout_writes fuel stm c 0 h) as Hw.
  fold (stm32_send_command fuel stm c) in Hw.
  destruct Hrun as [(s & e1 & e2 & Hs & Hk & ->)|[Hs ->]];
    rewrite Hs in Hw; cbn [snd] in Hw;
    [|split; [assumption|]; split; [auto|discriminate]].
  destruct s; cbn [stm32_err_eqb negb] in Hk;
    try (apply ret_inv in Hk; destruct Hk as [-> ->]; rewrite app_nil_r;
         split; [assumption|]; split; [auto|discriminate]).
  apply bind_inv in Hk.
  pose proof (stm32_get_ack_timeout_result fuel stm timeout (h ++ e1)) as (Hok & _ & Hw2).
  destruct Hk as [(s & e3 & e4 & Ha & Hk & ->)|[Ha ->]];
    rewrite Ha in Hok, Hw2; cbn [fst snd] in Hok, Hw2.
  - destruct s; cbn [stm32_err_eqb negb] in Hk; apply ret_inv in Hk;
      destruct Hk as [-> ->]; rewrite app_nil_r, writes_app, Hw, Hw2;
      (split; [reflexivity|]); (split; [auto|]); try discriminate.
    intros _. exists e1, e3. split; [reflexivity|].
    split; [apply stm32_send_command_ok in Hs; assumption|].
    apply Hok. reflexivity.
  - rewrite writes_app, Hw, Hw2. split; [reflexivity|]. split; [auto|discriminate].
Qed.

End MoreProtection.

(** X6.  The four protection commands (write unprotect, write protect,
    readout unprotect, readout protect) behave alike.  Without the opcode
    in the command map the call is NO_CMD and touches nothing.  With it,
    the only thing ever written is the framed opcode; the result is OK or
    UNKNOWN, never NACK, and OK means that the opcode was acknowledged
    and that the first byte other than BUSY after that was ACK as well. *)
Theorem protection_commands `{port_h} `{libc} :
  forall (p : protection) (fuel : nat) (stm : stm32_t) (h : history),
    let run := protection_run p fuel stm h in
    let c := protection_slot p (cmd stm) in
    (c = STM32_CMD_ERR -> run = (Some STM32_ERR_NO_CMD, [])) /\
    (c <> STM32_CMD_ERR ->
       writes (snd run) = [[c; Z.lxor c 0xFF]] /\
       (fst run = None \/ fst run = Some STM32_ERR_OK \/ fst run = Some STM32_ERR_UNKNOWN) /\
       (fst run = Some STM32_ERR_OK ->
          exists c1 w, snd run = c1 ++ w /\ sent_command c c1 /\
                       first_non_busy w = Some STM32_ACK)).
Proof.
  intros p fuel stm h run c. subst run c. rewrite protection_run_unfold.
  split.
  - intros ->. reflexivity.
  - intros Hc. destruct (Z.eqb_spec (protection_slot p (cmd stm)) STM32_CMD_ERR) as [|_];
      [contradiction|].
    apply protection_exchange_run.
Qed.

(** ** Erase *)

Section MoreErase.
Context `{port_h} `{stm32_h} `{libc}.

Lemma stm32_mass_erase_writes fuel stm h :
  let run := stm32_mass_erase fuel stm h in
  let c := [er (cmd stm); Z.lxor (er (cmd stm)) 0xFF] in
  let f := if er (cmd stm) =? STM32_CMD_ER then [0xFF; 0x00] else [0xFF; 0xFF; 0x00] in
  (writes (snd run) = [c] \/ writes (snd run) = [c; f]) /\
  (fst run = Some STM32_ERR_OK -> writes (snd run) = [c; f]) /\
  (fst run = None \/ fst run = Some STM32_ERR_OK \/ fst run = Some STM32_ERR_UNKNOWN).
Proof.
  cbv zeta. unfold stm32_mass_erase.
  pose proof (stm32_send_command_timeout_writes fuel stm (er (cmd stm)) 0 h) as Hc.
  fold (stm32_send_command fuel stm (er (cmd stm))) in Hc.
  destruct (stm32_send_command fuel stm (er (cmd stm)) h) as [[s|] e1] eqn:E1;
    cbn [snd] in Hc;
    [rewrite (bind_some _ _ _ _ _ E1) | rewrite (bind_none _ _ _ _ E1)];
    cbn [fst snd]; rewrite ?writes_app, Hc;
    [|split; [left; reflexivity|]; split; [discriminate | left; reflexivity]].
  destruct (negb (stm32_err_eqb s STM32_ERR_OK));
    [cbn [ret fst snd writes app];
     split; [left; reflexivity|]; split; [discriminate | right; right; reflexivity]|].
  destruct (er (cmd stm) =? STM32_CMD_ER).
  - pose proof (stm32_send_command_timeout_writes fuel stm 0xFF STM32_MASSERASE_TIMEOUT
                  (h ++ e1)) as Hw.
    destruct (stm32_send_command_timeout fuel stm 255 STM32_MASSERASE_TIMEOUT (h ++ e1))
      as [[s2|] e2] eqn:E2; cbn [snd] in Hw;
      [rewrite (bind_some _ _ _ _ _ E2) | rewrite (bind_none _ _ _ _ E2)];
      cbn [fst snd]; rewrite ?writes_app, Hw.
    + destruct (negb (stm32_err_eqb s2 STM32_ERR_OK)); cbn [ret fst snd writes app];
        (split; [right; reflexivity|]); split; auto.
    + cbn [app]. split; [right; reflexivity|]. split; auto.
  - rewrite (bind_some (port_write (port stm) [255; 255; 0]) _ (h ++ e1) _ _ eq_refl).
    cbn [fst snd writes app].
    destruct (negb (port_err_eqb _ PORT_ERR_OK)); [cbn; auto|].
    match goal with
    | |- context [bind (stm32_get_ack_timeout fuel stm ?t) ?k ?h1] =>
      pose proof (stm32_get_ack_timeout_writes fuel stm t h1) as Ha;
      destruct (stm32_get_ack_timeout fuel stm t h1) as [[s2|] e2] eqn:E2;
      cbn [snd] in Ha;
      [rewrite (bind_some _ k h1 _ _ E2) | rewrite (bind_none _ k h1 _ E2)]
    end; cbn [fst snd]; rewrite ?writes_app, Ha.
    + destruct (negb (stm32_err_eqb s2 STM32_ERR_OK)); cbn; auto.
    + cbn. auto.
Qed.

End MoreErase.

(** X7.  On a device with the mass-erase opcode, erasing
    [STM32_MASS_ERASE] pages puts the erase opcode on the wire and then
    the mass-erase payload of the negotiated protocol ([FF 00] for the
    one-byte erase, [FF FF 00] for the extended one), and nothing else;
    OK means both went out.  The start page takes no part in it: every
    start page up to [STM32_MAX_PAGES] gives the same erase of the whole
    flash. *)
Theorem stm32_erase_memory_mass `{port_h} `{stm32_h} `{libc} :
  forall (fuel : nat) (stm : stm32_t) (spage : Z) (h : history),
    has_flag (dev_flags (dev stm)) F_NO_ME = false ->
    STM32_MASS_ERASE <> 0 -> 0 <= STM32_MAX_PAGES -> spage <= STM32_MAX_PAGES ->
    er (cmd stm) <> STM32_CMD_ERR ->
    let run := stm32_erase_memory fuel stm spage STM32_MASS_ERASE h in
    let c := [er (cmd stm); Z.lxor (er (cmd stm)) 0xFF] in
    let f := if er (cmd stm) =? STM32_CMD_ER then [0xFF; 0x00] else [0xFF; 0xFF; 0x00] in
    run = stm32_erase_memory fuel stm 0 STM32_MASS_ERASE h /\
    (writes (snd run) = [c] \/ writes (snd run) = [c; f]) /\
    (fst run = Some STM32_ERR_OK -> writes (snd run) = [c; f]) /\
    (fst run = None \/ fst run = Some STM32_ERR_OK \/ fst run = Some STM32_ERR_UNKNOWN).
Proof.
  intros fuel stm spage h Hme Hmass Hmax Hspage Her.
  assert (Hrun : forall sp, sp <= STM32_MAX_PAGES ->
                   stm32_erase_memory fuel stm sp STM32_MASS_ERASE h
                   = stm32_mass_erase fuel stm h).
  { intros sp Hsp. unfold stm32_erase_memory.
    destruct (Z.eqb_spec STM32_MASS_ERASE 0) as [Hz|_]; [contradiction|].
    destruct (Z.gtb_spec sp STM32_MAX_PAGES) as [Hgt|_]; [lia|].
    rewrite Z.eqb_refl. cbn [negb andb orb].
    destruct (Z.eqb_spec (er (cmd stm)) STM32_CMD_ERR) as [Hz|_]; [contradiction|].
    rewrite Hme. reflexivity. }
  cbv zeta. rewrite (Hrun spage Hspage).
  split.
  - rewrite (Hrun 0 Hmax). reflexivity.
  - apply stm32_mass_erase_writes.
Qed.


(** ** The frames of a page erase *)

(** X9.  The buffer that [stm32_pages_erase] builds for up to 512
    pages, the most that the engine puts in one frame.  While the page
    numbers fit their field (all below 256 for the one-byte erase, all
    below 65536 for the extended erase) it is the frame of the protocol
    table: the count of pages less one, the page numbers and the XOR of
    all bytes before; for the extended erase the count less one and each
    page number take two bytes, high byte first.  Beyond that the code
    stores every field reduced to one byte: the count less one and the
    page numbers modulo 256 for the one-byte erase, the low 16 bits of
    the page numbers for the extended erase. *)
Theorem pages_erase_frames_content :
  forall (spage pages : Z),
    0 <= spage -> 1 <= pages <= 512 -> spage + pages < 2147483648 ->
    (spage + pages <= 256 ->
       pages_erase_frame spage pages = erase_legacy_pages spage pages) /\
    (spage + pages <= 65536 ->
       pages_erase_frame_ext spage pages = erase_ext_pages spage pages) /\
    let numbers := zseq spage (Z.to_nat pages) in
    let body := u8 (pages - 1) :: map u8 numbers in
    let body_ext :=
      [u8 (Z.shiftr (pages - 1) 8); u8 (Z.land (pages - 1) 0xFF)]
      ++ flat_map (fun pg => [u8 (Z.shiftr pg 8); u8 (Z.land pg 0xFF)]) numbers in
    pages_erase_frame spage pages = body ++ [xor_all body] /\
    pages_erase_frame_ext spage pages = body_ext ++ [xor_all body_ext].
Proof.
  intros spage pages Hs Hp Hsum. split; [|split].
  - intros Hfit. apply pages_erase_frame_exact; lia.
  - intros Hfit. apply pages_erase_frame_ext_exact; lia.
  - exact (pages_erase_frames_u8 spage pages Hs Hp Hsum).
Qed.

(** ** CRC *)

Lemma land3_mod4 (x : Z) : Z.land x 3 = x mod 4.
Proof.
  change 3 with (Z.ones 2). rewrite Z.land_ones by lia. reflexivity.
Qed.

Lemma idx_app_l (a b : list Z) (i : Z) :
  0 <= i < Z.of_nat (length a) -> idx (a ++ b) i = idx a i.
Proof.
  intros Hi. unfold idx. apply app_nth1. lia.
Qed.

Lemma stm32_sw_crc_loop_app (n1 : nat) :
  forall (n2 : nat) (crc : Z) (b1 b2 : list Z),
    length b1 = (4 * n1)%nat ->
    stm32_sw_crc_loop (n1 + n2) crc (b1 ++ b2)
    = stm32_sw_crc_loop n2 (stm32_sw_crc_loop n1 crc b1) b2.
Proof.
  induction n1 as [|n1 IH]; intros n2 crc b1 b2 Hlen.
  - destruct b1; [reflexivity|discriminate].
  - change (S n1 + n2)%nat with (S (n1 + n2)).
    rewrite !stm32_sw_crc_loop_S.
    rewrite !idx_app_l by lia.
    rewrite skipn_app.
    replace (4 - length b1)%nat with O by lia. change (skipn 0 b2) with b2.
    apply IH. rewrite length_skipn. lia.
Qed.

Lemma stm32_sw_crc_app :
  forall (crc : Z) (b1 b2 : list Z) (l1 l2 : Z),
    Z.of_nat (length b1) = l1 -> l1 mod 4 = 0 -> 0 <= l2 -> l2 mod 4 = 0 ->
    stm32_sw_crc (stm32_sw_crc crc b1 l1) b2 l2 = stm32_sw_crc crc (b1 ++ b2) (l1 + l2).
Proof.
  intros crc b1 b2 l1 l2 Hl1 Hm1 Hl2 Hm2. unfold stm32_sw_crc.
  rewrite !land3_mod4, Hm1, Hm2.
  replace ((l1 + l2) mod 4) with 0 by (Z.div_mod_to_equations; lia).
  cbn [Z.eqb negb].
  replace (Z.to_nat ((l1 + l2) / 4)) with (Z.to_nat (l1 / 4) + Z.to_nat (l2 / 4))%nat
    by (Z.div_mod_to_equations; lia).
  symmetry. apply stm32_sw_crc_loop_app.
  Z.div_mod_to_equations. lia.
Qed.

(** X10.  The host-side CRC can be fed in pieces: the CRC of a second
    piece, seeded with the CRC of a first piece of whole words, is the
    CRC of the two pieces together.  This is what lets the fallback CRC
    work through the memory one block at a time. *)
Theorem stm32_sw_crc_chunks :
  forall (crc : Z) (b1 b2 : list Z) (l1 l2 : Z),
    Z.of_nat (length b1) = l1 -> l1 mod 4 = 0 -> 0 <= l2 -> l2 mod 4 = 0 ->
    stm32_sw_crc (stm32_sw_crc crc b1 l1) b2 l2 = stm32_sw_crc crc (b1 ++ b2) (l1 + l2).
Proof.
  exact stm32_sw_crc_app.
Qed.

Lemma be_word_value (b0 b1 b2 b3 : Z) :
  0 <= b0 < 256 -> 0 <= b1 < 256 -> 0 <= b2 < 256 -> 0 <= b3 < 256 ->
  u32 (Z.lor (Z.lor (Z.lor (Z.shiftl b0 24) (Z.shiftl b1 16)) (Z.shiftl b2 8)) b3)
  = 16777216 * b0 + 65536 * b1 + 256 * b2 + b3.
Proof.
  intros H0 H1 H2 H3.
  assert (Hh : Z.lor (Z.lor (Z.lor (Z.shiftl b0 24) (Z.shiftl b1 16)) (Z.shiftl b2 8)) b3
               = Z.lor b3 (Z.shiftl (Z.lor b2 (Z.shiftl (Z.lor b1 (Z.shiftl b0 8)) 8)) 8)).
  { rewrite !Z.shiftl_lor, !Z.shiftl_shiftl by lia. cbn [Z.add Pos.add Pos.succ].
    rewrite (Z.lor_comm _ b3). f_equal.
    rewrite (Z.lor_comm (Z.shiftl b2 8)). f_equal. apply Z.lor_comm. }
  rewrite Hh.
  rewrite (lor_shiftl_add b1 b0 8) by (change (2 ^ 8) with 256; lia).
  rewrite (lor_shiftl_add b2 _ 8) by (change (2 ^ 8) with 256; lia).
  rewrite (lor_shiftl_add b3 _ 8) by (change (2 ^ 8) with 256; lia).
  change (2 ^ 8) with 256. rewrite u32_small by lia. lia.
Qed.

(** X11.  The CRC command of the device.  A call that returns OK had an
    aligned address and an aligned length, and went through the whole
    exchange: the opcode acknowledged, the address payload acknowledged,
    the length payload (same form) acknowledged twice, and one read of
    five bytes whose last byte is the XOR of the first four.  The value
    handed back is those four bytes read as a number, most significant
    byte first. *)
Theorem stm32_crc_memory_ok `{port_h} `{libc} :
  forall (fuel : nat) (stm : stm32_t) (address length : Z) (crc0 : Z) (h : history)
         (value : Z) (evs : list event),
    stm32_crc_memory fuel stm address length crc0 h = (Some (STM32_ERR_OK, value), evs) ->
    Z.land address 0x3 = 0 /\ Z.land length 0x3 = 0 /\ crc (cmd stm) <> STM32_CMD_ERR /\
    exists c1 a1 a2 a3 b0 b1 b2 b3,
      evs = c1 ++ EvWrite (firstn 5 (store_address address (repeat 0 5%nat))) PORT_ERR_OK
               :: a1 ++ EvWrite (firstn 5 (store_address length (repeat 0 5%nat))) PORT_ERR_OK
               :: a2 ++ a3
               ++ [EvRead 5 PORT_ERR_OK [b0; b1; b2; b3; Z.lxor (Z.lxor (Z.lxor b0 b1) b2) b3]] /\
      sent_command (crc (cmd stm)) c1 /\ acked a1 /\ acked a2 /\ acked a3 /\
      value = 16777216 * b0 + 65536 * b1 + 256 * b2 + b3 /\
      0 <= value < 4294967296.
Proof.
  intros fuel stm address length crc0 h value evs Hrun.
  unfold stm32_crc_memory in Hrun.
  destruct (Z.eqb_spec (Z.land address 3) 0) as [Ha|];
    [|apply ret_inv in Hrun; destruct Hrun; discriminate].
  destruct (Z.eqb_spec (Z.land length 3) 0) as [Hl|];
    [|apply ret_inv in Hrun; destruct Hrun; discriminate].
  cbn [negb orb] in Hrun.
  destruct (Z.eqb_spec (crc (cmd stm)) STM32_CMD_ERR) as [|Hcrc];
    [apply ret_inv in Hrun; destruct Hrun; discriminate|].
  split; [assumption|]. split; [assumption|]. split; [assumption|].
  apply stm32_send_command_step in Hrun; [|discriminate].
  destruct Hrun as (c1 & e2 & Hc1 & Hrun & ->).
  apply port_write_step in Hrun; [|discriminate].
  destruct Hrun as (e3 & Hrun & ->).
  apply stm32_get_ack_step in Hrun; [|discriminate].
  destruct Hrun as (a1 & e4 & Ha1 & Hrun & ->).
  apply port_write_step in Hrun; [|discriminate].
  destruct Hrun as (e5 & Hrun & ->).
  apply stm32_get_ack_step in Hrun; [|discriminate].
  destruct Hrun as (a2 & e6 & Ha2 & Hrun & ->).
  apply stm32_get_ack_step in Hrun; [|discriminate].
  destruct Hrun as (a3 & e7 & Ha3 & Hrun & ->).
  apply bind_inv in Hrun.
  destruct Hrun as [([e got] & e8 & e9 & Hrd & Hk & ->)|[_ Hr]]; [|discriminate].
  destruct e; cbn [port_err_eqb negb] in Hk;
    try (apply ret_inv in Hk; destruct Hk; discriminate).
  apply port_read_ok_bytes in Hrd. destruct Hrd as (Hbytes & Hlen & ->).
  destruct got as [|b0 [|b1 [|b2 [|b3 [|b4 [|]]]]]]; try discriminate Hlen.
  assert (Hidx : forall buf j, 0 <= j < 5 ->
                   idx (blit buf 0 [b0; b1; b2; b3; b4]) j = idx [b0; b1; b2; b3; b4] j).
  { intros buf j Hj. unfold blit. change (Z.to_nat 0) with O.
    change (firstn 0 (buf ++ repeat 0 (0 - List.length buf))) with (@nil Z).
    rewrite app_nil_l. apply idx_app_l. cbn [List.length]. lia. }
  rewrite !Hidx in Hk by lia.
  change (idx [b0; b1; b2; b3; b4] 0) with b0 in Hk.
  change (idx [b0; b1; b2; b3; b4] 1) with b1 in Hk.
  change (idx [b0; b1; b2; b3; b4] 2) with b2 in Hk.
  change (idx [b0; b1; b2; b3; b4] 3) with b3 in Hk.
  change (idx [b0; b1; b2; b3; b4] 4) with b4 in Hk.
  assert (Hb : 0 <= b0 < 256 /\ 0 <= b1 < 256 /\ 0 <= b2 < 256 /\ 0 <= b3 < 256).
  { rewrite Forall_forall in Hbytes.
    repeat split; apply Hbytes; cbn [In]; auto. }
  destruct Hb as (Hb0 & Hb1 & Hb2 & Hb3).
  rewrite be_word_value in Hk by assumption.
  destruct (Z.eqb_spec b4 (Z.lxor (Z.lxor (Z.lxor b0 b1) b2) b3)) as [Hcs|];
    cbn [negb] in Hk; apply ret_inv in Hk; destruct Hk as [Hr ->]; [|discriminate].
  assert (Hv : value = 16777216 * b0 + 65536 * b1 + 256 * b2 + b3) by congruence.
  clear Hr. subst b4.
  exists c1, a1, a2, a3, b0, b1, b2, b3.
  rewrite app_nil_r.
  replace (firstn 5 (store_address length (store_address address (repeat 0 5%nat))))
    with (firstn 5 (store_address length (repeat 0 5%nat)))
    by (rewrite !store_address_bytes
          by (rewrite ?length_store_address, repeat_length; lia); reflexivity).
  repeat split; auto; lia.
Qed.

(** ** The host-side fallback of the CRC *)

Lemma block_reads_app (e1 e2 : list event) :
  block_reads (e1 ++ e2) = block_reads e1 ++ block_reads e2.
Proof.
  induction e1 as [|[buf res|n res got|t|u] e1 IH]; cbn [block_reads app]; auto.
  destruct res; auto. rewrite IH, app_assoc. reflexivity.
Qed.

Lemma block_reads_acked (evs : list event) : acked evs -> block_reads evs = [].
Proof.
  intros (k & ->). induction k as [|k IH]; [reflexivity|].
  cbn [repeat app block_reads]. rewrite IH. reflexivity.
Qed.

Lemma block_reads_sent_command (c : Z) (evs : list event) :
  sent_command c evs -> block_reads evs = [].
Proof.
  intros (ack & -> & Hack). cbn [block_reads]. apply block_reads_acked. exact Hack.
Qed.

Lemma stm32_sw_crc_prefix (crc : Z) (got rest : list Z) (len : Z) :
  Z.of_nat (length got) = len -> len mod 4 = 0 ->
  stm32_sw_crc crc (got ++ rest) len = stm32_sw_crc crc got len.
Proof.
  intros Hlen Hmod. unfold stm32_sw_crc.
  rewrite land3_mod4, Hmod. cbn [Z.eqb negb].
  rewrite <- (Nat.add_0_r (Z.to_nat (len / 4))) at 1.
  rewrite stm32_sw_crc_loop_app by (Z.div_mod_to_equations; lia).
  reflexivity.
Qed.

Section MoreCrcWrapper.
Context `{port_h} `{libc}.

Lemma stm32_crc_wrapper_loop_run (rounds : nat) :
  forall (fuel : nat) (stm : stm32_t) (address length current_crc : Z) (buf : list Z)
         (h : history) (crc' : Z) (evs : list event),
    0 <= length < 4294967296 -> length mod 4 = 0 ->
    stm32_crc_wrapper_loop rounds fuel stm address length current_crc buf h
    = (Some (true, crc'), evs) ->
    Z.of_nat (List.length (block_reads evs)) = length /\
    Forall (fun b => 0 <= b < 256) (block_reads evs) /\
    crc' = stm32_sw_crc current_crc (block_reads evs) length.
Proof.
  induction rounds as [|rounds IH];
    intros fuel stm address length current_crc buf h crc' evs Hlen Hmod Hrun.
  - cbn [stm32_crc_wrapper_loop] in Hrun.
    destruct (Z.eqb_spec length 0) as [->|Hnz]; cbn [negb] in Hrun; [|discriminate].
    apply ret_inv in Hrun. destruct Hrun as [Hr ->]. inversion Hr; subst crc'.
    cbn. auto.
  - cbn [stm32_crc_wrapper_loop] in Hrun.
    destruct (Z.eqb_spec length 0) as [->|Hnz]; cbn [negb] in Hrun.
    { apply ret_inv in Hrun. destruct Hrun as [Hr ->]. inversion Hr; subst crc'.
      cbn. auto. }
    set (len := if length >? 256 then 256 else length) in *.
    assert (Hl : 1 <= len <= 256 /\ len <= length /\ len mod 4 = 0).
    { unfold len. destruct (Z.gtb_spec length 256); repeat split; try lia. }
    destruct Hl as (Hl1 & Hl2 & Hl3).
    apply bind_inv in Hrun.
    destruct Hrun as [([s buf1] & e1 & e2 & Hrd & Hk & ->)|[_ Hr]]; [|discriminate].
    destruct s; cbn [stm32_err_eqb negb] in Hk;
      try (apply ret_inv in Hk; destruct Hk; discriminate).
    apply stm32_read_memory_run in Hrd; [|lia].
    destruct Hrd as (_ & _ & c1 & a1 & c2 & got & -> & Hc1 & Ha1 & Hc2 & Hgot & Hbytes & ->).
    rewrite (u32_small (length - len)) in Hk by lia.
    apply IH in Hk; [|lia|Z.div_mod_to_equations; lia].
    destruct Hk as (Hn & Hb & ->).
    assert (Hblock : block_reads
                       (c1 ++ EvWrite (firstn 5 (store_address address (repeat 0 5)))
                                PORT_ERR_OK :: a1 ++ c2 ++ [EvRead len PORT_ERR_OK got])
                     = got).
    { rewrite block_reads_app, (block_reads_sent_command _ _ Hc1).
      cbn [app block_reads].
      rewrite block_reads_app, (block_reads_acked _ Ha1).
      rewrite block_reads_app, (block_reads_sent_command _ _ Hc2).
      cbn [app block_reads].
      destruct (Z.eqb_spec len 1) as [H1|_]; [rewrite H1 in Hl3; discriminate|].
      apply app_nil_r. }
    rewrite block_reads_app, Hblock.
    split; [rewrite length_app; lia|].
    split; [apply Forall_app; auto|].
    assert (Hblit : blit buf 0 got = got ++ skipn (List.length got) buf).
    { unfold blit. change (Z.to_nat 0) with O. reflexivity. }
    rewrite Hblit, stm32_sw_crc_prefix by lia.
    replace length with (len + (length - len)) at 2 by lia.
    apply stm32_sw_crc_app; try lia.
    Z.div_mod_to_equations. lia.
Qed.

End MoreCrcWrapper.

(** X12.  The fallback of the CRC on a device without the CRC command.
    A call that returns OK has read exactly [length] bytes from the
    device, in blocks, and the value handed back is the host-side CRC,
    seeded with 0xFFFFFFFF, of those bytes in the order they came in:
    the CRC-32 with polynomial 0x04C11DB7 over their little-endian
    words. *)
Theorem stm32_crc_wrapper_fallback `{port_h} `{libc} :
  forall (fuel : nat) (stm : stm32_t) (address length crc0 : Z) (buf0 : list Z)
         (h : history) (value : Z) (evs : list event),
    crc (cmd stm) = STM32_CMD_ERR ->
    0 <= length < 4294967296 ->
    stm32_crc_wrapper fuel stm address length crc0 buf0 h
    = (Some (STM32_ERR_OK, value), evs) ->
    Z.land address 0x3 = 0 /\ length mod 4 = 0 /\
    Z.of_nat (List.length (block_reads evs)) = length /\
    value = stm32_sw_crc CRC_INIT_VALUE (block_reads evs) length /\
    value = crc32_msb_first 0xFFFFFFFF
              (le_words (Z.to_nat (length / 4)) (block_reads evs)).
Proof.
  intros fuel stm address length crc0 buf0 h value evs Hcrc Hlen Hrun.
  unfold stm32_crc_wrapper in Hrun.
  destruct (Z.eqb_spec (Z.land address 3) 0) as [Ha|];
    [|apply ret_inv in Hrun; destruct Hrun; discriminate].
  destruct (Z.eqb_spec (Z.land length 3) 0) as [Hl|];
    [|apply ret_inv in Hrun; destruct Hrun; discriminate].
  cbn [negb orb] in Hrun. rewrite Hcrc, Z.eqb_refl in Hrun. cbn [negb] in Hrun.
  rewrite land3_mod4 in Hl.
  apply bind_inv in Hrun.
  destruct Hrun as [([done crc'] & e1 & e2 & Hloop & Hk & ->)|[_ Hr]]; [|discriminate].
  destruct done; cbn [negb] in Hk; apply ret_inv in Hk; destruct Hk as [Hr ->];
    [|discriminate].
  inversion Hr; subst crc'. rewrite app_nil_r.
  apply stm32_crc_wrapper_loop_run in Hloop; [|lia|exact Hl].
  destruct Hloop as (Hn & Hb & Hv).
  split; [exact Ha|]. split; [exact Hl|]. split; [exact Hn|]. split; [exact Hv|].
  rewrite Hv. unfold stm32_sw_crc. rewrite land3_mod4, Hl. cbn [Z.eqb negb].
  apply stm32_sw_crc_loop_spec. exact Hb.
Qed.

(** ** Pages and addresses *)



Lemma flash_page_round_trip_aux (fuel : nat) (d : stm32_dev_t) (a p : Z) :
  wf_flash d = true -> fl_end d - fl_start d < Z.of_nat fuel ->
  fl_start d <= a < fl_end d ->
  flash_addr_to_page_floor fuel d a = Some p ->
  0 <= p /\ fl_start d <= flash_page_to_addr d p <= a /\
  flash_addr_to_page_floor fuel d (flash_page_to_addr d p) = Some p /\
  flash_addr_to_page_ceil fuel d (flash_page_to_addr d p) = Some p /\
  flash_addr_to_page_ceil fuel d a
  = Some (if a =? flash_page_to_addr d p then p else p + 1).
Proof.
  intros Hwf Hfuel Ha Hfloor.
  destruct (wf_flash_inv d Hwf) as (Hs & He & Hsz & Hps).
  destruct (flash_pages_spec fuel d a Hwf Hfuel ltac:(lia)) as (n & r & Hspan & Hr & Hc & Hf).
  rewrite (Hf ltac:(lia)) in Hfloor. inversion Hfloor; subst p. clear Hfloor.
  pose proof (span_nonneg n (fl_ps d) Hps) as Hnn.
  assert (HP : flash_page_to_addr d (Z.of_nat n) = fl_start d + span n (fl_ps d)).
  { rewrite flash_page_to_addr_spec by lia. rewrite Nat2Z.id. apply u32_small. lia. }
  rewrite HP.
  destruct (flash_pages_spec fuel d (fl_start d + span n (fl_ps d)) Hwf Hfuel ltac:(lia))
    as (n' & r' & Hspan' & Hr' & Hc' & Hf').
  assert (Hwf0 : 0 <= 0 < idx (advance n (fl_ps d)) 0) by lia.
  destruct (span_unique (fl_ps d) n n' 0 r' Hps ltac:(lia) Hwf0 Hr') as [<- <-].
  split; [lia|]. split; [lia|]. split; [apply Hf'; lia|]. split; [exact Hc'|].
  rewrite Hc.
  destruct (Z.eqb_spec r 0), (Z.eqb_spec a (fl_start d + span n (fl_ps d)));
    try reflexivity; lia.
Qed.

(** X13.  Pages and addresses go back and forth.  For an address in the
    flash of a well-formed device and the page [p] that holds it: the
    page starts at or before the address, the start of the page maps
    back to [p] both rounding down and rounding up, and the address
    itself rounds up to [p] when it is the start of the page and to
    [p + 1] otherwise. *)
Theorem flash_page_round_trip :
  forall (fuel : nat) (d : stm32_dev_t) (a p : Z),
    wf_flash d = true -> fl_end d - fl_start d < Z.of_nat fuel ->
    fl_start d <= a < fl_end d ->
    flash_addr_to_page_floor fuel d a = Some p ->
    0 <= p /\ fl_start d <= flash_page_to_addr d p <= a /\
    flash_addr_to_page_floor fuel d (flash_page_to_addr d p) = Some p /\
    flash_addr_to_page_ceil fuel d (flash_page_to_addr d p) = Some p /\
    flash_addr_to_page_ceil fuel d a
    = Some (if a =? flash_page_to_addr d p then p else p + 1).
Proof.
  exact flash_page_round_trip_aux.
Qed.

Lemma flash_addr_to_page_ceil_spec (fuel : nat) (d : stm32_dev_t) (a : Z) :
  wf_flash d = true -> fl_end d - fl_start d < Z.of_nat fuel ->
  (forall s, In s (fl_ps d) -> fl_end d + s <= 4294967296) ->
  fl_start d <= a <= fl_end d ->
  exists q,
    flash_addr_to_page_ceil fuel d a = Some q /\ 0 <= q <= a - fl_start d /\
    a <= flash_page_to_addr d q /\
    (forall q', 0 <= q' < q -> flash_page_to_addr d q' < a).
Proof.
  intros Hwf Hfuel Hfit Ha.
  destruct (wf_flash_inv d Hwf) as (Hs & He & Hsz & Hps).
  destruct (flash_pages_spec fuel d a Hwf Hfuel Ha) as (n & r & Hspan & Hr & Hc & _).
  pose proof (span_nonneg n (fl_ps d) Hps) as Hnn.
  pose proof (span_ge n (fl_ps d) Hps) as Hge.
  assert (Hbelow : forall q', 0 <= q' <= Z.of_nat n ->
                     flash_page_to_addr d q' = fl_start d + span (Z.to_nat q') (fl_ps d) /\
                     span (Z.to_nat q') (fl_ps d) <= span n (fl_ps d)).
  { intros q' Hq'.
    pose proof (span_mono (Z.to_nat q') n (fl_ps d) Hps ltac:(lia)) as Hm.
    pose proof (span_nonneg (Z.to_nat q') (fl_ps d) Hps) as Hn'.
    split; [|exact Hm].
    rewrite flash_page_to_addr_spec by lia. apply u32_small. lia. }
  rewrite Hc. destruct (Z.eqb_spec r 0) as [Hz|Hnz].
  - exists (Z.of_nat n). split; [reflexivity|]. split; [lia|]. split.
    + destruct (Hbelow (Z.of_nat n) ltac:(lia)) as [-> _]. rewrite Nat2Z.id. lia.
    + intros q' Hq'. destruct (Hbelow q' ltac:(lia)) as [-> _].
      pose proof (span_mono (S (Z.to_nat q')) n (fl_ps d) Hps ltac:(lia)) as Hm.
      rewrite span_S_end in Hm.
      pose proof (wf_sizes_head _ (wf_sizes_advance (Z.to_nat q') _ Hps)) as Hh.
      lia.
  - exists (Z.of_nat n + 1). split; [reflexivity|]. split; [lia|]. split.
    + rewrite flash_page_to_addr_spec by lia.
      replace (Z.to_nat (Z.of_nat n + 1)) with (S n) by lia.
      rewrite span_S_end.
      pose proof (Hfit _ (advance_head_in n (fl_ps d) Hps)) as Hsize.
      rewrite u32_small by lia. lia.
    + intros q' Hq'. destruct (Hbelow q' ltac:(lia)) as [-> Hm]. lia.
Qed.

(** X14.  Rounding an address up to a page gives the first page
    boundary at or after it: for an address of the flash, its end
    included, the page [q] it rounds up to starts at or after the
    address, and every page before [q] starts before the address. *)
Theorem flash_addr_to_page_ceil_least :
  forall (fuel : nat) (d : stm32_dev_t) (a : Z),
    wf_flash d = true -> fl_end d - fl_start d < Z.of_nat fuel ->
    (forall s, In s (fl_ps d) -> fl_end d + s <= 4294967296) ->
    fl_start d <= a <= fl_end d ->
    exists q,
      flash_addr_to_page_ceil fuel d a = Some q /\ 0 <= q <= a - fl_start d /\
      a <= flash_page_to_addr d q /\
      (forall q', 0 <= q' < q -> flash_page_to_addr d q' < a).
Proof.
  exact flash_addr_to_page_ceil_spec.
Qed.

(** ** From the options to the ranges *)

Lemma floor_le_ceil (fuel : nat) (d : stm32_dev_t) (a b p q : Z) :
  wf_flash d = true -> fl_end d - fl_start d < Z.of_nat fuel ->
  fl_start d <= a < fl_end d -> a <= b <= fl_end d ->
  flash_addr_to_page_floor fuel d a = Some p ->
  flash_addr_to_page_ceil fuel d b = Some q ->
  p <= q.
Proof.
  intros Hwf Hfuel Ha Hb Hp Hq.
  destruct (wf_flash_inv d Hwf) as (Hs & He & Hsz & Hps).
  destruct (flash_pages_spec fuel d a Hwf Hfuel ltac:(lia)) as (n & r & Hspan & Hr & _ & Hf).
  destruct (flash_pages_spec fuel d b Hwf Hfuel ltac:(lia)) as (m & r2 & Hspan2 & Hr2 & Hc & _).
  rewrite (Hf ltac:(lia)) in Hp. inversion Hp; subst p.
  rewrite Hc in Hq. inversion Hq; subst q.
  assert (Hnm : (n <= m)%nat).
  { destruct (Nat.le_gt_cases n m) as [Hle|Hgt]; [exact Hle|].
    pose proof (span_mono (S m) n (fl_ps d) Hps ltac:(lia)) as Hm.
    rewrite span_S_end in Hm. lia. }
  destruct (r2 =? 0); lia.
Qed.

(** X15.  The ranges of an action on the flash.  When the options give
    a start address in the flash of a well-formed device, the address
    range starts there and ends at the end of the flash, or after the
    length asked for if that comes first.  The page range covers it:
    the first page starts at or before the start address and, unless
    the whole flash is to be erased at once, the page after the last
    one starts at or after the end of the address range. *)
Theorem cleanup_addresses_cover `{stm32_h} :
  forall (fuel : nat) (d : stm32_dev_t) (start_addr readwrite_len spage npages flag : Z),
    wf_flash d = true -> fl_end d - fl_start d < Z.of_nat fuel ->
    (forall s, In s (fl_ps d) -> fl_end d + s <= 4294967296) ->
    fl_start d <= start_addr < fl_end d ->
    0 <= readwrite_len -> start_addr + readwrite_len < 4294967296 ->
    start_addr <> 0 \/ readwrite_len <> 0 ->
    exists r,
      cleanup_addresses fuel d start_addr readwrite_len spage npages flag = Some (Some r) /\
      start r = start_addr /\
      end_ r = (if readwrite_len =? 0 then fl_end d
                else Z.min (fl_end d) (start_addr + readwrite_len)) /\
      no_erase r = flag /\
      0 <= first_page r /\
      flash_page_to_addr d (first_page r) <= start r /\
      ((first_page r = 0 /\ end_ r = fl_end d /\ num_pages r = STM32_MASS_ERASE) \/
       (0 <= num_pages r /\ end_ r <= flash_page_to_addr d (first_page r + num_pages r))).
Proof.
  intros fuel d start_addr readwrite_len spage npages flag Hwf Hfuel Hfit Hin Hlen Hsum Hopt.
  destruct (wf_flash_inv d Hwf) as (Hs & He & Hsz & Hps).
  unfold cleanup_addresses.
  assert (Hguard : negb (start_addr =? 0) || negb (readwrite_len =? 0) = true).
  { destruct (Z.eqb_spec start_addr 0), (Z.eqb_spec readwrite_len 0); try reflexivity. lia. }
  rewrite Hguard.
  assert (Hflash : is_addr_in_flash d start_addr = true).
  { unfold is_addr_in_flash.
    destruct (Z.geb_spec start_addr (fl_start d)); [|lia].
    destruct (Z.ltb_spec start_addr (fl_end d)); [|lia]. reflexivity. }
  rewrite Hflash. rewrite (u32_small (start_addr + readwrite_len)) by lia.
  set (e := if negb (readwrite_len =? 0) && (fl_end d >? start_addr + readwrite_len)
            then start_addr + readwrite_len else fl_end d).
  assert (He' : e = if readwrite_len =? 0 then fl_end d
                    else Z.min (fl_end d) (start_addr + readwrite_len)).
  { unfold e. destruct (Z.eqb_spec readwrite_len 0); cbn [negb andb]; [reflexivity|].
    destruct (Z.gtb_spec (fl_end d) (start_addr + readwrite_len)); lia. }
  assert (Hrange : start_addr <= e <= fl_end d).
  { rewrite He'. destruct (Z.eqb_spec readwrite_len 0); lia. }
  destruct (flash_pages_spec fuel d start_addr Hwf Hfuel ltac:(lia))
    as (n & r0 & _ & _ & _ & Hf).
  specialize (Hf ltac:(lia)).
  destruct (flash_page_round_trip_aux fuel d start_addr _ Hwf Hfuel Hin Hf)
    as (Hp0 & Hpage & _).
  rewrite Hf.
  destruct ((Z.of_nat n =? 0) && (e =? fl_end d)) eqn:Hmass.
  - eexists. split; [reflexivity|]. cbn [start end_ first_page num_pages no_erase].
    apply andb_prop in Hmass. destruct Hmass as [Hn0 He0].
    apply Z.eqb_eq in Hn0. apply Z.eqb_eq in He0.
    repeat split; auto; lia.
  - destruct (flash_addr_to_page_ceil_spec fuel d e Hwf Hfuel Hfit ltac:(lia))
      as (q & Hq & Hq0 & Hcover & _).
    rewrite Hq.
    pose proof (floor_le_ceil fuel d start_addr e _ q Hwf Hfuel Hin ltac:(lia) Hf Hq) as Hle.
    eexists. split; [reflexivity|]. cbn [start end_ first_page num_pages no_erase].
    rewrite s32_small by lia.
    repeat split; auto; try lia. right.
    replace (Z.of_nat n + (q - Z.of_nat n)) with q by lia.
    split; [lia|exact Hcover].
Qed.

(** ** Session establishment *)

Lemma stm32_send_init_seq_cases :
  forall (stm : stm32_t) (h : history),
    let run := stm32_send_init_seq stm h in
    (writes (snd run) = [[0x7F]] \/ writes (snd run) = [[0x7F]; [0x7F]]) /\
    (fst run = Some STM32_ERR_OK \/ fst run = Some STM32_ERR_UNKNOWN) /\
    (fst run = Some STM32_ERR_OK <->
       snd run = [EvWrite [0x7F] PORT_ERR_OK; EvRead 1 PORT_ERR_OK [STM32_ACK]] \/
       snd run = [EvWrite [0x7F] PORT_ERR_OK; EvRead 1 PORT_ERR_OK [STM32_NACK]] \/
       snd run = [EvWrite [0x7F] PORT_ERR_OK; EvRead 1 PORT_ERR_TIMEDOUT [];
                  EvWrite [0x7F] PORT_ERR_OK; EvRead 1 PORT_ERR_OK [STM32_NACK]]).
Proof.
  intros stm h run. subst run.
  unfold stm32_send_init_seq, bind, port_write, port_read, ret.
  change STM32_CMD_INIT with 0x7F.
  destruct (write (port stm) h [127]); cbn [port_err_eqb negb fst snd app writes];
    try (split; [left; reflexivity|]; split; [right; reflexivity|];
         split; [discriminate|intros [Hx|[Hx|Hx]]; discriminate]).
  destruct (read (port stm) (h ++ [EvWrite [127] PORT_ERR_OK]) 1) as [e bs].
  destruct e; cbn [port_err_eqb negb andb fst snd app writes].
  - rewrite (fit_one bs).
    change (idx [idx (fit 1 bs) 0] 0) with (idx (fit 1 bs) 0).
    destruct (Z.eqb_spec (idx (fit 1 bs) 0) STM32_ACK) as [->|Hack].
    { cbn [fst snd app writes]. split; [left; reflexivity|].
      split; [left; reflexivity|]. split; [intros _; left; reflexivity|reflexivity]. }
    destruct (Z.eqb_spec (idx (fit 1 bs) 0) STM32_NACK) as [->|Hnack].
    { cbn [fst snd app writes]. split; [left; reflexivity|].
      split; [left; reflexivity|]. split; [intros _; right; left; reflexivity|reflexivity]. }
    cbn [fst snd app writes]. split; [left; reflexivity|].
    split; [right; reflexivity|].
    split; [discriminate|]. intros [Hx|[Hx|Hx]]; inversion Hx; contradiction.
  - match goal with
    | |- context [write (port stm) ?hh [127]] => destruct (write (port stm) hh [127])
    end; cbn [port_err_eqb negb fst snd app writes];
      try (split; [right; reflexivity|]; split; [right; reflexivity|];
           split; [discriminate|intros [Hx|[Hx|Hx]]; discriminate]).
    match goal with
    | |- context [read (port stm) ?hh 1] => destruct (read (port stm) hh 1) as [e2 bs2]
    end.
    destruct e2; cbn [port_err_eqb negb andb fst snd app writes];
      try (split; [right; reflexivity|]; split; [right; reflexivity|];
           split; [discriminate|intros [Hx|[Hx|Hx]]; discriminate]).
    rewrite (fit_one bs2).
    change (idx [idx (fit 1 bs2) 0] 0) with (idx (fit 1 bs2) 0).
    destruct (Z.eqb_spec (idx (fit 1 bs2) 0) STM32_NACK) as [->|Hnack];
      cbn [fst snd app writes].
    + split; [right; reflexivity|]. split; [left; reflexivity|].
      split; [intros _; right; right; reflexivity|reflexivity].
    + split; [right; reflexivity|]. split; [right; reflexivity|].
      split; [discriminate|]. intros [Hx|[Hx|Hx]]; inversion Hx; contradiction.
  - split; [left; reflexivity|]. split; [right; reflexivity|].
    split; [discriminate|intros [Hx|[Hx|Hx]]; discriminate].
Qed.

(** Every course that the init sequence can take. *)
Lemma stm32_send_init_seq_courses :
  forall (stm : stm32_t) (h : history),
    let run := stm32_send_init_seq stm h in
    (exists e, e <> PORT_ERR_OK /\
       run = (Some STM32_ERR_UNKNOWN, [EvWrite [0x7F] e])) \/
    (exists b,
       run = (Some (if (b =? STM32_ACK) || (b =? STM32_NACK)
                    then STM32_ERR_OK else STM32_ERR_UNKNOWN),
              [EvWrite [0x7F] PORT_ERR_OK; EvRead 1 PORT_ERR_OK [b]])) \/
    (exists e, e <> PORT_ERR_OK /\ e <> PORT_ERR_TIMEDOUT /\
       run = (Some STM32_ERR_UNKNOWN, [EvWrite [0x7F] PORT_ERR_OK; EvRead 1 e []])) \/
    (exists e, e <> PORT_ERR_OK /\
       run = (Some STM32_ERR_UNKNOWN,
              [EvWrite [0x7F] PORT_ERR_OK; EvRead 1 PORT_ERR_TIMEDOUT [];
               EvWrite [0x7F] e])) \/
    (exists b,
       run = (Some (if b =? STM32_NACK then STM32_ERR_OK else STM32_ERR_UNKNOWN),
              [EvWrite [0x7F] PORT_ERR_OK; EvRead 1 PORT_ERR_TIMEDOUT [];
               EvWrite [0x7F] PORT_ERR_OK; EvRead 1 PORT_ERR_OK [b]])) \/
    (exists e, e <> PORT_ERR_OK /\
       run = (Some STM32_ERR_UNKNOWN,
              [EvWrite [0x7F] PORT_ERR_OK; EvRead 1 PORT_ERR_TIMEDOUT [];
               EvWrite [0x7F] PORT_ERR_OK; EvRead 1 e []])).
Proof.
  intros stm h run. subst run.
  unfold stm32_send_init_seq, bind, port_write, port_read, ret.
  change STM32_CMD_INIT with 0x7F.
  destruct (write (port stm) h [127]) eqn:Hw1; cbn [port_err_eqb negb fst snd app];
    try (left; eexists; split; [|reflexivity]; discriminate).
  right.
  destruct (read (port stm) (h ++ [EvWrite [127] PORT_ERR_OK]) 1) as [e bs].
  destruct e; cbn [port_err_eqb negb andb fst snd app].
  - left. rewrite (fit_one bs).
    change (idx [idx (fit 1 bs) 0] 0) with (idx (fit 1 bs) 0).
    exists (idx (fit 1 bs) 0).
    destruct (idx (fit 1 bs) 0 =? STM32_ACK); cbn [orb]; [reflexivity|].
    destruct (idx (fit 1 bs) 0 =? STM32_NACK); reflexivity.
  - right. right.
    match goal with
    | |- context [write (port stm) ?hh [127]] => destruct (write (port stm) hh [127])
    end; cbn [port_err_eqb negb fst snd app];
      try (left; eexists; split; [|reflexivity]; discriminate).
    right.
    match goal with
    | |- context [read (port stm) ?hh 1] => destruct (read (port stm) hh 1) as [e2 bs2]
    end.
    destruct e2; cbn [port_err_eqb negb andb fst snd app];
      try (right; eexists; split; [|reflexivity]; discriminate).
    left. rewrite (fit_one bs2).
    change (idx [idx (fit 1 bs2) 0] 0) with (idx (fit 1 bs2) 0).
    exists (idx (fit 1 bs2) 0).
    destruct (idx (fit 1 bs2) 0 =? STM32_NACK); reflexivity.
  - right. left. exists PORT_ERR_UNKNOWN.
    split; [discriminate|]. split; [discriminate|]. reflexivity.
Qed.

(** X16.  The init sequence always comes to an end, and takes one of six
    courses.  The write of 0x7F fails: UNKNOWN.  The write is followed by
    a read of one byte: OK when the byte is ACK or NACK (a device that is
    in its bootloader already), UNKNOWN for any other byte and for a read
    error other than a timeout, with nothing more written.  Only when
    that read timed out is 0x7F written a second time: UNKNOWN when this
    write fails, else one more byte is read, and the result is OK when it
    is NACK and UNKNOWN for any other byte or a failed read. *)
Theorem stm32_send_init_seq_run :
  forall (stm : stm32_t) (h : history),
    let run := stm32_send_init_seq stm h in
    ((writes (snd run) = [[0x7F]] \/ writes (snd run) = [[0x7F]; [0x7F]]) /\
     (fst run = Some STM32_ERR_OK \/ fst run = Some STM32_ERR_UNKNOWN) /\
     (fst run = Some STM32_ERR_OK <->
        snd run = [EvWrite [0x7F] PORT_ERR_OK; EvRead 1 PORT_ERR_OK [STM32_ACK]] \/
        snd run = [EvWrite [0x7F] PORT_ERR_OK; EvRead 1 PORT_ERR_OK [STM32_NACK]] \/
        snd run = [EvWrite [0x7F] PORT_ERR_OK; EvRead 1 PORT_ERR_TIMEDOUT [];
                   EvWrite [0x7F] PORT_ERR_OK; EvRead 1 PORT_ERR_OK [STM32_NACK]])) /\
    (writes (snd run) = [[0x7F]; [0x7F]] ->
       exists rest,
         snd run = EvWrite [0x7F] PORT_ERR_OK :: EvRead 1 PORT_ERR_TIMEDOUT [] :: rest) /\
    ((exists e, e <> PORT_ERR_OK /\
        run = (Some STM32_ERR_UNKNOWN, [EvWrite [0x7F] e])) \/
     (exists b,
        run = (Some (if (b =? STM32_ACK) || (b =? STM32_NACK)
                     then STM32_ERR_OK else STM32_ERR_UNKNOWN),
               [EvWrite [0x7F] PORT_ERR_OK; EvRead 1 PORT_ERR_OK [b]])) \/
     (exists e, e <> PORT_ERR_OK /\ e <> PORT_ERR_TIMEDOUT /\
        run = (Some STM32_ERR_UNKNOWN, [EvWrite [0x7F] PORT_ERR_OK; EvRead 1 e []])) \/
     (exists e, e <> PORT_ERR_OK /\
        run = (Some STM32_ERR_UNKNOWN,
               [EvWrite [0x7F] PORT_ERR_OK; EvRead 1 PORT_ERR_TIMEDOUT [];
                EvWrite [0x7F] e])) \/
     (exists b,
        run = (Some (if b =? STM32_NACK then STM32_ERR_OK else STM32_ERR_UNKNOWN),
               [EvWrite [0x7F] PORT_ERR_OK; EvRead 1 PORT_ERR_TIMEDOUT [];
                EvWrite [0x7F] PORT_ERR_OK; EvRead 1 PORT_ERR_OK [b]])) \/
     (exists e, e <> PORT_ERR_OK /\
        run = (Some STM32_ERR_UNKNOWN,
               [EvWrite [0x7F] PORT_ERR_OK; EvRead 1 PORT_ERR_TIMEDOUT [];
                EvWrite [0x7F] PORT_ERR_OK; EvRead 1 e []]))).
Proof.
  intros stm h run.
  pose proof (stm32_send_init_seq_courses stm h) as Hc. cbv zeta in Hc. fold run in Hc.
  split; [exact (stm32_send_init_seq_cases stm h)|]. split; [|exact Hc].
  intros Hw.
  destruct Hc as [(e & _ & Hr)|[(b & Hr)|[(e & _ & _ & Hr)|[(e & _ & Hr)|[(b & Hr)|(e & _ & Hr)]]]]];
    rewrite Hr in Hw |- *; cbn [snd writes] in Hw |- *; try discriminate; eauto.
Qed.


Lemma stm32_init_switch_single (val : Z) (c : stm32_cmd) (n : Z) :
  let c' := fst (stm32_init_switch val (c, n)) in
  (get c' = get c \/ get c' = STM32_CMD_GET) /\
  (gvr c' = gvr c \/ gvr c' = STM32_CMD_GVR) /\
  (gid c' = gid c \/ gid c' = STM32_CMD_GID) /\
  (rm c' = rm c \/ rm c' = STM32_CMD_RM) /\
  (go c' = go c \/ go c' = STM32_CMD_GO).
Proof.
  cbv zeta. unfold stm32_init_switch.
  repeat match goal with
         | |- context [if ?a =? ?b then _ else _] => destruct (Z.eqb_spec a b)
         | |- context [if ?a || ?b then _ else _] => destruct (a || b)
         end;
    cbn [fst get gvr gid rm go set_get set_gvr set_gid set_rm set_go set_wm set_er
         set_wp set_uw set_rp set_ur set_crc]; subst; auto 10.
Qed.

Lemma fold_switch_single (vals : list Z) :
  forall (st : stm32_cmd * Z),
    let c := fst st in
    let c' := fst (fold_left (fun st v => stm32_init_switch v st) vals st) in
    (get c' = get c \/ get c' = STM32_CMD_GET) /\
    (gvr c' = gvr c \/ gvr c' = STM32_CMD_GVR) /\
    (gid c' = gid c \/ gid c' = STM32_CMD_GID) /\
    (rm c' = rm c \/ rm c' = STM32_CMD_RM) /\
    (go c' = go c \/ go c' = STM32_CMD_GO).
Proof.
  induction vals as [|v vals IH]; intros [c n]; cbn [fold_left fst].
  - auto 10.
  - specialize (IH (stm32_init_switch v (c, n))). cbv zeta in IH.
    pose proof (stm32_init_switch_single v c n) as Hs. cbv zeta in Hs.
    destruct IH as (I1 & I2 & I3 & I4 & I5). destruct Hs as (S1 & S2 & S3 & S4 & S5).
    repeat split.
    + destruct I1 as [-> | ->]; auto.
    + destruct I2 as [-> | ->]; auto.
    + destruct I3 as [-> | ->]; auto.
    + destruct I4 as [-> | ->]; auto.
    + destruct I5 as [-> | ->]; auto.
Qed.

Lemma stm32_init_get_loop_known (buf : list Z) :
  cmd_known (fst (stm32_init_get_loop buf cmd_unset)).
Proof.
  pose proof (fold_switch_single (get_reply_opcodes buf) (cmd_unset, 0)) as Hs.
  cbv zeta in Hs. rewrite <- stm32_init_get_loop_fold in Hs. cbn [fst] in Hs.
  destruct Hs as (S1 & S2 & S3 & S4 & S5).
  unfold cmd_known. repeat split; auto.
  intros k.
  assert (Hc : slot k (fst (stm32_init_get_loop buf cmd_unset)) =
               fold_left (fun s v => if is_opcode_of k v then newer s v else s)
                         (get_reply_opcodes buf) STM32_CMD_ERR).
  { rewrite stm32_init_get_loop_fold, fold_switch_slot. destruct k; reflexivity. }
  pose proof (latch_fold_max k (get_reply_opcodes buf)) as Hmax.
  cbv zeta in Hmax. rewrite <- Hc in Hmax.
  destruct Hmax as [[_ He]|[Hin _]]; [left; exact He|right].
  apply filter_In in Hin. destruct Hin as [_ Hop].
  unfold is_opcode_of in Hop. apply existsb_exists in Hop.
  destruct Hop as (x & Hx & Heq). apply Z.eqb_eq in Heq. subst x. exact Hx.
Qed.




(** ** Resync *)

Section MoreResync.
Context `{port_h} `{libc}.

Lemma resync_outcome_step (deadline t1 t : Z) (fuel : nat) r (pfx evs : list event) :
  writes pfx = [[0xFF; 0x00]] ->
  resync_outcome deadline t fuel r evs ->
  resync_outcome deadline t1 (S fuel) r (pfx ++ EvTime t :: evs).
Proof.
  intros Hw (Hall & Hout & Hok & Hun & Hnone).
  unfold resync_outcome. rewrite writes_app, Hw. cbn [app writes length].
  split; [constructor; [reflexivity|exact Hall]|].
  split; [exact Hout|]. split; [|split].
  - intros Hr. destruct (Hok Hr) as (pre & ->).
    exists (pfx ++ EvTime t :: pre). rewrite <- app_assoc. reflexivity.
  - intros Hr. right. destruct (Hun Hr) as [[-> Ht]|(pre & t' & -> & Ht)].
    + exists pfx, t. auto.
    + exists (pfx ++ EvTime t :: pre), t'. rewrite <- app_assoc. auto.
  - intros Hr. rewrite (Hnone Hr). reflexivity.
Qed.

Lemma stm32_resync_loop_run (fuel : nat) (port : port_interface) (t0 : Z) :
  forall (t1 : Z) (h : history) r evs,
    stm32_resync_loop fuel port t0 t1 h = (r, evs) ->
    resync_outcome (t0 + STM32_RESYNC_TIMEOUT) t1 fuel r evs.
Proof.
  induction fuel as [|fuel IH]; intros t1 h r evs Hrun.
  - cbn [stm32_resync_loop] in Hrun.
    destruct (Z.ltb_spec t1 (t0 + STM32_RESYNC_TIMEOUT)) as [Hlt|Hge]; inversion Hrun; subst.
    + unfold resync_outcome. cbn. repeat split; auto; discriminate.
    + unfold resync_outcome. cbn. repeat split; auto; try discriminate.
  - cbn [stm32_resync_loop] in Hrun.
    destruct (Z.ltb_spec t1 (t0 + STM32_RESYNC_TIMEOUT)) as [Hlt|Hge].
    2:{ apply ret_inv in Hrun. destruct Hrun as [-> ->].
        unfold resync_outcome. cbn. repeat split; auto; try discriminate. }
    apply bind_inv in Hrun.
    destruct Hrun as [(e & e1 & e2 & Hw & Hk & ->)|[Hw _]];
      [|unfold port_write in Hw; discriminate].
    apply port_write_inv in Hw. destruct Hw as (e' & He & ->). inversion He; subst e'.
    change [STM32_CMD_ERR; Z.lxor STM32_CMD_ERR 255] with [0xFF; 0x00] in *.
    assert (Hretry : forall hh evs',
               (t1 <- time ;; stm32_resync_loop fuel port t0 t1) hh = (r, evs') ->
               exists t evs'', evs' = EvTime t :: evs'' /\
                 resync_outcome (t0 + STM32_RESYNC_TIMEOUT) t fuel r evs'').
    { intros hh evs' Hb. apply bind_inv in Hb.
      destruct Hb as [(t & e3 & e4 & Ht & Hl & ->)|[Ht _]];
        [|unfold time in Ht; discriminate].
      unfold time in Ht. inversion Ht; subst.
      exists (time_at hh), e4. split; [reflexivity|]. eapply IH; eauto. }
    destruct (port_err_eqb e PORT_ERR_OK) eqn:Heq; cbn [negb] in Hk.
    + apply port_err_eqb_eq in Heq. subst e.
      apply bind_inv in Hk.
      destruct Hk as [([e got] & e3 & e4 & Hrd & Hk & ->)|[Hrd _]];
        [|apply port_read_inv in Hrd; destruct Hrd as (? & ? & Hx & _); discriminate].
      apply port_read_inv in Hrd.
      destruct Hrd as (e' & got' & Hsome & -> & Hlen & Hnil).
      inversion Hsome; subst e' got'.
      destruct (port_err_eqb e PORT_ERR_OK) eqn:Heq; cbn [negb] in Hk.
      * apply port_err_eqb_eq in Heq. subst e.
        specialize (Hlen eq_refl).
        destruct got as [|b [|b' got]]; try discriminate.
        change (idx [b] 0) with b in Hk.
        destruct (Z.eqb_spec b STM32_NACK) as [->|Hb].
        -- apply ret_inv in Hk. destruct Hk as [-> ->].
           unfold resync_outcome. cbn [app writes].
           split; [repeat constructor|]. split; [auto|].
           split; [intros _; exists []; reflexivity|].
           split; discriminate.
        -- apply Hretry in Hk. destruct Hk as (t & evs'' & -> & Hout).
           apply (resync_outcome_step _ t1 t fuel r
                    [EvWrite [255; 0] PORT_ERR_OK; EvRead 1 PORT_ERR_OK [b]]);
             [reflexivity|exact Hout].
      * apply Hretry in Hk. destruct Hk as (t & evs'' & -> & Hout).
        apply (resync_outcome_step _ t1 t fuel r
                 [EvWrite [255; 0] PORT_ERR_OK; EvRead 1 e got]);
          [reflexivity|exact Hout].
    + apply bind_inv in Hk.
      destruct Hk as [(u & e3 & e4 & Hs & Hk & ->)|[Hs _]];
        [|unfold usleep in Hs; discriminate].
      unfold usleep in Hs. inversion Hs; subst.
      apply Hretry in Hk. destruct Hk as (t & evs'' & -> & Hout).
      apply (resync_outcome_step _ t1 t fuel r
               [EvWrite [255; 0] e; EvSleep 500000]);
        [reflexivity|exact Hout].
Qed.

End MoreResync.

(** X18.  Resync, whatever its end.  It reads the clock first, and the
    only thing it ever writes is the invalid command [FF 00].  It
    returns OK right after a NACK came back for it, and it gives up with
    UNKNOWN only after a look at the clock that showed the deadline of
    35 seconds reached, never before, and not without a try.  A run that
    is cut short after [fuel] tries has written [FF 00] that many
    times. *)
Theorem stm32_resync_run `{port_h} `{libc} :
  forall (fuel : nat) (stm : stm32_t) (h : history),
    let run := stm32_resync fuel stm h in
    exists t0 evs,
      snd run = EvTime t0 :: evs /\
      Forall (fun b => b = [0xFF; 0x00]) (writes (snd run)) /\
      (fst run = None \/ fst run = Some STM32_ERR_OK \/ fst run = Some STM32_ERR_UNKNOWN) /\
      (fst run = Some STM32_ERR_OK ->
         exists pre, evs = pre ++ [EvWrite [0xFF; 0x00] PORT_ERR_OK;
                                   EvRead 1 PORT_ERR_OK [STM32_NACK]]) /\
      (fst run = Some STM32_ERR_UNKNOWN ->
         exists pre t, evs = pre ++ [EvTime t] /\ t0 + 35 <= t /\ writes pre <> []) /\
      (fst run = None -> length (writes (snd run)) = fuel).
Proof.
  intros fuel stm h run. subst run. unfold stm32_resync.
  rewrite (bind_some time _ h (time_at h) [EvTime (time_at h)] eq_refl).
  cbn [fst snd app].
  destruct (stm32_resync_loop fuel (port stm) (time_at h) (time_at h)
              (h ++ [EvTime (time_at h)])) as [r evs] eqn:Hloop.
  cbn [fst snd writes].
  exists (time_at h), evs. split; [reflexivity|].
  pose proof (stm32_resync_loop_run _ _ _ _ _ _ _ Hloop) as (Hall & Hout & Hok & Hun & Hnone).
  change STM32_RESYNC_TIMEOUT with 35 in Hun.
  split; [exact Hall|]. split; [exact Hout|]. split; [exact Hok|]. split; [|exact Hnone].
  intros Hr. destruct (Hun Hr) as [[_ Ht]|(pre & t & -> & Ht)]; [lia|].
  exists pre, t. split; [reflexivity|]. split; [exact Ht|].
  (* the first look at the clock is before the deadline, so a try was made *)
  intros Hnil. subst r.
  destruct fuel as [|fuel]; cbn [stm32_resync_loop] in Hloop;
    destruct (Z.ltb_spec (time_at h) (time_at h + STM32_RESYNC_TIMEOUT)) as [_|Hge];
    try (unfold STM32_RESYNC_TIMEOUT in Hge; lia); [discriminate|].
  apply bind_inv in Hloop.
  destruct Hloop as [(e & e1 & e2 & Hw & _ & Heq)|[Hw _]];
    [|unfold port_write in Hw; discriminate].
  apply port_write_inv in Hw. destruct Hw as (e' & _ & ->).
  assert (Hws : writes (pre ++ [EvTime t]) = writes pre).
  { rewrite writes_app. cbn. apply app_nil_r. }
  rewrite Heq in Hws. cbn [app writes] in Hws. rewrite Hnil in Hws. discriminate.
Qed.

(** ** Replies of variable length on a byte port *)

Lemma stm32_guess_len_cmd_byte_run `{port_h} `{libc} :
  forall (fuel : nat) (stm : stm32_t) (c : Z) (data : list Z) (len : Z) (h : history),
    has_flag (flags (port stm)) PORT_BYTE = true ->
    let run := stm32_guess_len_cmd fuel stm c data len h in
    writes (snd run) = [[c; Z.lxor c 0xFF]] /\
    run = stm32_guess_len_cmd fuel stm c data 0 h /\
    (forall data', fst run = Some (STM32_ERR_OK, data') ->
       exists c1 L got,
         snd run = c1 ++ [EvRead 1 PORT_ERR_OK [L]; EvRead (L + 1) PORT_ERR_OK got] /\
         sent_command c c1 /\ 0 <= L < 256 /\ length got = Z.to_nat (L + 1) /\
         data' = blit (blit data 0 [L]) 1 got).
Proof.
  intros fuel stm c data len h Hbyte run. subst run.
  unfold stm32_guess_len_cmd. rewrite Hbyte.
  split; [|split; [reflexivity|]].
  - rewrite writes_bind.
    pose proof (stm32_send_command_timeout_writes fuel stm c 0 h) as Hw.
    fold (stm32_send_command fuel stm c) in Hw.
    destruct (stm32_send_command fuel stm c h) as [[s|] e1]; cbn [snd] in Hw; rewrite Hw;
      [|reflexivity].
    destruct (negb (stm32_err_eqb s STM32_ERR_OK)); [reflexivity|].
    unfold bind, port_read, ret.
    destruct (read (port stm) (h ++ e1) 1) as [e bs].
    destruct e; cbn [port_err_eqb negb fst snd app writes]; try reflexivity.
    match goal with
    | |- context [read (port stm) ?hh ?n] => destruct (read (port stm) hh n) as [e2 bs2]
    end.
    destruct e2; reflexivity.
  - intros data'.
    match goal with |- context [fst ?rr] => destruct rr as [r evs] eqn:Hrun end.
    cbn [fst snd]. intros ->.
    apply stm32_send_command_step in Hrun; [|discriminate].
    destruct Hrun as (c1 & e2 & Hc1 & Hrun & ->).
    apply bind_inv in Hrun.
    destruct Hrun as [([e got] & e3 & e4 & Hrd & Hk & ->)|[_ Hr]]; [|discriminate].
    destruct e; cbn [port_err_eqb negb] in Hk;
      try (apply ret_inv in Hk; destruct Hk; discriminate).
    apply port_read_ok_bytes in Hrd. destruct Hrd as (Hbytes & Hlen & ->).
    destruct got as [|L [|? ?]]; try discriminate Hlen.
    assert (HL : idx (blit data 0 [L]) 0 = L).
    { apply idx_blit_0. discriminate. }
    rewrite HL in Hk.
    apply bind_inv in Hk.
    destruct Hk as [([e got2] & e5 & e6 & Hrd & Hk & ->)|[_ Hr]]; [|discriminate].
    destruct e; cbn [port_err_eqb negb] in Hk; apply ret_inv in Hk; destruct Hk as [Hr ->];
      try discriminate.
    apply port_read_ok_bytes in Hrd. destruct Hrd as (_ & Hlen2 & ->).
    inversion Hr; subst data'.
    exists c1, L, got2. rewrite app_nil_r.
    inversion Hbytes; subst.
    repeat split; auto; lia.
Qed.

(** X19.  On a port that reads byte by byte the guess of the length
    plays no part.  Only the framed command is ever written: there is no
    Resync.  A call that returns OK had the command acknowledged, read
    one byte [L], and then read [L + 1] bytes more; the buffer holds [L]
    followed by those bytes. *)
Theorem stm32_guess_len_cmd_byte_port `{port_h} `{libc} :
  forall (fuel : nat) (stm : stm32_t) (c : Z) (data : list Z) (len : Z) (h : history),
    has_flag (flags (port stm)) PORT_BYTE = true ->
    let run := stm32_guess_len_cmd fuel stm c data len h in
    writes (snd run) = [[c; Z.lxor c 0xFF]] /\
    run = stm32_guess_len_cmd fuel stm c data 0 h /\
    (forall data', fst run = Some (STM32_ERR_OK, data') ->
       exists c1 L got,
         snd run = c1 ++ [EvRead 1 PORT_ERR_OK [L]; EvRead (L + 1) PORT_ERR_OK got] /\
         sent_command c c1 /\ 0 <= L < 256 /\ length got = Z.to_nat (L + 1) /\
         data' = blit (blit data 0 [L]) 1 got).
Proof.
  exact stm32_guess_len_cmd_byte_run.
Qed.

(** ** Reset by injected code *)

Lemma writes_acked (evs : list event) : acked evs -> writes evs = [].
Proof.
  intros (k & ->). induction k as [|k IH]; [reflexivity|]. exact IH.
Qed.

Lemma writes_sent_command (c : Z) (evs : list event) :
  sent_command c evs -> writes evs = [[c; Z.lxor c 0xFF]].
Proof.
  intros (ack & -> & Hack). cbn [writes]. rewrite (writes_acked _ Hack). reflexivity.
Qed.

Section MoreReset.
Context `{port_h} `{stm32_h} `{libc}.

Lemma stm32_run_raw_code_one_block fuel stm target code code_size h evs :
  0 <= code_size <= 248 ->
  stm32_run_raw_code fuel stm target code code_size h = (Some STM32_ERR_OK, evs) ->
  let image := le_u32 0x20002000 ++ le_u32 (u32 (target + 8 + 1))
               ++ map (idx code) (zseq 0 (Z.to_nat code_size)) in
  let payload := firstn 5 (store_address target (repeat 0 5%nat)) in
  Z.land target 0x3 = 0 /\ wm (cmd stm) <> STM32_CMD_ERR /\ go (cmd stm) <> STM32_CMD_ERR /\
  writes evs = [[wm (cmd stm); Z.lxor (wm (cmd stm)) 0xFF]; payload;
                write_memory_data_frame target image (code_size + 8);
                [go (cmd stm); Z.lxor (go (cmd stm)) 0xFF]; payload].
Proof.
  intros Hsize Hrun image payload.
  unfold stm32_run_raw_code in Hrun. fold image in Hrun.
  destruct (Z.eqb_spec (Z.land target 3) 0) as [Hal|];
    [|apply ret_inv in Hrun; destruct Hrun; discriminate].
  cbn [negb] in Hrun. rewrite (u32_small (code_size + 8)) in Hrun by lia.
  apply bind_inv in Hrun.
  destruct Hrun as [(written & e1 & e2 & Hloop & Hgo & ->)|[_ Hr]]; [|discriminate].
  destruct written; cbn [negb] in Hgo;
    [|apply ret_inv in Hgo; destruct Hgo; discriminate].
  destruct fuel as [|fuel'] eqn:Hfuel.
  { cbn [stm32_run_raw_code_loop] in Hloop.
    destruct (Z.gtb_spec (code_size + 8) 0); [discriminate|lia]. }
  rewrite <- Hfuel in Hloop, Hgo.
  rewrite Hfuel in Hloop at 1. cbn [stm32_run_raw_code_loop] in Hloop.
  destruct (Z.gtb_spec (code_size + 8) 0) as [_|]; [|lia].
  destruct (Z.gtb_spec (code_size + 8) 256) as [|_]; [lia|].
  replace (u32 (code_size + 8 - (code_size + 8))) with 0 in Hloop
    by (rewrite Z.sub_diag; reflexivity).
  apply bind_ok_inv in Hloop.
  destruct Hloop as [(s & _ & _ & Hx)|(w1 & w2 & Hwr & Hrest & ->)]; [discriminate|].
  assert (Hw2 : w2 = []).
  { destruct fuel'; cbn [stm32_run_raw_code_loop] in Hrest;
      apply ret_inv in Hrest; destruct Hrest; assumption. }
  subst w2. rewrite app_nil_r.
  apply stm32_write_memory_run in Hwr; [|lia].
  destruct Hwr as (_ & _ & Hwm & c1 & a1 & w & -> & Hc1 & Ha1 & _ & Hww).
  match type of Hgo with
  | stm32_go _ _ _ ?hh = _ => pose proof (stm32_go_run fuel stm target hh) as Hg
  end.
  cbv zeta in Hg. rewrite Hgo in Hg. cbn [fst snd] in Hg.
  destruct Hg as [Hnocmd Hcmd].
  destruct (Z.eq_dec (go (cmd stm)) STM32_CMD_ERR) as [Hge|Hgne].
  { specialize (Hnocmd Hge). discriminate. }
  destruct (Hcmd Hgne) as (_ & _ & Hok).
  destruct (Hok eq_refl) as (c2 & a2 & -> & Hc2 & Ha2).
  split; [exact Hal|]. split; [exact Hwm|]. split; [exact Hgne|].
  rewrite !writes_app. cbn [writes]. rewrite !writes_app. cbn [writes].
  rewrite (writes_sent_command _ _ Hc1), (writes_sent_command _ _ Hc2),
    (writes_acked _ Ha1), (writes_acked _ Ha2), Hww.
  cbn [app]. unfold payload.
  rewrite (store_address_bytes target (repeat 0 258)) by (rewrite repeat_length; lia).
  rewrite (store_address_bytes target (repeat 0 5)) by (rewrite repeat_length; lia).
  reflexivity.
Qed.

End MoreReset.

(** X20.  Resetting the device by injected code.  A call that returns
    OK wrote five buffers: the write command, the address of the start
    of the RAM, one data frame, the GO command and the same address
    again.  The data frame carries the image: the stack pointer
    0x20002000 and the entry address, both least significant byte first,
    the entry being the start of the RAM plus 9 (8 bytes of header, and
    bit 0 set for Thumb), followed by the stub that the flags of the
    device select: the OBL_LAUNCH stub with [F_OBLL], else the PEMPTY
    stub with [F_PEMPTY], else the plain reset stub. *)
Theorem stm32_reset_device_ok `{port_h} `{stm32_h} `{libc} :
  forall (fuel : nat) (stm : stm32_t) (h : history) (evs : list event),
    stm32_reset_device fuel stm h = (Some STM32_ERR_OK, evs) ->
    let target := ram_start (dev stm) in
    let stub :=
      if has_flag (dev_flags (dev stm)) F_OBLL then stm_obl_launch_code
      else if has_flag (dev_flags (dev stm)) F_PEMPTY then stm_pempty_launch_code
      else stm_reset_code in
    let image := [0x00; 0x20; 0x00; 0x20] ++ le_u32 (u32 (target + 8 + 1)) ++ stub in
    let payload := firstn 5 (store_address target (repeat 0 5%nat)) in
    Z.land target 0x3 = 0 /\ wm (cmd stm) <> STM32_CMD_ERR /\ go (cmd stm) <> STM32_CMD_ERR /\
    writes evs = [[wm (cmd stm); Z.lxor (wm (cmd stm)) 0xFF]; payload;
                  write_memory_data_frame target image (Z.of_nat (length image));
                  [go (cmd stm); Z.lxor (go (cmd stm)) 0xFF]; payload].
Proof.
  intros fuel stm h evs Hrun. cbv zeta.
  unfold stm32_reset_device in Hrun.
  destruct (has_flag (dev_flags (dev stm)) F_OBLL);
    [|destruct (has_flag (dev_flags (dev stm)) F_PEMPTY)];
    (apply stm32_run_raw_code_one_block in Hrun;
     [|unfold stm_obl_launch_code_length, stm_pempty_launch_code_length,
         stm_reset_code_length; cbn [length stm_obl_launch_code stm_pempty_launch_code
                                     stm_reset_code]; lia]);
    cbv zeta in Hrun; exact Hrun.
Qed.

(** ** Session establishment on a byte port *)

(** X21.  What the establishment of a session puts on the wire of a
    port that reads byte by byte.  A call that hands back a session
    wrote the framed commands GET VERSION, GET and GET ID, in that order
    and each exactly once, after the init byte 0x7F (once, or twice
    after a timeout) when the port wants it and the caller asked for it,
    and nothing else. *)
Theorem stm32_init_byte_port `{port_h} `{libc} :
  forall (fuel : nat) (devices : list stm32_dev_t) (p : port_interface) (init : Z)
         (h : history) (stm : stm32_t) (evs : list event),
    has_flag (flags p) PORT_BYTE = true ->
    stm32_init fuel devices p init h = (Some (Some stm), evs) ->
    let greeting := has_flag (flags p) PORT_CMD_INIT && negb (init =? 0) in
    exists pre,
      writes evs = pre ++ [[0x01; 0xFE]; [0x00; 0xFF]; [0x02; 0xFD]] /\
      (greeting = false -> pre = []) /\
      (greeting = true -> pre = [[0x7F]] \/ pre = [[0x7F]; [0x7F]]).
Proof.
  intros fuel devices p init h stm evs Hbyte Hrun greeting.
  unfold stm32_init in Hrun. cbv zeta in Hrun. fold greeting in Hrun.
  apply bind_ok_inv in Hrun.
  destruct Hrun as [(s & _ & _ & Hx)|(e0 & e' & Hinit & Hrun & ->)]; [discriminate|].
  apply stm32_send_command_step in Hrun; [|discriminate].
  destruct Hrun as (c1 & e2 & Hc1 & Hrun & ->).
  apply bind_inv in Hrun.
  destruct Hrun as [([e got] & e3 & e4 & Hrd & Hrun & ->)|[_ Hr]]; [|discriminate].
  destruct e; cbn [port_err_eqb negb] in Hrun;
    try (apply ret_inv in Hrun; destruct Hrun; discriminate).
  apply port_read_ok_bytes in Hrd. destruct Hrd as (_ & _ & ->).
  apply stm32_get_ack_step in Hrun; [|discriminate].
  destruct Hrun as (a1 & e5 & Ha1 & Hrun & ->).
  apply bind_inv in Hrun.
  destruct Hrun as [([s buf1] & g1 & e6 & Hg1 & Hrun & ->)|[_ Hr]]; [|discriminate].
  destruct s; cbn [stm32_err_eqb negb] in Hrun;
    try (apply ret_inv in Hrun; destruct Hrun; discriminate).
  pose proof (stm32_init_get_loop_known buf1) as Hknown.
  destruct (stm32_init_get_loop buf1 cmd_unset) as [c nc] eqn:Hloop. cbn [fst] in Hknown.
  apply stm32_get_ack_step in Hrun; [|discriminate].
  destruct Hrun as (a2 & e7 & Ha2 & Hrun & ->).
  destruct ((get c =? STM32_CMD_ERR) || (gvr c =? STM32_CMD_ERR) || (gid c =? STM32_CMD_ERR))
    eqn:Hcmds; [apply ret_inv in Hrun; destruct Hrun; discriminate|].
  apply orb_false_elim in Hcmds. destruct Hcmds as [_ Hgid]. apply Z.eqb_neq in Hgid.
  assert (Hgid2 : gid c = 0x02).
  { destruct Hknown as (_ & _ & [Hk|Hk] & _); [contradiction|exact Hk]. }
  apply bind_inv in Hrun.
  destruct Hrun as [([s buf2] & g2 & e8 & Hg2 & Hrun & ->)|[_ Hr]]; [|discriminate].
  destruct s; cbn [stm32_err_eqb negb] in Hrun;
    try (apply ret_inv in Hrun; destruct Hrun; discriminate).
  destruct (u8 (idx buf2 0 + 1) <? 2);
    [apply ret_inv in Hrun; destruct Hrun; discriminate|].
  apply stm32_get_ack_step in Hrun; [|discriminate].
  destruct Hrun as (a3 & e9 & Ha3 & Hrun & ->).
  assert (He9 : e9 = []).
  { destruct (find_device devices _) as [d|]; [|discriminate].
    destruct (id d =? 0); apply ret_inv in Hrun; destruct Hrun; assumption. }
  subst e9.
  match type of Hg1 with
  | stm32_guess_len_cmd _ ?st ?cc ?dd ?ll ?hh = _ =>
    pose proof (stm32_guess_len_cmd_byte_run fuel st cc dd ll hh Hbyte) as (Hw1 & _)
  end.
  rewrite Hg1 in Hw1. cbn [snd] in Hw1.
  match type of Hg2 with
  | stm32_guess_len_cmd _ ?st ?cc ?dd ?ll ?hh = _ =>
    pose proof (stm32_guess_len_cmd_byte_run fuel st cc dd ll hh Hbyte) as (Hw2 & _)
  end.
  rewrite Hg2 in Hw2. cbn [snd] in Hw2. rewrite Hgid2 in Hw2.
  exists (writes e0).
  split.
  - rewrite !writes_app. cbn [writes].
    rewrite (writes_sent_command _ _ Hc1), (writes_acked _ Ha1), (writes_acked _ Ha2),
      (writes_acked _ Ha3), Hw1, Hw2.
    reflexivity.
  - destruct greeting.
    + split; [discriminate|]. intros _.
      match type of Hinit with
      | stm32_send_init_seq ?st ?hh = _ =>
        pose proof (stm32_send_init_seq_cases st hh) as (Hw & _)
      end.
      rewrite Hinit in Hw. exact Hw.
    + split; [|discriminate]. intros _.
      apply ret_inv in Hinit. destruct Hinit as [_ ->]. reflexivity.
Qed.

(** ** The data frame of a write of whole words *)

Lemma map_idx_zseq_length (data : list Z) (lo : Z) (n : nat) :
  length (map (idx data) (zseq lo n)) = n.
Proof.
  rewrite length_map. revert lo. induction n as [|n IH]; intros lo; cbn [zseq length];
    [reflexivity|]. rewrite IH. reflexivity.
Qed.

Lemma nth_zseq (lo : Z) (n i : nat) :
  (i < n)%nat -> nth i (zseq lo n) 0 = lo + Z.of_nat i.
Proof.
  revert lo i. induction n as [|n IH]; intros lo i Hi; [lia|].
  destruct i as [|i]; cbn [zseq nth]; [lia|]. rewrite IH by lia. lia.
Qed.

(** X22.  A write of whole words carries no padding: for a length
    between 1 and 256 that is a multiple of four, the data frame is the
    length less one, the bytes of the data in order, and the XOR of all
    bytes before. *)
Theorem write_memory_frame_whole_words :
  forall (address : Z) (data : list Z) (len : Z),
    1 <= len <= 256 -> len mod 4 = 0 ->
    let body := (len - 1) :: map (idx data) (zseq 0 (Z.to_nat len)) in
    write_memory_data_frame address data len = body ++ [xor_all body].
Proof.
  intros address data len Hlen Hmod body.
  destruct (write_memory_data_frame_spec address data len Hlen)
    as (Hl & H0 & Hdata & _ & Hcs).
  assert (HN : 4 * ((len + 3) / 4) = len) by (Z.div_mod_to_equations; lia).
  rewrite HN in Hl, H0, Hcs.
  set (frame := write_memory_data_frame address data len) in *.
  assert (Hbody : firstn (Z.to_nat (len + 1)) frame = body).
  { apply (nth_ext _ _ 0 0).
    - rewrite length_firstn, Hl. unfold body. cbn [length].
      rewrite map_idx_zseq_length. lia.
    - intros i Hi. rewrite length_firstn, Hl in Hi.
      rewrite nth_firstn. destruct (Nat.ltb_spec i (Z.to_nat (len + 1))) as [_|]; [|lia].
      destruct i as [|i].
      + unfold body. cbn [nth]. exact H0.
      + unfold body. cbn [nth].
        rewrite (nth_indep (map (idx data) (zseq 0 (Z.to_nat len))) 0 (idx data 0))
          by (rewrite map_idx_zseq_length; lia).
        rewrite map_nth. rewrite nth_zseq by lia.
        specialize (Hdata (Z.of_nat (S i)) ltac:(lia)).
        unfold idx in Hdata at 1. rewrite Nat2Z.id in Hdata. rewrite Hdata.
        f_equal. lia. }
  rewrite <- Hbody, <- Hcs.
  rewrite <- (firstn_all frame) at 1. rewrite Hl.
  replace (Z.to_nat (len + 2)) with (S (Z.to_nat (len + 1))) by lia.
  assert (Hlt : (Z.to_nat (len + 1) < length frame)%nat) by lia.
  clear - Hlt. unfold idx. revert Hlt. generalize (Z.to_nat (len + 1)) as k.
  intros k Hk.
  revert k Hk. induction frame as [|x frame IH]; intros k Hk; [cbn in Hk; lia|].
  destruct k as [|k]; cbn [firstn nth app].
  - reflexivity.
  - f_equal. apply IH. cbn [length] in Hk. lia.
Qed.

(** * Further runs on concrete inputs *)

Lemma store_address_round_trip_witness :
  exists b0 b1 b2 b3 cs,
    firstn 5 (store_address 0x08000400 (repeat 0 5%nat)) = [b0; b1; b2; b3; cs] /\
    0 <= b0 < 256 /\ 0 <= b1 < 256 /\ 0 <= b2 < 256 /\ 0 <= b3 < 256 /\
    0 <= cs < 256 /\
    0x08000400 = 16777216 * b0 + 65536 * b1 + 256 * b2 + b3 /\
    cs = Z.lxor (Z.lxor (Z.lxor b0 b1) b2) b3 /\
    xor_all [b0; b1; b2; b3; cs] = 0.
Proof.
  apply (store_address_round_trip 0x08000400 (repeat 0 5%nat)).
  - lia.
  - cbn [repeat length]. lia.
Defined.

Lemma stm32_read_memory_ok_witness :
  let run := @stm32_read_memory sample_port_h sample_clock 5 sample_session
               0x08000000 (repeat 0 4%nat) 4 [] in
  let data' := repeat STM32_ACK 4 in
  4 <= 256 /\ rm (cmd sample_session) <> STM32_CMD_ERR /\
  exists c1 a1 c2 got,
    snd run = c1 ++ EvWrite (firstn 5 (store_address 0x08000000 (repeat 0 5%nat))) PORT_ERR_OK
                 :: a1 ++ c2 ++ [EvRead 4 PORT_ERR_OK got] /\
    sent_command (rm (cmd sample_session)) c1 /\ acked a1 /\
    sent_command (u8 (4 - 1)) c2 /\
    length got = Z.to_nat 4 /\ Forall (fun b => 0 <= b < 256) got /\
    data' = blit (repeat 0 4%nat) 0 got.
Proof.
  intros run data'.
  apply (@stm32_read_memory_ok sample_port_h sample_clock 5 sample_session
           0x08000000 (repeat 0 4%nat) 4 [] data' (snd run)).
  - lia.
  - vm_compute. reflexivity.
Defined.

Lemma stm32_write_memory_ok_witness :
  let run := @stm32_write_memory sample_port_h sample_clock 5 sample_session
               0x08000000 [0x01; 0x02; 0x03; 0x04] 4 [] in
  4 <= 256 /\ Z.land 0x08000000 0x3 = 0 /\ wm (cmd sample_session) <> STM32_CMD_ERR /\
  exists c1 a1 w,
    snd run = c1 ++ EvWrite (firstn 5 (store_address 0x08000000 (repeat 0 258%nat)))
                      PORT_ERR_OK
                 :: a1 ++ EvWrite (write_memory_data_frame 0x08000000
                                     [0x01; 0x02; 0x03; 0x04] 4) PORT_ERR_OK :: w /\
    sent_command (wm (cmd sample_session)) c1 /\ acked a1 /\
    first_non_busy w = Some STM32_ACK /\ writes w = [].
Proof.
  intros run.
  apply (@stm32_write_memory_ok sample_port_h sample_clock 5 sample_session
           0x08000000 [0x01; 0x02; 0x03; 0x04] 4 [] (snd run)).
  - lia.
  - vm_compute. reflexivity.
Defined.

Lemma stm32_erase_memory_mass_witness :
  let run := @stm32_erase_memory sample_port_h sample_stm32_h sample_clock 5
               sample_session 3 0x100000 [] in
  let c := [0x44; Z.lxor 0x44 0xFF] in
  let f := [0xFF; 0xFF; 0x00] in
  run = @stm32_erase_memory sample_port_h sample_stm32_h sample_clock 5
          sample_session 0 0x100000 [] /\
  (writes (snd run) = [c] \/ writes (snd run) = [c; f]) /\
  (fst run = Some STM32_ERR_OK -> writes (snd run) = [c; f]) /\
  (fst run = None \/ fst run = Some STM32_ERR_OK \/ fst run = Some STM32_ERR_UNKNOWN).
Proof.
  apply (@stm32_erase_memory_mass sample_port_h sample_stm32_h sample_clock 5
           sample_session 3 []).
  - reflexivity.
  - discriminate.
  - cbn. lia.
  - cbn. lia.
  - discriminate.
Defined.


Lemma pages_erase_frames_content_witness :
  pages_erase_frame 2 3 = [0x02; 0x02; 0x03; 0x04; 0x07] /\
  pages_erase_frame_ext 2 3 = [0x00; 0x02; 0x00; 0x02; 0x00; 0x03; 0x00; 0x04; 0x07] /\
  pages_erase_frame 0 512
  = let body := 0xFF :: map u8 (zseq 0 512) in body ++ [xor_all body].
Proof.
  assert (H23 : 1 <= 3 <= 512) by lia.
  assert (H512 : 1 <= 512 <= 512) by lia.
  destruct (pages_erase_frames_content 2 3) as (Hl & Hx & _); [lia|exact H23|lia|].
  destruct (pages_erase_frames_content 0 512) as (_ & _ & Hu & _); [lia|exact H512|lia|].
  split; [|split].
  - rewrite Hl by lia. reflexivity.
  - rewrite Hx by lia. reflexivity.
  - exact Hu.
Defined.

Lemma stm32_sw_crc_chunks_witness :
  stm32_sw_crc (stm32_sw_crc 0xFFFFFFFF [0x01; 0x02; 0x03; 0x04] 4) [0x05; 0x06; 0x07; 0x08] 4
  = stm32_sw_crc 0xFFFFFFFF
      ([0x01; 0x02; 0x03; 0x04] ++ [0x05; 0x06; 0x07; 0x08]) (4 + 4).
Proof.
  apply (stm32_sw_crc_chunks 0xFFFFFFFF [0x01; 0x02; 0x03; 0x04] [0x05; 0x06; 0x07; 0x08] 4 4).
  - reflexivity.
  - reflexivity.
  - lia.
  - reflexivity.
Defined.

Lemma stm32_crc_memory_ok_witness :
  let run := @stm32_crc_memory sample_port_h sample_clock 5 crc_session
               0x08000000 0x400 0 [] in
  Z.land 0x08000000 0x3 = 0 /\ Z.land 0x400 0x3 = 0 /\
  crc (cmd crc_session) <> STM32_CMD_ERR /\
  exists c1 a1 a2 a3 b0 b1 b2 b3,
    snd run
    = c1 ++ EvWrite (firstn 5 (store_address 0x08000000 (repeat 0 5%nat))) PORT_ERR_OK
         :: a1 ++ EvWrite (firstn 5 (store_address 0x400 (repeat 0 5%nat))) PORT_ERR_OK
         :: a2 ++ a3
         ++ [EvRead 5 PORT_ERR_OK [b0; b1; b2; b3; Z.lxor (Z.lxor (Z.lxor b0 b1) b2) b3]] /\
    sent_command (crc (cmd crc_session)) c1 /\ acked a1 /\ acked a2 /\ acked a3 /\
    0x12345678 = 16777216 * b0 + 65536 * b1 + 256 * b2 + b3 /\
    0 <= 0x12345678 < 4294967296.
Proof.
  intros run.
  apply (@stm32_crc_memory_ok sample_port_h sample_clock 5 crc_session
           0x08000000 0x400 0 [] 0x12345678 (snd run)).
  vm_compute. reflexivity.
Defined.

Lemma stm32_crc_wrapper_fallback_witness :
  let run := @stm32_crc_wrapper sample_port_h sample_clock 5 sample_session
               0x08000000 8 0 (repeat 0 256%nat) [] in
  let value := stm32_sw_crc CRC_INIT_VALUE (repeat STM32_ACK 8) 8 in
  Z.land 0x08000000 0x3 = 0 /\ 8 mod 4 = 0 /\
  Z.of_nat (length (block_reads (snd run))) = 8 /\
  value = stm32_sw_crc CRC_INIT_VALUE (block_reads (snd run)) 8 /\
  value = crc32_msb_first 0xFFFFFFFF
            (le_words (Z.to_nat (8 / 4)) (block_reads (snd run))).
Proof.
  intros run value.
  apply (@stm32_crc_wrapper_fallback sample_port_h sample_clock 5 sample_session
           0x08000000 8 0 (repeat 0 256%nat) [] value (snd run)).
  - reflexivity.
  - lia.
  - vm_compute. reflexivity.
Defined.

Lemma flash_page_round_trip_witness :
  0 <= 1 /\ fl_start sample_dev <= flash_page_to_addr sample_dev 1 <= 0x08000500 /\
  flash_addr_to_page_floor (Z.to_nat 40000) sample_dev (flash_page_to_addr sample_dev 1)
  = Some 1 /\
  flash_addr_to_page_ceil (Z.to_nat 40000) sample_dev (flash_page_to_addr sample_dev 1)
  = Some 1 /\
  flash_addr_to_page_ceil (Z.to_nat 40000) sample_dev 0x08000500
  = Some (if 0x08000500 =? flash_page_to_addr sample_dev 1 then 1 else 1 + 1).
Proof.
  apply (flash_page_round_trip (Z.to_nat 40000) sample_dev 0x08000500 1).
  - reflexivity.
  - cbn [fl_end fl_start sample_dev]. lia.
  - cbn [fl_end fl_start sample_dev]. lia.
  - vm_compute. reflexivity.
Defined.

Lemma flash_addr_to_page_ceil_least_witness :
  exists q,
    flash_addr_to_page_ceil (Z.to_nat 40000) sample_dev 0x08000500 = Some q /\
    0 <= q <= 0x08000500 - fl_start sample_dev /\
    0x08000500 <= flash_page_to_addr sample_dev q /\
    (forall q', 0 <= q' < q -> flash_page_to_addr sample_dev q' < 0x08000500).
Proof.
  apply (flash_addr_to_page_ceil_least (Z.to_nat 40000) sample_dev 0x08000500).
  - reflexivity.
  - cbn [fl_end fl_start sample_dev]. lia.
  - cbn [fl_ps fl_end sample_dev]. intros s [<-|[<-|[]]]; lia.
  - cbn [fl_end fl_start sample_dev]. lia.
Defined.

Lemma cleanup_addresses_cover_witness :
  exists r,
    @cleanup_addresses sample_stm32_h (Z.to_nat 40000) sample_dev 0x08000500 0x300 0 0 0
    = Some (Some r) /\
    start r = 0x08000500 /\
    end_ r = (if 0x300 =? 0 then fl_end sample_dev
              else Z.min (fl_end sample_dev) (0x08000500 + 0x300)) /\
    no_erase r = 0 /\
    0 <= first_page r /\
    flash_page_to_addr sample_dev (first_page r) <= start r /\
    ((first_page r = 0 /\ end_ r = fl_end sample_dev /\ num_pages r = 0x100000) \/
     (0 <= num_pages r /\
      end_ r <= flash_page_to_addr sample_dev (first_page r + num_pages r))).
Proof.
  apply (@cleanup_addresses_cover sample_stm32_h (Z.to_nat 40000) sample_dev
           0x08000500 0x300 0 0 0).
  - reflexivity.
  - cbn [fl_end fl_start sample_dev]. lia.
  - cbn [fl_ps fl_end sample_dev]. intros s [<-|[<-|[]]]; lia.
  - cbn [fl_end fl_start sample_dev]. lia.
  - lia.
  - lia.
  - left. lia.
Defined.


Lemma stm32_guess_len_cmd_byte_port_witness :
  let run := @stm32_guess_len_cmd sample_port_h sample_clock 5 byte_session 0x02
               (repeat 0 4%nat) 1 [] in
  writes (snd run) = [[0x02; Z.lxor 0x02 0xFF]] /\
  run = @stm32_guess_len_cmd sample_port_h sample_clock 5 byte_session 0x02
          (repeat 0 4%nat) 0 [] /\
  (forall data', fst run = Some (STM32_ERR_OK, data') ->
     exists c1 L got,
       snd run = c1 ++ [EvRead 1 PORT_ERR_OK [L]; EvRead (L + 1) PORT_ERR_OK got] /\
       sent_command 0x02 c1 /\ 0 <= L < 256 /\ length got = Z.to_nat (L + 1) /\
       data' = blit (blit (repeat 0 4%nat) 0 [L]) 1 got).
Proof.
  apply (@stm32_guess_len_cmd_byte_port sample_port_h sample_clock 5 byte_session 0x02
           (repeat 0 4%nat) 1 []).
  vm_compute. reflexivity.
Defined.

Lemma stm32_reset_device_ok_witness :
  let run := @stm32_reset_device sample_port_h sample_stm32_h sample_clock 5
               sample_session [] in
  let target := ram_start sample_dev in
  let image := [0x00; 0x20; 0x00; 0x20] ++ le_u32 (u32 (target + 8 + 1)) ++ stm_reset_code in
  let payload := firstn 5 (store_address target (repeat 0 5%nat)) in
  Z.land target 0x3 = 0 /\ wm (cmd sample_session) <> STM32_CMD_ERR /\
  go (cmd sample_session) <> STM32_CMD_ERR /\
  writes (snd run)
  = [[0x31; Z.lxor 0x31 0xFF]; payload;
     write_memory_data_frame target image (Z.of_nat (length image));
     [0x21; Z.lxor 0x21 0xFF]; payload].
Proof.
  intros run.
  apply (@stm32_reset_device_ok sample_port_h sample_stm32_h sample_clock 5
           sample_session [] (snd run)).
  vm_compute. reflexivity.
Defined.

Lemma stm32_init_byte_port_witness :
  exists pre,
    writes (snd (@stm32_init sample_port_h sample_clock 5 sample_devices s1_port 1 []))
    = pre ++ [[0x01; 0xFE]; [0x00; 0xFF]; [0x02; 0xFD]] /\
    (has_flag (flags s1_port) (@PORT_CMD_INIT sample_port_h) && negb (1 =? 0) = false ->
     pre = []) /\
    (has_flag (flags s1_port) (@PORT_CMD_INIT sample_port_h) && negb (1 =? 0) = true ->
     pre = [[0x7F]] \/ pre = [[0x7F]; [0x7F]]).
Proof.
  apply (@stm32_init_byte_port sample_port_h sample_clock 5 sample_devices s1_port 1 []
           s1_session
           (snd (@stm32_init sample_port_h sample_clock 5 sample_devices s1_port 1 []))).
  - vm_compute. reflexivity.
  - vm_compute. reflexivity.
Defined.

Lemma write_memory_frame_whole_words_witness :
  write_memory_data_frame 0x08000000 [0x01; 0x02; 0x03; 0x04] 4
  = [0x03; 0x01; 0x02; 0x03; 0x04] ++ [xor_all [0x03; 0x01; 0x02; 0x03; 0x04]].
Proof.
  apply (write_memory_frame_whole_words 0x08000000 [0x01; 0x02; 0x03; 0x04] 4).
  - lia.
  - reflexivity.
Defined.
